(** * kirkifier_video.py: a shallow embedding and its verified properties

    The program is orchestration code: it parses [sys.argv], keeps three
    intermediate paths in the working directory, and calls two external
    systems in sequence (the ffmpeg command-line tool through
    [subprocess.run], and the insightface detection and swap models).

    The embedding is a state-and-exception monad over a [World] that holds
    the file system, the log of calls made to the outside (the [trace]),
    what was printed, and the source of random numbers.  The external
    systems are the fields of the class [Tools]; every function of the
    script is translated line by line on top of them. *)

From stdpp Require Import gmap strings list fin_maps sorting pretty.
From Stdlib Require Import ZArith Lia Ascii.

Local Open Scope Z_scope.

(** ** The file system

    A store from path strings to nodes.  Paths are taken literally, as the
    script builds them (the directory name, a slash, the entry name); the
    model does no normalisation of [..] or of doubled slashes.  A file
    holds either an image, as it is stored (with the channels and the
    depth the file has), or other bytes (audio, video). *)

Inductive content (Image : Type) : Type :=
| Img (pixels : Image)
| Raw (bytes : string).

Inductive node (Image : Type) : Type :=
| Dir
| File (c : content Image).

Arguments Img {Image} pixels.
Arguments Raw {Image} bytes.
Arguments Dir {Image}.
Arguments File {Image} c.

(** ** The external capabilities

    [imread_color] is what [cv2.imread(path)] makes of a stored image
    under its default flag [IMREAD_COLOR]: three channels of eight bits,
    an alpha channel dropped and a greater depth reduced.  [detect] is
    [FaceAnalysis.get] on a decoded image and [swap] is
    [INSwapper.get (res, face, kirk_face, paste_back=True)]; both are
    opaque and total.  [execute] is the operating system running a
    command line: it answers with the exit status of the tool and the
    regular files the tool wrote (ffmpeg writes output files and does
    nothing else to the store).  [cap_fps] is [cv2.VideoCapture(path).get
    (CAP_PROP_FPS)] and [str_fps] is [str] on that float.
    [loader_lines] are the lines the model loader prints to
    [sys.stdout]; loading the models is taken to succeed. *)

Class Tools := {
  Image : Type;
  Face : Type;
  Fps : Type;
  imread_color : Image → Image;
  detect : Image → list Face;
  swap : Image → Face → Face → Image;
  execute : list string → gmap string (node Image) → Z * list (string * content Image);
  cap_fps : string → gmap string (node Image) → Fps;
  str_fps : Fps → string;
  loader_lines : list string
}.

Abbreviation FS := (gmap string (node Image)).

(** ** String helpers of the Python run-time *)

(** [s.endswith(suf)] *)
Definition endswith (suf s : string) : bool :=
  let n := String.length s in
  let m := String.length suf in
  bool_decide (m ≤ n)%nat && String.eqb (String.substring (n - m) m s) suf.

(** [sorted] on a list of [str]: ascending in the code-point order, which
    on the bytes of the names is [String.le]. Names in one directory are
    pairwise different, so every correct sort returns the same list. *)
Definition sorted (l : list string) : list string := merge_sort String.le l.

(** The remainder of [s] after the prefix [pre], if [s] starts with it. *)
Fixpoint strip_prefix (pre s : string) : option string :=
  match pre, s with
  | EmptyString, _ => Some s
  | String a pre', String b s' =>
      if Ascii.eqb a b then strip_prefix pre' s' else None
  | String _ _, EmptyString => None
  end.

(** A directory entry name: not empty and without a slash. *)
Fixpoint no_slash (s : string) : bool :=
  match s with
  | EmptyString => true
  | String c s' => negb (Ascii.eqb c "/"%char) && no_slash s'
  end.

Definition is_name (s : string) : bool :=
  negb (String.eqb s "") && no_slash s.

(** The directory part of a path: everything before its last slash. *)
Fixpoint dirname (p : string) : option string :=
  match p with
  | EmptyString => None
  | String c r =>
      match dirname r with
      | Some d => Some (String c d)
      | None => if Ascii.eqb c "/"%char then Some EmptyString else None
      end
  end.

(** [p] is the directory [d] itself or lies below it. *)
Definition under (d p : string) : bool :=
  String.eqb p d || String.prefix (d +:+ "/") p.

(** The name ffmpeg gives to frame [i] under the pattern
    [frame_%04d.png] of [extract_frames]: decimal, zero-padded to four
    digits, longer when the number needs it. *)
Definition zfill (width : nat) (s : string) : string :=
  Nat.iter (width - String.length s) (String "0"%char) s.

Definition frame_name (i : nat) : string :=
  "frame_" +:+ zfill 4 (pretty i) +:+ ".png".

(** ** Outcomes of a computation

    A computation returns, raises an exception, or ends the process with
    [sys.exit]. The exceptions are the ones the script can meet. *)

Inductive stream : Type := Console | DevNull.

Inductive exn : Type :=
| FileExistsError (p : string)
| FileNotFoundError (p : string)
| NotADirectoryError (p : string)
| IsADirectoryError (p : string)
| CalledProcessError (code : Z) (cmd : list string)
| AttributeError
| IndexError.

Inductive outcome (A : Type) : Type :=
| Ok (a : A)
| Raise (e : exn)
| SysExit (code : Z).

Arguments Ok {A} a.
Arguments Raise {A} e.
Arguments SysExit {A} code.

Section Kirkifier.
Context `{T : Tools}.

(** ** Pure file-system operations *)

(** The names of the entries of directory [d]. *)
Definition listdir_names (d : string) (fs : FS) : list string :=
  omap (λ kv : string * node Image,
          n ← strip_prefix (d +:+ "/") kv.1;
          if is_name n then Some n else None)
       (map_to_list fs).

(** [os.path.isdir(p)] *)
Definition is_dir (p : string) (fs : FS) : bool :=
  match fs !! p with
  | Some Dir => true
  | _ => false
  end.

(** Creating or overwriting a regular file: needs the parent directory
    to exist and the path not to be a directory; otherwise nothing is
    written. *)
Definition parent_ok (p : string) (fs : FS) : bool :=
  match dirname p with
  | None => true
  | Some EmptyString => true
  | Some d => is_dir d fs
  end.

Definition write_file (p : string) (c : content Image) (fs : FS) : FS :=
  if parent_ok p fs && negb (is_dir p fs)
  then <[p := File c]> fs
  else fs.

Definition write_files (ws : list (string * content Image)) (fs : FS) : FS :=
  foldl (λ acc pc, write_file pc.1 pc.2 acc) fs ws.

(** What [cv2.imread] returns for the path [p]. *)
Definition decoded (fs : FS) (p : string) : option Image :=
  match fs !! p with
  | Some (File (Img i)) => Some (imread_color i)
  | _ => None
  end.

(** [shutil.rmtree(d, ignore_errors=True)]: a directory goes with all it
    contains; anything else raises inside [rmtree], and the error is
    ignored. *)
Definition remove_tree (d : string) (fs : FS) : FS :=
  match fs !! d with
  | Some Dir => filter (λ kv : string * node Image, under d kv.1 = false) fs
  | _ => fs
  end.

(** ** The world, the outcomes, the monad *)

Inductive event : Type :=
| EvLoad
| EvMakedirs (p : string)
| EvRun (cmd : list string) (code : Z)
| EvVideoCapture (p : string)
| EvListdir (p : string)
| EvRandint (lo hi v : Z)
| EvImread (p : string)
| EvDetect (img : Image)
| EvSwap (res : Image) (face ref : Face)
| EvImwrite (p : string) (img : Image)
| EvRmtree (p : string)
| EvRemove (p : string).

Record World : Type := mkWorld {
  fs : FS;
  trace : list event;
  stdout : list string;
  sys_stdout : stream;
  entropy : list Z
}.

Definition M (A : Type) : Type := World → outcome A * World.

Definition ret {A} (a : A) : M A := λ w, (Ok a, w).

Definition bind {A B} (m : M A) (k : A → M B) : M B :=
  λ w, match m w with
       | (Ok a, w') => k a w'
       | (Raise e, w') => (Raise e, w')
       | (SysExit c, w') => (SysExit c, w')
       end.

Definition raise {A} (e : exn) : M A := λ w, (Raise e, w).

Notation "x ←' m ; k" := (bind m (λ x, k))
  (at level 100, m at next level, right associativity,
   format "x  ←'  m ; '/' k").
Notation "m ;;' k" := (bind m (λ _, k))
  (at level 100, right associativity, format "m ;;' '/' k").

Definition set_fs (f : FS) (w : World) : World :=
  mkWorld f (trace w) (stdout w) (sys_stdout w) (entropy w).

Definition log (e : event) (w : World) : World :=
  mkWorld (fs w) (trace w ++ [e]) (stdout w) (sys_stdout w) (entropy w).

(** The exit status of the process once [main] has ended: 0 on return,
    the argument of [sys.exit], and 1 for an exception nobody caught. *)
Definition exit_status {A} (o : outcome A) : Z :=
  match o with
  | Ok _ => 0
  | SysExit c => c
  | Raise _ => 1
  end.

(** ** Primitives of the run-time and of the libraries *)

(** [print(s)] writes to whatever [sys.stdout] is bound to. *)
Definition print (s : string) : M unit := λ w,
  match sys_stdout w with
  | Console => (Ok tt, mkWorld (fs w) (trace w) (stdout w ++ [s]) Console (entropy w))
  | DevNull => (Ok tt, w)
  end.

(** [exit()] and [sys.exit(code)] *)
Definition sys_exit {A} (code : Z) : M A := λ w, (SysExit code, w).

(** [Path(p).exists()] and [os.path.exists(p)] *)
Definition path_exists (p : string) : M bool := λ w,
  (Ok (bool_decide (is_Some (fs w !! p))), w).

(** [os.makedirs(p, exist_ok=True)] *)
Definition os_makedirs (p : string) : M unit := λ w,
  let w := log (EvMakedirs p) w in
  match fs w !! p with
  | Some (File _) => (Raise (FileExistsError p), w)
  | Some Dir => (Ok tt, w)
  | None => (Ok tt, set_fs (<[p := Dir]> (fs w)) w)
  end.

(** [os.listdir(p)] *)
Definition os_listdir (p : string) : M (list string) := λ w,
  let w := log (EvListdir p) w in
  match fs w !! p with
  | Some Dir => (Ok (listdir_names p (fs w)), w)
  | Some (File _) => (Raise (NotADirectoryError p), w)
  | None => (Raise (FileNotFoundError p), w)
  end.

(** [os.remove(p)] *)
Definition os_remove (p : string) : M unit := λ w,
  let w := log (EvRemove p) w in
  match fs w !! p with
  | Some (File _) => (Ok tt, set_fs (delete p (fs w)) w)
  | Some Dir => (Raise (IsADirectoryError p), w)
  | None => (Raise (FileNotFoundError p), w)
  end.

(** [shutil.rmtree(p, ignore_errors=True)] *)
Definition shutil_rmtree (p : string) : M unit := λ w,
  let w := log (EvRmtree p) w in
  (Ok tt, set_fs (remove_tree p (fs w)) w).

(** [subprocess.run(cmd, check=True, capture_output=True)]: the tool is
    taken to be installed; what it wrote stays, whatever its status, and
    a status other than 0 raises. *)
Definition subprocess_run (cmd : list string) : M unit := λ w,
  let '(code, written) := execute cmd (fs w) in
  let w := set_fs (write_files written (fs w)) (log (EvRun cmd code) w) in
  if bool_decide (code = 0) then (Ok tt, w)
  else (Raise (CalledProcessError code cmd), w).

(** [cv2.imread(p)]: the stored image brought to three channels of
    eight bits; [None] when the file is missing or is no image. *)
Definition cv2_imread (p : string) : M (option Image) := λ w,
  let w := log (EvImread p) w in
  (Ok (decoded (fs w) p), w).

(** [cv2.imwrite(p, img)]: the file holds the array as given (the
    formats written here, PNG, are lossless); where the file cannot be
    written it returns [False] without raising, and the script ignores
    the result. *)
Definition cv2_imwrite (p : string) (img : Image) : M unit := λ w,
  (Ok tt, set_fs (write_file p (Img img) (fs w)) (log (EvImwrite p img) w)).

(** [faceanalysis.get(img)] on a decoded image *)
Definition faceanalysis_get (img : Image) : M (list Face) := λ w,
  (Ok (detect img), log (EvDetect img) w).

(** [swapper.get(res, face, kirk_face, paste_back=True)] *)
Definition swapper_get (res : Image) (face kirk_face : Face) : M Image := λ w,
  (Ok (swap res face kirk_face), log (EvSwap res face kirk_face) w).

(** [randint(lo, hi)]: the next number of the entropy source, brought
    into the range from [lo] to [hi], both included. *)
Definition randint (lo hi : Z) : M Z := λ w,
  let v := lo + hd 0 (entropy w) `mod` (hi - lo + 1) in
  (Ok v, mkWorld (fs w) (trace w ++ [EvRandint lo hi v]) (stdout w)
                 (sys_stdout w) (tl (entropy w))).

(** [for x in xs: body(x)] *)
Fixpoint for_each {A} (xs : list A) (body : A → M unit) : M unit :=
  match xs with
  | [] => ret tt
  | x :: xs' => body x ;;' for_each xs' body
  end.

(** [for x in xs: acc = body(acc, x)] *)
Fixpoint for_fold {A B} (xs : list A) (acc : B) (body : B → A → M B) : M B :=
  match xs with
  | [] => ret acc
  | x :: xs' => acc' ←' body acc x; for_fold xs' acc' body
  end.

(** ** The script, function by function *)

(** [with suppress_output(): body] binds [sys.stdout] to the null device
    for the time of [body] and restores it in its [finally]. *)
Definition suppress_output {A} (body : M A) : M A := λ w,
  let old_stdout := sys_stdout w in
  let '(r, w') := body (mkWorld (fs w) (trace w) (stdout w) DevNull (entropy w)) in
  (r, mkWorld (fs w') (trace w') (stdout w') old_stdout (entropy w')).

(** Loading the two models; insightface reports on what it loads with
    [print], so these lines go to whatever [sys.stdout] is bound to. *)
Definition initialize_faceanalysis_and_swapper : M unit := λ w,
  let w := log EvLoad w in
  match sys_stdout w with
  | Console =>
      (Ok tt, mkWorld (fs w) (trace w) (stdout w ++ loader_lines) Console
                      (entropy w))
  | DevNull => (Ok tt, w)
  end.

Definition get_video_fps (video_path : string) : M Fps := λ w,
  (Ok (cap_fps video_path (fs w)), log (EvVideoCapture video_path) w).

Definition extract_frames_cmd (video_path : string) : list string :=
  ["ffmpeg"; "-i"; video_path; "-q:v"; "2"; "unprocessed_frames/frame_%04d.png"].

Definition extract_frames (video_path : string) : M unit :=
  os_makedirs "unprocessed_frames" ;;'
  subprocess_run (extract_frames_cmd video_path).

Definition extract_audio_cmd (video_path : string) : list string :=
  ["ffmpeg"; "-i"; video_path; "-map"; "0:a"; "-acodec"; "copy"; "audio.aac"].

Definition extract_audio (video_path : string) : M string :=
  subprocess_run (extract_audio_cmd video_path) ;;'
  ret "audio.aac".

Definition reconstruct_video_cmd (fps : Fps) (audio_path output_path : string)
  : list string :=
  ["ffmpeg"; "-framerate"; str_fps fps;
   "-i"; "processed_frames/frame_%04d.png";
   "-i"; audio_path;
   "-c:v"; "libx264"; "-pix_fmt"; "yuv420p";
   "-c:a"; "copy"; "-shortest";
   output_path].

Definition reconstruct_video (fps : Fps) (audio_path output_path : string) : M unit :=
  os_makedirs "processed_frames" ;;'
  subprocess_run (reconstruct_video_cmd fps audio_path output_path).

Definition cleanup (audio_path : string) : M unit :=
  shutil_rmtree "unprocessed_frames" ;;'
  shutil_rmtree "processed_frames" ;;'
  ex ←' path_exists audio_path;
  if ex : bool then os_remove audio_path else ret tt.

(** [imread] gives [None] for a missing or undecodable frame, and
    [faceanalysis.get(None)] then fails on [img.shape]: that is the
    [None] branch. [img.copy()] is the identity on values. *)
Definition kirkify_frame (frame_path output_path : string) (kirk_face : Face)
  : M unit :=
  oimg ←' cv2_imread frame_path;
  match oimg with
  | None => raise AttributeError
  | Some img =>
      faces ←' faceanalysis_get img;
      match faces with
      | _ :: _ =>
          let res := img in
          res ←' for_fold faces res (λ res face, swapper_get res face kirk_face);
          cv2_imwrite output_path res
      | [] => cv2_imwrite output_path img
      end
  end.

Definition kirk_path (v : Z) : string := "kirks/kirk_" +:+ pretty v +:+ ".jpg".

(** [tqdm] draws the progress bar on standard error and yields the
    elements of [frame_files] in order; it is not part of the model. *)
Definition process_all_frames : M unit :=
  os_makedirs "processed_frames" ;;'
  names ←' os_listdir "unprocessed_frames";
  let frame_files := filter (λ f, endswith ".png" f = true) (sorted names) in
  v ←' randint 0 2;
  okirk ←' cv2_imread (kirk_path v);
  match okirk with
  | None => raise AttributeError
  | Some kirk =>
      faces ←' faceanalysis_get kirk;
      match faces with
      | [] => raise IndexError
      | kirk_face :: _ =>
          for_each frame_files (λ filename,
            let input_path := "unprocessed_frames/" +:+ filename in
            let output_path := "processed_frames/" +:+ filename in
            kirkify_frame input_path output_path kirk_face)
      end
  end.

(** Lines 120 to 135 of [main]: the steps of a conversion that precede
    cleanup, named so that theorems can speak of the state in which
    cleanup is entered. *)
Definition conversion_steps (TARGET_PATH OUTPUT_PATH : string) : M string :=
  initialize_faceanalysis_and_swapper ;;'
  print "Extracting frames..." ;;'
  extract_frames TARGET_PATH ;;'
  print "Extracting audio..." ;;'
  audio_path ←' extract_audio TARGET_PATH;
  print "Processing frames..." ;;'
  process_all_frames ;;'
  print "Reconstructing video..." ;;'
  fps ←' get_video_fps TARGET_PATH;
  reconstruct_video fps audio_path OUTPUT_PATH ;;'
  ret audio_path.

Definition usage : string := "Usage: python script.py <input_video> <output_video>".

Definition main (argv : list string) : M unit :=
  if bool_decide (1 < length argv)%nat && bool_decide (argv !! 1%nat = Some "init") then
    suppress_output initialize_faceanalysis_and_swapper ;;'
    print "initialized!!" ;;'
    sys_exit 0
  else if bool_decide (length argv ≠ 3%nat) then
    print usage ;;'
    sys_exit 1
  else
    let TARGET_PATH := argv !!! 1%nat in
    let OUTPUT_PATH := argv !!! 2%nat in
    ex ←' path_exists TARGET_PATH;
    if negb ex then
      print "ERROR: target path not real" ;;'
      sys_exit 1
    else
      audio_path ←' conversion_steps TARGET_PATH OUTPUT_PATH;
      print "Cleaning up..." ;;'
      cleanup audio_path ;;'
      print ("Done! Output saved to " +:+ OUTPUT_PATH).

(** The process: [main()] under [if __name__ == "__main__"]. *)
Definition run (argv : list string) (w : World) : Z * World :=
  let '(r, w') := main argv w in (exit_status r, w').

End Kirkifier.

(** ** Observations on worlds and traces

    The vocabulary of the theorems: relations between the world before
    and after a computation, what a frame is turned into, and the calls
    read off a trace. *)

Section Observations.
Context `{T : Tools}.
Implicit Types (w : World) (p d : string) (e : event).

(** [m] takes every world to an [R]-related one, whatever its outcome. *)
Definition respects {A} (R : World → World → Prop) (m : M A) : Prop :=
  ∀ w, R w (m w).2.

(** The trace only grows, and what is added satisfies [P]. *)
Definition extends (P : event → Prop) w w' : Prop :=
  ∃ added, trace w' = trace w ++ added ∧ Forall P added.

(** Nothing disappears from the store, and directories stay directories. *)
Definition grows w w' : Prop :=
  ∀ p, (is_Some (fs w !! p) → is_Some (fs w' !! p))
       ∧ (is_dir p (fs w) = true → is_dir p (fs w') = true).

(** The entropy source is not touched. *)
Definition same_entropy w w' : Prop := entropy w' = entropy w.

(** Appending several events at once. *)
Definition log_all (es : list event) w : World :=
  mkWorld (fs w) (trace w ++ es) (stdout w) (sys_stdout w) (entropy w).

(** The frame after every face in [faces] was swapped, in order. *)
Definition swap_all (res : Image) (faces : list Face) (kirk_face : Face) : Image :=
  foldl (λ r face, swap r face kirk_face) res faces.

(** What [kirkify_frame] writes for the frame [img]. *)
Definition transform (kirk_face : Face) (img : Image) : Image :=
  swap_all img (detect img) kirk_face.

(** The swap calls of the loop of [kirkify_frame], each on the result of
    the one before. *)
Fixpoint swap_events (res : Image) (faces : list Face) (kirk_face : Face)
  : list event :=
  match faces with
  | [] => []
  | face :: faces' =>
      EvSwap res face kirk_face
        :: swap_events (swap res face kirk_face) faces' kirk_face
  end.

(** The events of one call of [kirkify_frame] on a readable frame. *)
Definition frame_events (kf : Face) (inp out : string) (img : Image) : list event :=
  [EvImread inp; EvDetect img]
    ++ swap_events img (detect img) kf
    ++ [EvImwrite out (transform kf img)].

(** The calls of one kind in a trace, in the order they were made. *)
Definition swap_calls (t : list event) : list (Image * Face * Face) :=
  omap (λ e, match e with EvSwap r f k => Some (r, f, k) | _ => None end) t.

Definition imwrite_calls (t : list event) : list (string * Image) :=
  omap (λ e, match e with EvImwrite p i => Some (p, i) | _ => None end) t.

Definition run_calls (t : list event) : list (list string * Z) :=
  omap (λ e, match e with EvRun c z => Some (c, z) | _ => None end) t.

Definition randint_calls (t : list event) : list (Z * Z * Z) :=
  omap (λ e, match e with EvRandint lo hi v => Some (lo, hi, v) | _ => None end) t.

(** Events that remove something from the store. *)
Definition not_cleanup e : Prop :=
  match e with
  | EvRmtree _ | EvRemove _ => False
  | _ => True
  end.

(** Events outside the external tool. *)
Definition not_run e : Prop :=
  match e with
  | EvRun _ _ => False
  | _ => True
  end.

(** Events that neither draw a random number nor swap a face. *)
Definition no_selection e : Prop :=
  match e with
  | EvRandint _ _ _ | EvSwap _ _ _ => False
  | _ => True
  end.

(** Events that draw no random number and swap, if at all, with the
    reference face [kf]. *)
Definition uses_reference (kf : Face) e : Prop :=
  match e with
  | EvRandint _ _ _ => False
  | EvSwap _ _ k => k = kf
  | _ => True
  end.

(** A trace in which the reference face was selected once: one draw, the
    read of the pool image it names, the detection on that image, whose
    first face is [kf]; no draw and no swap before, and after it no draw
    and only swaps with [kf]. *)
Definition selection_made (v : Z) (kirk : Image) (kf : Face)
    (added : list event) : Prop :=
  ∃ pre post,
    added = pre ++ [EvRandint 0 2 v; EvImread (kirk_path v); EvDetect kirk] ++ post
    ∧ Forall no_selection pre
    ∧ head (detect kirk) = Some kf
    ∧ Forall (uses_reference kf) post.

(** A trace in which one number was drawn and no reference face came of
    it: nothing is swapped at all. *)
Definition selection_failed (v : Z) (added : list event) : Prop :=
  ∃ pre post,
    added = pre ++ EvRandint 0 2 v :: post
    ∧ Forall no_selection pre
    ∧ Forall no_selection post.

(** The events [process_all_frames] can produce. *)
Definition pipeline_event e : Prop :=
  match e with
  | EvMakedirs _ | EvListdir _ | EvRandint _ _ _ | EvImread _ | EvDetect _
  | EvSwap _ _ _ | EvImwrite _ _ => True
  | _ => False
  end.

(** A step that draws no number, swaps no face and leaves the entropy
    source alone. *)
Definition quiet w w' : Prop := extends no_selection w w' ∧ same_entropy w w'.

(** Events that neither run the external tool nor remove anything. *)
Definition silent e : Prop :=
  match e with
  | EvRun _ _ | EvRmtree _ | EvRemove _ => False
  | _ => True
  end.

(** A step that runs no tool, removes nothing, and lets the store grow. *)
Definition calm w w' : Prop := extends silent w w' ∧ grows w w'.

(** How far a run has come since the world [w0]: the tool calls made so
    far with their exit status, the directories known to exist, nothing
    removed. *)
Definition progress (w0 : World) (runs : list (list string * Z))
    (dirs : list string) w : Prop :=
  ∃ added,
    trace w = trace w0 ++ added
    ∧ Forall not_cleanup added
    ∧ run_calls added = runs
    ∧ grows w0 w
    ∧ Forall (λ d, is_dir d (fs w) = true) dirs.

(** Where a conversion can abort, and which tool calls were made by
    then: each command at most once, none after a failure. *)
Definition abort_point (TARGET_PATH OUTPUT_PATH : string) (x : exn)
    (runs : list (list string * Z)) : Prop :=
  (x = FileExistsError "unprocessed_frames" ∧ runs = [])
  ∨ (∃ code, code ≠ 0
       ∧ x = CalledProcessError code (extract_frames_cmd TARGET_PATH)
       ∧ runs = [(extract_frames_cmd TARGET_PATH, code)])
  ∨ (∃ code, code ≠ 0
       ∧ x = CalledProcessError code (extract_audio_cmd TARGET_PATH)
       ∧ runs = [(extract_frames_cmd TARGET_PATH, 0);
                 (extract_audio_cmd TARGET_PATH, code)])
  ∨ runs = [(extract_frames_cmd TARGET_PATH, 0);
            (extract_audio_cmd TARGET_PATH, 0)]
  ∨ (∃ fps code, code ≠ 0
       ∧ x = CalledProcessError code
               (reconstruct_video_cmd fps "audio.aac" OUTPUT_PATH)
       ∧ runs = [(extract_frames_cmd TARGET_PATH, 0);
                 (extract_audio_cmd TARGET_PATH, 0);
                 (reconstruct_video_cmd fps "audio.aac" OUTPUT_PATH, code)]).

(** What [conversion_steps] guarantees, by outcome. *)
Definition conversion_post (w0 : World) (TARGET_PATH OUTPUT_PATH : string)
    (r : outcome string) w : Prop :=
  match r with
  | Ok audio_path =>
      audio_path = "audio.aac"
      ∧ ∃ fps,
          progress w0
            [(extract_frames_cmd TARGET_PATH, 0);
             (extract_audio_cmd TARGET_PATH, 0);
             (reconstruct_video_cmd fps "audio.aac" OUTPUT_PATH, 0)]
            ["processed_frames"; "unprocessed_frames"] w
  | Raise x =>
      ∃ runs dirs,
        progress w0 runs dirs w
        ∧ abort_point TARGET_PATH OUTPUT_PATH x runs
        ∧ (x = FileExistsError "unprocessed_frames"
           ∨ "unprocessed_frames" ∈ dirs)
  | SysExit _ => False
  end.

(** [m] always returns normally. *)
Definition always_returns {A} (m : M A) : Prop := ∀ w, ∃ a, (m w).1 = Ok a.

(** [m] never ends the process. *)
Definition never_exits {A} (m : M A) : Prop := ∀ w c, (m w).1 ≠ SysExit c.

(** An outcome other than a normal return. *)
Definition aborted {A} (r : outcome A) : Prop :=
  match r with
  | Ok _ => False
  | _ => True
  end.

(** Every world that satisfies [I] is taken by [m] to an outcome and a
    world that satisfy [P]. *)
Definition hoare {A} (I : World → Prop) (m : M A)
    (P : outcome A → World → Prop) : Prop :=
  ∀ w, I w → P (m w).1 (m w).2.

(** The decoded image of the extracted frame called [name]. *)
Definition input_path (name : string) : string := "unprocessed_frames/" +:+ name.
Definition output_path (name : string) : string := "processed_frames/" +:+ name.

Definition frame_image (f : FS) (name : string) : option Image :=
  decoded f (input_path name).

(** What the pipeline writes for the frame called [name], and the events
    of the whole loop over [names], read off the store [f] the loop
    starts in. *)
Definition frame_write (kf : Face) (f : FS) (name : string)
  : option (string * Image) :=
  (λ img, (output_path name, transform kf img)) <$> frame_image f name.

Definition loop_events (kf : Face) (f : FS) (names : list string) : list event :=
  names ≫= λ n,
    match frame_image f n with
    | Some img => frame_events kf (input_path n) (output_path n) img
    | None => []
    end.

(** The body of the loop, as [process_all_frames] writes it. *)
Definition loop_body (kf : Face) (filename : string) : M unit :=
  let input_path := "unprocessed_frames/" +:+ filename in
  let output_path := "processed_frames/" +:+ filename in
  kirkify_frame input_path output_path kf.

(** The number [randint(0, 2)] makes of the head of the entropy source. *)
Definition drawn w : Z := 0 + hd 0 (entropy w) `mod` (2 - 0 + 1).

(** The list [frame_files] that [process_all_frames] iterates over. *)
Definition frame_files_of (f : FS) : list string :=
  filter (λ n, endswith ".png" n = true) (sorted (listdir_names "unprocessed_frames" f)).

(** The three intermediates of a run: the two frame directories with all
    they contain, and the audio file. *)
Definition intermediate (p : string) : bool :=
  under "unprocessed_frames" p || under "processed_frames" p
  || String.eqb p "audio.aac".

(** The state of a run with respect to the choice of the reference face,
    seen from the world [w0] it started in: nothing drawn yet; or one
    number drawn and the reference face found. *)
Definition after_selection (w0 : World) w : Prop :=
  ∃ added kirk kf,
    trace w = trace w0 ++ added
    ∧ selection_made (drawn w0) kirk kf added
    ∧ entropy w = tail (entropy w0).

(** At the end of a run: it aborted before any draw; or it aborted with
    one number drawn and no reference face found, hence without a swap;
    or one number was drawn, the reference face was found, and every
    swap of the run used that face. *)
Definition one_selection (w0 : World) {A} (r : outcome A) w : Prop :=
  (aborted r ∧ quiet w0 w)
  ∨ (aborted r
     ∧ ∃ added, trace w = trace w0 ++ added
         ∧ selection_failed (drawn w0) added
         ∧ entropy w = tail (entropy w0))
  ∨ after_selection w0 w.

(** The fixed pool of candidate reference images. *)
Definition pool : list string :=
  ["kirks/kirk_0.jpg"; "kirks/kirk_1.jpg"; "kirks/kirk_2.jpg"].

(** The values [randint(lo, hi)] can return, each as likely as any
    other. *)
Definition randint_outcomes (lo hi : Z) : list Z := seqZ lo (hi - lo + 1).

(** The candidate that [process_all_frames] reads when the entropy
    source yields [raw] first. *)
Definition selected (raw : Z) : string :=
  kirk_path (0 + raw `mod` (2 - 0 + 1)).

(** Seen from the world [w0] a run started in: the run has drawn no
    number and swapped no face; or it has drawn exactly one number, by
    [randint(0, 2)], and all its swaps used one and the same reference
    face. *)
Definition at_most_one_draw (w0 : World) w : Prop :=
  ∃ added,
    trace w = trace w0 ++ added
    ∧ ((randint_calls added = [] ∧ swap_calls added = [])
       ∨ (randint_calls added = [(0, 2, drawn w0)]
          ∧ ∀ c1 c2, c1 ∈ swap_calls added → c2 ∈ swap_calls added →
              c1.2 = c2.2)).

(** What a computation guarantees about the selection, by outcome. *)
Definition selection_post (w0 : World) {A} (r : outcome A) w : Prop :=
  match r with
  | Ok _ => after_selection w0 w
  | _ => one_selection w0 r w
  end.

(** What is left of [main] once [conversion_steps] has returned. *)
Definition finish (OUTPUT_PATH audio_path : string) : M unit :=
  bind (print "Cleaning up...") (λ _,
  bind (cleanup audio_path) (λ _,
  print ("Done! Output saved to " +:+ OUTPUT_PATH))).

(** The store [cleanup] leaves before it looks at the audio path. *)
Definition without_frame_directories (f : FS) : FS :=
  remove_tree "processed_frames" (remove_tree "unprocessed_frames" f).

(** A step that prints nothing and leaves [sys.stdout] bound as it was. *)
Definition same_output w w' : Prop :=
  stdout w' = stdout w ∧ sys_stdout w' = sys_stdout w.

(** A step that changes nothing outside the directory [processed_frames]. *)
Definition outside_unchanged w w' : Prop :=
  ∀ q, under "processed_frames" q = false → fs w' !! q = fs w !! q.

(** The lines a conversion prints, in order. *)
Definition progress_lines (OUTPUT_PATH : string) : list string :=
  ["Extracting frames..."; "Extracting audio..."; "Processing frames...";
   "Reconstructing video..."; "Cleaning up...";
   "Done! Output saved to " +:+ OUTPUT_PATH].

(** The console is in use and shows what it showed in [w0]. *)
Definition console (w0 : World) w : Prop :=
  stdout w = stdout w0 ∧ sys_stdout w = Console.

(** The console shows, after what it showed in [w0], the lines of the
    model loader and then the first [k] of the progress lines. *)
Definition printed (w0 : World) (OUTPUT_PATH : string) (k : nat) w : Prop :=
  stdout w = stdout w0 ++ loader_lines ++ take k (progress_lines OUTPUT_PATH)
  ∧ sys_stdout w = Console.

(** The world as the block of a [with suppress_output()] finds it. *)
Definition mute w : World :=
  mkWorld (fs w) (trace w) (stdout w) DevNull (entropy w).

(** A step that reaches the console through [sys.stdout] only and does
    not rebind it: started with [sys.stdout] on the null device, it shows
    nothing and leaves [sys.stdout] there. *)
Definition muted w w' : Prop :=
  sys_stdout w = DevNull → stdout w' = stdout w ∧ sys_stdout w' = DevNull.

(** What a computation of a conversion shows on the console: the lines
    of the loader, then some of the progress lines, in order, and exactly
    [k] of them when it returns normally. *)
Definition shows (w0 : World) (o : string) (k : nat) {A}
    (r : outcome A) w : Prop :=
  ∃ j, printed w0 o j w ∧ (aborted r ∨ j = k).

End Observations.

(** ** A small instance to run the model on

    Images are lists of regions, a region being 0 for background or the
    identity of the face in it; a stored image can also hold transparent
    regions, numbered from 100, which reading turns into background.
    Detection lists the identities, and a swap overwrites one identity by
    another. The tool stands in for ffmpeg: it
    extracts two frames from any video, finds audio unless the video is
    marked silent, and writes the output file on reassembly; it tells the
    three commands apart by their number of arguments. *)

Definition toy_execute (cmd : list string) (f : gmap string (node (list nat)))
  : Z * list (string * content (list nat)) :=
  match cmd with
  | [_; _; v; _; _; _] =>
      match f !! v with
      | Some (File (Raw _)) =>
          (0, [("unprocessed_frames/frame_0001.png", Img [1; 0; 2]%nat);
               ("unprocessed_frames/frame_0002.png", Img [0]%nat)])
      | _ => (1, [])
      end
  | [_; _; v; _; _; _; _; a] =>
      match f !! v with
      | Some (File (Raw b)) =>
          if String.eqb b "silent" then (1, []) else (0, [(a, Raw "aac")])
      | _ => (1, [])
      end
  | [_; _; _; _; _; _; _; _; _; _; _; _; _; _; out] =>
      (0, [(out, Raw "mp4")])
  | _ => (127, [])
  end.

Definition toy_tools : Tools := {|
  Image := list nat;
  Face := nat;
  Fps := nat;
  imread_color img := (λ x, if (100 <=? x)%nat then 0%nat else x) <$> img;
  detect img := filter (λ x, x ≠ 0%nat) img;
  swap res face ref := (λ x, if decide (x = face) then ref else x) <$> res;
  execute := toy_execute;
  cap_fps _ _ := 25%nat;
  str_fps n := pretty n;
  loader_lines := ["find model: det_10g.onnx"; "find model: inswapper_128.onnx"]
|}.

Definition toy_pool : gmap string (node (list nat)) :=
  <["kirks" := Dir]>
  (<["kirks/kirk_0.jpg" := File (Img [7%nat])]>
  (<["kirks/kirk_1.jpg" := File (Img [8%nat])]>
  (<["kirks/kirk_2.jpg" := File (Img [9%nat])]> ∅))).

(** A working directory with the pool and a video with sound. *)
Definition toy_fs : gmap string (node (list nat)) :=
  <["in.mp4" := File (Raw "movie")]> toy_pool.

(** The same with a video that has no audio stream. *)
Definition toy_fs_silent : gmap string (node (list nat)) :=
  <["in.mp4" := File (Raw "silent")]> toy_pool.

(** Two extracted frames, the first with two faces, the second with none. *)
Definition toy_fs_frames : gmap string (node (list nat)) :=
  <["unprocessed_frames" := Dir]>
  (<["unprocessed_frames/frame_0001.png" := File (Img [1; 0; 2]%nat)]>
  (<["unprocessed_frames/frame_0002.png" := File (Img [0]%nat)]> toy_fs)).

(** The frames 9999 and 10000 of a long video. *)
Definition toy_fs_long : gmap string (node (list nat)) :=
  <["unprocessed_frames" := Dir]>
  (<["unprocessed_frames/frame_9999.png" := File (Img [1%nat])]>
  (<["unprocessed_frames/frame_10000.png" := File (Img [2%nat])]> toy_fs)).

(** A pool whose second image shows no face. *)
Definition toy_fs_faceless : gmap string (node (list nat)) :=
  <["kirks/kirk_1.jpg" := File (Img [0%nat])]> toy_fs_frames.

(** A directory sits at the audio path. *)
Definition toy_fs_audio_dir : gmap string (node (list nat)) :=
  <["audio.aac" := Dir]> toy_fs_frames.

(** A regular file sits where a frame directory is expected. *)
Definition toy_fs_blocked : gmap string (node (list nat)) :=
  <["unprocessed_frames" := File (Raw "x")]> toy_fs.

Definition toy_fs_blocked_output : gmap string (node (list nat)) :=
  <["processed_frames" := File (Raw "x")]> toy_fs.

(** The extracted frames with a stray text file among them. *)
Definition toy_fs_mixed : gmap string (node (list nat)) :=
  <["unprocessed_frames/notes.txt" := File (Raw "n")]> toy_fs_frames.

(** Extracted frames and no pool of reference images. *)
Definition toy_fs_poolless : gmap string (node (list nat)) :=
  <["unprocessed_frames" := Dir]> ∅.

(** Three frames, the second of which is no image. *)
Definition toy_fs_broken : gmap string (node (list nat)) :=
  <["unprocessed_frames/frame_0002.png" := File (Raw "torn")]>
  (<["unprocessed_frames/frame_0003.png" := File (Img [3%nat])]> toy_fs_frames).

(** Two extracted frames, and an output left by an earlier, longer run. *)
Definition toy_fs_stale : gmap string (node (list nat)) :=
  <["processed_frames" := Dir]>
  (<["processed_frames/frame_0009.png" := File (Img [5%nat])]> toy_fs_frames).

(** One extracted frame without a face, stored with a transparent
    region, and the output directory. *)
Definition toy_fs_alpha : gmap string (node (list nat)) :=
  <["processed_frames" := Dir]>
  (<["unprocessed_frames" := Dir]>
  (<["unprocessed_frames/frame_0001.png" := File (Img [100; 0]%nat)]> toy_fs)).

Definition toy_world (f : gmap string (node (list nat))) : @World toy_tools :=
  @mkWorld toy_tools f [] [] Console [4].

(** * Properties *)

Section Framework.
Context `{T : Tools}.
Implicit Types (w : World) (p d : string) (e : event).

#[export] Instance extends_preorder P : PreOrder (extends P).
Proof.
  split.
  - intros w. exists []. by rewrite app_nil_r.
  - intros w1 w2 w3 (a1 & E1 & F1) (a2 & E2 & F2).
    exists (a1 ++ a2). rewrite E2, E1, <- app_assoc. split; [done|].
    by apply Forall_app.
Qed.

#[export] Instance grows_preorder : PreOrder grows.
Proof.
  split.
  - by intros w p.
  - intros w1 w2 w3 H12 H23 p.
    destruct (H12 p), (H23 p). split; auto.
Qed.

#[export] Instance same_entropy_preorder : PreOrder same_entropy.
Proof.
  split; [by intros w|]. unfold same_entropy. intros w1 w2 w3 ? ?. congruence.
Qed.

Section Respects.
Context (R : World → World → Prop) `{!PreOrder R}.

Lemma respects_ret {A} (a : A) : respects R (ret a).
Proof. intros w. simpl. reflexivity. Qed.

Lemma respects_raise {A} x : respects R (@raise _ A x).
Proof. intros w. simpl. reflexivity. Qed.

Lemma respects_sys_exit {A} c : respects R (@sys_exit _ A c).
Proof. intros w. simpl. reflexivity. Qed.

Lemma respects_bind {A B} (m : M A) (k : A → M B) :
  respects R m → (∀ a, respects R (k a)) → respects R (bind m k).
Proof.
  intros Hm Hk w. unfold bind. specialize (Hm w).
  destruct (m w) as [[a|x|c] w1]; simpl in *; [|done..].
  etrans; [exact Hm|]. apply Hk.
Qed.

Lemma respects_for_each {A} (xs : list A) (body : A → M unit) :
  (∀ x, respects R (body x)) → respects R (for_each xs body).
Proof.
  intros Hb. induction xs as [|x xs IH]; simpl.
  - apply respects_ret.
  - apply respects_bind; [apply Hb | intros _; exact IH].
Qed.

Lemma respects_for_fold {A B} (xs : list A) (acc : B) (body : B → A → M B) :
  (∀ b x, respects R (body b x)) → respects R (for_fold xs acc body).
Proof.
  intros Hb. revert acc. induction xs as [|x xs IH]; intros acc; simpl.
  - apply respects_ret.
  - apply respects_bind; [apply Hb | intros b; apply IH].
Qed.

End Respects.

(** *** Rules for [hoare] *)

Lemma hoare_bind {A B} (I : World → Prop) (m : M A) (k : A → M B)
    (P : outcome A → World → Prop) (Q : outcome B → World → Prop) :
  hoare I m P →
  (∀ x w, P (Raise x) w → Q (Raise x) w) →
  (∀ c w, P (SysExit c) w → Q (SysExit c) w) →
  (∀ a, hoare (P (Ok a)) (k a) Q) →
  hoare I (bind m k) Q.
Proof.
  intros Hm Hx Hc Hk w HI. specialize (Hm w HI). unfold bind.
  destruct (m w) as [[a|x|c] w1]; simpl in *; auto.
  by apply Hk.
Qed.

Lemma hoare_respects {A} (R : World → World → Prop) (I J : World → Prop)
    (m : M A) :
  respects R m → (∀ w w1, I w → R w w1 → J w1) → hoare I m (λ _, J).
Proof. intros Hm HIJ w HI. eapply HIJ; [exact HI|]. apply Hm. Qed.

Lemma hoare_ret {A} (I : World → Prop) (a : A) (Q : outcome A → World → Prop) :
  (∀ w, I w → Q (Ok a) w) → hoare I (ret a) Q.
Proof. intros H w HI. by apply H. Qed.

Lemma hoare_conseq {A} (I I' : World → Prop) (m : M A)
    (P P' : outcome A → World → Prop) :
  hoare I' m P' → (∀ w, I w → I' w) → (∀ r w, P' r w → P r w) →
  hoare I m P.
Proof. intros H HI HP w Hw. apply HP, H, HI, Hw. Qed.

Lemma hoare_bind_stable {A B} (R : World → World → Prop) (I : World → Prop)
    (m : M A) (k : A → M B) (Q : outcome B → World → Prop) :
  respects R m →
  (∀ w w1, I w → R w w1 → I w1) →
  (∀ x w, I w → Q (Raise x) w) →
  (∀ c w, I w → Q (SysExit c) w) →
  (∀ a, hoare I (k a) Q) →
  hoare I (bind m k) Q.
Proof.
  intros Hm Hst Hx Hc Hk.
  eapply hoare_bind; [eapply hoare_respects; [exact Hm|exact Hst]|..]; done.
Qed.

Lemma hoare_pure {A} (φ : Prop) (I : World → Prop) (m : M A)
    (Q : outcome A → World → Prop) :
  (φ → hoare I m Q) → hoare (λ w, φ ∧ I w) m Q.
Proof. intros H w [Hφ HI]. by apply H. Qed.

Lemma respects_and {A} (R1 R2 : World → World → Prop) (m : M A) :
  respects R1 m → respects R2 m → respects (λ w w', R1 w w' ∧ R2 w w') m.
Proof. intros H1 H2 w. split; [apply H1 | apply H2]. Qed.

(** *** The store under single writes *)

Lemma is_dir_true p (f : FS) : is_dir p f = true ↔ f !! p = Some Dir.
Proof.
  unfold is_dir. destruct (f !! p) as [[|c]|]; split; congruence.
Qed.

Lemma write_file_lookup_ne p q c (f : FS) :
  p ≠ q → write_file p c f !! q = f !! q.
Proof.
  intros Hne. unfold write_file.
  destruct (parent_ok p f && negb (is_dir p f)); [|done].
  by rewrite lookup_insert_ne.
Qed.

Lemma write_file_lookup_eq p c (f : FS) :
  parent_ok p f = true → is_dir p f = false →
  write_file p c f !! p = Some (File c).
Proof.
  intros Hp Hd. unfold write_file. rewrite Hp, Hd. simpl.
  by rewrite lookup_insert_eq.
Qed.

Lemma write_file_is_dir p q c (f : FS) :
  is_dir q (write_file p c f) = is_dir q f.
Proof.
  destruct (decide (p = q)) as [->|Hne].
  - unfold write_file.
    destruct (parent_ok q f && negb (is_dir q f)) eqn:E; [|done].
    apply andb_true_iff in E as [_ E]. apply negb_true_iff in E.
    rewrite E. unfold is_dir. by rewrite lookup_insert_eq.
  - unfold is_dir. by rewrite write_file_lookup_ne.
Qed.

Lemma write_file_is_Some p q c (f : FS) :
  is_Some (f !! q) → is_Some (write_file p c f !! q).
Proof.
  intros Hq. destruct (decide (p = q)) as [->|Hne].
  - unfold write_file.
    destruct (parent_ok q f && negb (is_dir q f)); [|done].
    rewrite lookup_insert_eq. eauto.
  - by rewrite write_file_lookup_ne.
Qed.

Lemma write_files_is_dir ws q (f : FS) :
  is_dir q (write_files ws f) = is_dir q f.
Proof.
  unfold write_files. revert f.
  induction ws as [|[p c] ws IH]; intros f; simpl; [done|].
  by rewrite IH, write_file_is_dir.
Qed.

Lemma write_files_is_Some ws q (f : FS) :
  is_Some (f !! q) → is_Some (write_files ws f !! q).
Proof.
  unfold write_files. revert f.
  induction ws as [|[p c] ws IH]; intros f Hq; simpl; [done|].
  apply IH. by apply write_file_is_Some.
Qed.

(** *** How the relations are established *)

Lemma extends_same P w w' : trace w' = trace w → extends P w w'.
Proof. intros E. exists []. by rewrite app_nil_r. Qed.

Lemma extends_one P e w w' : trace w' = trace w ++ [e] → P e → extends P w w'.
Proof. intros E He. exists [e]. split; [done|]. by constructor. Qed.

Lemma extends_weaken (P Q : event → Prop) w w' :
  (∀ e, P e → Q e) → extends P w w' → extends Q w w'.
Proof.
  intros HPQ (a & E & F). exists a. split; [done|].
  eapply Forall_impl; eauto.
Qed.

Lemma grows_same w w' : fs w' = fs w → grows w w'.
Proof. intros E p. by rewrite E. Qed.

Lemma grows_write_file w w' p c :
  fs w' = write_file p c (fs w) → grows w w'.
Proof.
  intros E q. rewrite E, write_file_is_dir. split; [|done].
  apply write_file_is_Some.
Qed.

Lemma grows_write_files w w' ws :
  fs w' = write_files ws (fs w) → grows w w'.
Proof.
  intros E q. rewrite E, write_files_is_dir. split; [|done].
  apply write_files_is_Some.
Qed.

Lemma grows_new_dir w w' p :
  fs w !! p = None → fs w' = <[p := Dir]> (fs w) → grows w w'.
Proof.
  intros Hn E q. rewrite E. unfold is_dir.
  destruct (decide (p = q)) as [->|Hne].
  - rewrite lookup_insert_eq. eauto.
  - by rewrite lookup_insert_ne.
Qed.

(** *** The primitives *)

Ltac prim_unfold :=
  unfold print, path_exists, os_makedirs, os_listdir, os_remove,
    shutil_rmtree, subprocess_run, cv2_imread, cv2_imwrite,
    faceanalysis_get, swapper_get, randint,
    initialize_faceanalysis_and_swapper, get_video_fps.

Ltac prim_extends :=
  intros; intros ?w; prim_unfold; simpl; repeat case_match; simpl;
  first [ by apply extends_same
        | eapply extends_one; [simpl; reflexivity | by eauto] ].

Lemma extends_print P s : respects (extends P) (print s).
Proof. prim_extends. Qed.

Lemma extends_path_exists P p : respects (extends P) (path_exists p).
Proof. prim_extends. Qed.

Lemma extends_os_makedirs P p :
  P (EvMakedirs p) → respects (extends P) (os_makedirs p).
Proof. prim_extends. Qed.

Lemma extends_os_listdir P p :
  P (EvListdir p) → respects (extends P) (os_listdir p).
Proof. prim_extends. Qed.

Lemma extends_os_remove P p :
  P (EvRemove p) → respects (extends P) (os_remove p).
Proof. prim_extends. Qed.

Lemma extends_shutil_rmtree P p :
  P (EvRmtree p) → respects (extends P) (shutil_rmtree p).
Proof. prim_extends. Qed.

Lemma extends_subprocess_run P cmd :
  (∀ code, P (EvRun cmd code)) → respects (extends P) (subprocess_run cmd).
Proof. prim_extends. Qed.

Lemma extends_cv2_imread P p :
  P (EvImread p) → respects (extends P) (cv2_imread p).
Proof. prim_extends. Qed.

Lemma extends_cv2_imwrite P p img :
  P (EvImwrite p img) → respects (extends P) (cv2_imwrite p img).
Proof. prim_extends. Qed.

Lemma extends_faceanalysis_get P img :
  P (EvDetect img) → respects (extends P) (faceanalysis_get img).
Proof. prim_extends. Qed.

Lemma extends_swapper_get P res face kf :
  P (EvSwap res face kf) → respects (extends P) (swapper_get res face kf).
Proof. prim_extends. Qed.

Lemma extends_randint P lo hi :
  (∀ v, P (EvRandint lo hi v)) → respects (extends P) (randint lo hi).
Proof. prim_extends. Qed.

Lemma extends_initialize P :
  P EvLoad → respects (extends P) initialize_faceanalysis_and_swapper.
Proof. prim_extends. Qed.

Lemma extends_get_video_fps P p :
  P (EvVideoCapture p) → respects (extends P) (get_video_fps p).
Proof. prim_extends. Qed.

Ltac prim_grows :=
  intros; intros ?w; prim_unfold; simpl; repeat case_match; simpl;
  first [ by apply grows_same
        | by eapply grows_write_file
        | by eapply grows_write_files
        | by eapply grows_new_dir ].

Lemma grows_print s : respects grows (print s).
Proof. prim_grows. Qed.

Lemma grows_path_exists p : respects grows (path_exists p).
Proof. prim_grows. Qed.

Lemma grows_os_makedirs p : respects grows (os_makedirs p).
Proof. prim_grows. Qed.

Lemma grows_os_listdir p : respects grows (os_listdir p).
Proof. prim_grows. Qed.

Lemma grows_subprocess_run cmd : respects grows (subprocess_run cmd).
Proof. prim_grows. Qed.

Lemma grows_cv2_imread p : respects grows (cv2_imread p).
Proof. prim_grows. Qed.

Lemma grows_cv2_imwrite p img : respects grows (cv2_imwrite p img).
Proof. prim_grows. Qed.

Lemma grows_faceanalysis_get img : respects grows (faceanalysis_get img).
Proof. prim_grows. Qed.

Lemma grows_swapper_get res face kf : respects grows (swapper_get res face kf).
Proof. prim_grows. Qed.

Lemma grows_randint lo hi : respects grows (randint lo hi).
Proof. prim_grows. Qed.

Lemma grows_initialize : respects grows initialize_faceanalysis_and_swapper.
Proof. prim_grows. Qed.

Lemma grows_get_video_fps p : respects grows (get_video_fps p).
Proof. prim_grows. Qed.

Ltac prim_same_entropy :=
  intros; intros ?w; prim_unfold; unfold same_entropy; simpl;
  repeat case_match; simpl; reflexivity.

Lemma same_entropy_print s : respects same_entropy (print s).
Proof. prim_same_entropy. Qed.

Lemma same_entropy_path_exists p : respects same_entropy (path_exists p).
Proof. prim_same_entropy. Qed.

Lemma same_entropy_os_makedirs p : respects same_entropy (os_makedirs p).
Proof. prim_same_entropy. Qed.

Lemma same_entropy_os_listdir p : respects same_entropy (os_listdir p).
Proof. prim_same_entropy. Qed.

Lemma same_entropy_os_remove p : respects same_entropy (os_remove p).
Proof. prim_same_entropy. Qed.

Lemma same_entropy_shutil_rmtree p : respects same_entropy (shutil_rmtree p).
Proof. prim_same_entropy. Qed.

Lemma same_entropy_subprocess_run cmd : respects same_entropy (subprocess_run cmd).
Proof. prim_same_entropy. Qed.

Lemma same_entropy_cv2_imread p : respects same_entropy (cv2_imread p).
Proof. prim_same_entropy. Qed.

Lemma same_entropy_cv2_imwrite p img : respects same_entropy (cv2_imwrite p img).
Proof. prim_same_entropy. Qed.

Lemma same_entropy_faceanalysis_get img :
  respects same_entropy (faceanalysis_get img).
Proof. prim_same_entropy. Qed.

Lemma same_entropy_swapper_get res face kf :
  respects same_entropy (swapper_get res face kf).
Proof. prim_same_entropy. Qed.

Lemma same_entropy_initialize :
  respects same_entropy initialize_faceanalysis_and_swapper.
Proof. prim_same_entropy. Qed.

Lemma same_entropy_get_video_fps p : respects same_entropy (get_video_fps p).
Proof. prim_same_entropy. Qed.

End Framework.

Create HintDb respects.

#[export] Hint Extern 0 (pipeline_event _) => exact I : respects.
#[export] Hint Extern 0 (silent _) => exact I : respects.
#[export] Hint Extern 0 (not_cleanup _) => exact I : respects.
#[export] Hint Extern 0 (not_run _) => exact I : respects.
#[export] Hint Extern 0 (no_selection _) => exact I : respects.
#[export] Hint Extern 0 (uses_reference _ _) =>
  first [exact I | exact eq_refl] : respects.

#[export] Hint Resolve
  extends_print extends_path_exists extends_os_makedirs extends_os_listdir
  extends_os_remove extends_shutil_rmtree extends_subprocess_run
  extends_cv2_imread extends_cv2_imwrite extends_faceanalysis_get
  extends_swapper_get extends_randint extends_initialize
  extends_get_video_fps
  grows_print grows_path_exists grows_os_makedirs grows_os_listdir
  grows_subprocess_run grows_cv2_imread grows_cv2_imwrite
  grows_faceanalysis_get grows_swapper_get grows_randint grows_initialize
  grows_get_video_fps
  same_entropy_print same_entropy_path_exists same_entropy_os_makedirs
  same_entropy_os_listdir same_entropy_os_remove same_entropy_shutil_rmtree
  same_entropy_subprocess_run same_entropy_cv2_imread
  same_entropy_cv2_imwrite same_entropy_faceanalysis_get
  same_entropy_swapper_get same_entropy_initialize
  same_entropy_get_video_fps : respects.

(** Decomposes a goal [respects R m] along the structure of [m]. *)
Ltac respects_step :=
  lazymatch goal with
  | |- respects _ (bind _ _) => apply respects_bind; [try typeclasses eauto | | intros ?]
  | |- respects _ (ret _) => apply respects_ret; try typeclasses eauto
  | |- respects _ (raise _) => apply respects_raise; try typeclasses eauto
  | |- respects _ (sys_exit _) => apply respects_sys_exit; try typeclasses eauto
  | |- respects _ (for_each _ _) =>
      apply respects_for_each; [try typeclasses eauto | intros ?]
  | |- respects _ (for_fold _ _ _) =>
      apply respects_for_fold; [try typeclasses eauto | intros ? ?]
  | |- respects _ (match ?x with _ => _ end) => destruct x
  | |- respects _ _ => solve [eauto with respects]
  end.

Ltac respects_tac := repeat (cbv zeta; respects_step).

(** ** One frame: [kirkify_frame] *)

Section Frames.
Context `{T : Tools}.
Implicit Types (w : World) (p d : string) (e : event) (img res : Image).

Lemma log_all_nil w : log_all [] w = w.
Proof. destruct w. unfold log_all. simpl. by rewrite app_nil_r. Qed.

Lemma log_all_app es1 es2 w :
  log_all es2 (log_all es1 w) = log_all (es1 ++ es2) w.
Proof. unfold log_all. simpl. by rewrite app_assoc. Qed.

Lemma log_all_set_fs es (f : FS) w :
  log_all es (set_fs f w) = set_fs f (log_all es w).
Proof. reflexivity. Qed.

Lemma pair_of_fst {A B} (x : A * B) (a : A) : x.1 = a → x = (a, x.2).
Proof. destruct x. simpl. congruence. Qed.

Lemma bind_ok {A B} (m : M A) (k : A → M B) w a w1 :
  m w = (Ok a, w1) → bind m k w = k a w1.
Proof. intros E. unfold bind. by rewrite E. Qed.

Lemma bind_raise {A B} (m : M A) (k : A → M B) w x w1 :
  m w = (Raise x, w1) → bind m k w = (Raise x, w1).
Proof. intros E. unfold bind. by rewrite E. Qed.

Lemma bind_inv_ok {A B} (m : M A) (k : A → M B) w b w2 :
  bind m k w = (Ok b, w2) → ∃ a w1, m w = (Ok a, w1) ∧ k a w1 = (Ok b, w2).
Proof.
  unfold bind. destruct (m w) as [[a|x|c] w1]; intros E; [eauto|done..].
Qed.

(** The inner loop makes one swap call per face, each on the result of
    the call before, and returns the last result. *)
Lemma for_fold_swapper_get faces res kf w :
  for_fold faces res (λ r face, swapper_get r face kf) w
  = (Ok (swap_all res faces kf), log_all (swap_events res faces kf) w).
Proof.
  revert res w. induction faces as [|face faces IH]; intros res w; simpl.
  - by rewrite log_all_nil.
  - erewrite bind_ok; [|reflexivity]. rewrite IH.
    change (log (EvSwap res face kf) w) with (log_all [EvSwap res face kf] w).
    by rewrite log_all_app.
Qed.

Lemma swap_calls_app (t1 t2 : list event) :
  swap_calls (t1 ++ t2) = swap_calls t1 ++ swap_calls t2.
Proof. apply omap_app. Qed.

Lemma imwrite_calls_app (t1 t2 : list event) :
  imwrite_calls (t1 ++ t2) = imwrite_calls t1 ++ imwrite_calls t2.
Proof. apply omap_app. Qed.

Lemma swap_calls_swap_events res faces kf :
  (swap_calls (swap_events res faces kf)).*1.*2 = faces
  ∧ Forall (λ c, c.2 = kf) (swap_calls (swap_events res faces kf)).
Proof.
  revert res. induction faces as [|face faces IH]; intros res; simpl.
  - split; [done|constructor].
  - destruct (IH (swap res face kf)) as [IH1 IH2]. split.
    + f_equal. exact IH1.
    + by constructor.
Qed.

Lemma imwrite_calls_swap_events res faces kf :
  imwrite_calls (swap_events res faces kf) = [].
Proof.
  revert res. induction faces as [|face faces IH]; intros res; simpl; [done|].
  apply IH.
Qed.

Lemma kirkify_frame_readable inp out kf w img :
  decoded (fs w) inp = Some img →
  kirkify_frame inp out kf w
  = (Ok tt, set_fs (write_file out (Img (transform kf img)) (fs w))
                   (log_all (frame_events kf inp out img) w)).
Proof.
  intros Hin. unfold kirkify_frame, frame_events, transform.
  erewrite bind_ok; [|unfold cv2_imread; simpl; rewrite Hin; reflexivity].
  cbv beta iota.
  erewrite bind_ok; [|reflexivity].
  destruct (detect img) as [|face faces] eqn:Hd.
  - unfold cv2_imwrite, log_all, set_fs, log. simpl.
    by rewrite <- !app_assoc.
  - rewrite <- Hd at 1.
    erewrite bind_ok; [|apply for_fold_swapper_get].
    unfold cv2_imwrite. simpl. unfold log_all, set_fs, log. simpl.
    rewrite Hd. simpl. f_equal. f_equal.
    rewrite <- !app_assoc. reflexivity.
Qed.

Lemma kirkify_frame_unreadable inp out kf w :
  decoded (fs w) inp = None →
  kirkify_frame inp out kf w = (Raise AttributeError, log (EvImread inp) w).
Proof.
  intros Hin. unfold kirkify_frame, bind, cv2_imread. simpl.
  by rewrite Hin.
Qed.

End Frames.

(** ** Names, paths and the sorted listing *)

Section Names.
Context `{T : Tools}.
Implicit Types (n m p d : string) (f : FS).

Lemma input_output_disjoint n m : input_path n ≠ output_path m.
Proof. unfold input_path, output_path. intros H. discriminate H. Qed.

Lemma output_path_inj n m : output_path n = output_path m → n = m.
Proof. unfold output_path. apply (inj _). Qed.

Lemma output_path_not_dir_name n : output_path n ≠ "processed_frames".
Proof.
  unfold output_path. intros H. cbv [String.append] in H. discriminate H.
Qed.

Lemma dirname_no_slash n : no_slash n = true → dirname n = None.
Proof.
  induction n as [|c n IH]; simpl; [done|].
  intros [Hc Hn]%andb_true_iff. rewrite (IH Hn).
  apply negb_true_iff in Hc. by rewrite Hc.
Qed.

Lemma dirname_entry d n :
  no_slash n = true → dirname (d +:+ "/" +:+ n) = Some d.
Proof.
  intros Hn. induction d as [|c d IH].
  - change (dirname (String "/" n) = Some "").
    cbn [dirname]. by rewrite (dirname_no_slash n Hn).
  - change (dirname (String c (d +:+ "/" +:+ n)) = Some (String c d)).
    cbn [dirname]. by rewrite IH.
Qed.

Lemma is_name_no_slash n : is_name n = true → no_slash n = true.
Proof. unfold is_name. by intros [_ ?]%andb_true_iff. Qed.

Lemma parent_ok_output n f :
  is_name n = true → parent_ok (output_path n) f = is_dir "processed_frames" f.
Proof.
  intros Hn. unfold parent_ok.
  change (output_path n) with ("processed_frames" +:+ "/" +:+ n).
  by rewrite (dirname_entry _ n (is_name_no_slash n Hn)).
Qed.

Lemma append_assoc (s1 s2 s3 : string) :
  (s1 +:+ s2) +:+ s3 = s1 +:+ s2 +:+ s3.
Proof.
  induction s1 as [|c s1 IH]; [done|].
  change (String c ((s1 +:+ s2) +:+ s3) = String c (s1 +:+ s2 +:+ s3)).
  by rewrite IH.
Qed.

Lemma strip_prefix_Some pre s n : strip_prefix pre s = Some n ↔ s = pre +:+ n.
Proof.
  revert s. induction pre as [|a pre IH]; intros s.
  - change ("" +:+ n) with n. simpl. split; congruence.
  - change (String a pre +:+ n) with (String a (pre +:+ n)).
    destruct s as [|b s]; simpl; [split; congruence|].
    destruct (Ascii.eqb_spec a b) as [->|Hne].
    + rewrite IH. split; congruence.
    + split; congruence.
Qed.

(** The listing holds exactly the entry names below the directory. *)
Lemma elem_of_listdir_names d f n :
  n ∈ listdir_names d f
  ↔ is_name n = true ∧ is_Some (f !! (d +:+ "/" +:+ n)).
Proof.
  unfold listdir_names. rewrite list_elem_of_omap. split.
  - intros ([q x] & Hin & Hq). simpl in Hq.
    destruct (strip_prefix (d +:+ "/") q) as [n'|] eqn:Hs; [|done].
    simpl in Hq. destruct (is_name n') eqn:Hn'; [|done].
    injection Hq as ->. split; [done|].
    apply strip_prefix_Some in Hs. rewrite <- append_assoc, <- Hs.
    apply elem_of_map_to_list in Hin. eauto.
  - intros [Hn [x Hx]]. exists (d +:+ "/" +:+ n, x). split.
    + by apply elem_of_map_to_list.
    + simpl. rewrite <- append_assoc.
      rewrite (proj2 (strip_prefix_Some _ _ n) eq_refl). simpl. by rewrite Hn.
Qed.

Lemma sorted_Permutation l1 l2 : l1 ≡ₚ l2 → sorted l1 = sorted l2.
Proof.
  intros Hp. unfold sorted. apply (Sorted_unique String.le).
  - apply Sorted_merge_sort, _.
  - apply Sorted_merge_sort, _.
  - by rewrite !merge_sort_Permutation.
Qed.

Lemma sorted_of_Sorted l : Sorted String.le l → sorted l = l.
Proof.
  intros Hs. unfold sorted. apply (Sorted_unique String.le).
  - apply Sorted_merge_sort, _.
  - done.
  - apply merge_sort_Permutation.
Qed.

Lemma StronglySorted_filter {A} (R : relation A) (P : A → Prop)
    `{∀ x, Decision (P x)} l :
  StronglySorted R l → StronglySorted R (filter P l).
Proof.
  induction 1 as [|x l Hl IH Hx]; [constructor|].
  rewrite filter_cons. case_decide; [|done].
  constructor; [done|].
  rewrite Forall_forall in Hx |- *.
  intros y [_ Hy]%list_elem_of_filter. by apply Hx.
Qed.

(** Creating a node outside the directory does not change its listing,
    up to the order in which the entries come. *)
Lemma listdir_names_insert d p (x : node Image) f :
  f !! p = None → strip_prefix (d +:+ "/") p = None →
  listdir_names d (<[p := x]> f) ≡ₚ listdir_names d f.
Proof.
  intros Hp Hs. unfold listdir_names.
  rewrite (map_to_list_insert f p x Hp). simpl. by rewrite Hs.
Qed.

Lemma frame_files_of_insert p (x : node Image) f :
  f !! p = None → strip_prefix "unprocessed_frames/" p = None →
  frame_files_of (<[p := x]> f) = frame_files_of f.
Proof.
  intros Hp Hs. unfold frame_files_of. f_equal.
  apply sorted_Permutation. by apply listdir_names_insert.
Qed.

(** The frames are processed in ascending order of their names, and each
    of them is a [.png] entry of the directory. *)
Lemma frame_files_of_sorted f : StronglySorted String.le (frame_files_of f).
Proof.
  unfold frame_files_of, sorted. apply StronglySorted_filter.
  apply StronglySorted_merge_sort; apply _.
Qed.

Lemma elem_of_frame_files_of f n :
  n ∈ frame_files_of f
  ↔ endswith ".png" n = true ∧ is_name n = true ∧ is_Some (f !! input_path n).
Proof.
  unfold frame_files_of, sorted. rewrite list_elem_of_filter.
  rewrite merge_sort_Permutation, elem_of_listdir_names. tauto.
Qed.

Lemma frame_files_of_Permutation f :
  frame_files_of f
  ≡ₚ filter (λ n, endswith ".png" n = true) (listdir_names "unprocessed_frames" f).
Proof. unfold frame_files_of, sorted. by rewrite merge_sort_Permutation. Qed.

End Names.

(** ** The loop over the frames and [process_all_frames] *)

Section Pipeline.
Context `{T : Tools}.
Implicit Types (w : World) (n m p q : string) (f : FS) (kf : Face).

Lemma decoded_agree f f' p :
  f' !! p = f !! p → decoded f' p = decoded f p.
Proof. unfold decoded. by intros ->. Qed.

Lemma decoded_None f p :
  (∀ img, f !! p ≠ Some (File (Img img))) → decoded f p = None.
Proof.
  intros Hp. unfold decoded.
  destruct (f !! p) as [[|[i|b]]|]; try done. by destruct (Hp i).
Qed.

Lemma for_each_frames kf f0 names : ∀ w,
  (∀ n, fs w !! input_path n = f0 !! input_path n) →
  is_dir "processed_frames" (fs w) = true →
  Forall (λ n, is_name n = true ∧ is_Some (frame_image f0 n)
               ∧ is_dir (output_path n) (fs w) = false) names →
  ∃ w', for_each names (loop_body kf) w = (Ok tt, w')
    ∧ trace w' = trace w ++ loop_events kf f0 names
    ∧ (∀ n img, n ∈ names → frame_image f0 n = Some img →
         fs w' !! output_path n = Some (File (Img (transform kf img))))
    ∧ (∀ q, (∀ n, n ∈ names → q ≠ output_path n) → fs w' !! q = fs w !! q)
    ∧ stdout w' = stdout w ∧ entropy w' = entropy w.
Proof.
  induction names as [|n names IH]; intros w Hag Hpd Hall.
  - exists w. simpl. rewrite app_nil_r. repeat split; try done.
    intros n img Hn. by apply elem_of_nil in Hn.
  - apply Forall_cons in Hall as [(Hname & [img Himg] & Hout) Hall].
    assert (Hread : decoded (fs w) (input_path n) = Some img).
    { rewrite (decoded_agree _ _ _ (Hag n)). exact Himg. }
    pose proof (kirkify_frame_readable (input_path n) (output_path n) kf w img Hread)
      as Hstep.
    set (w1 := set_fs (write_file (output_path n) (Img (transform kf img)) (fs w))
                 (log_all (frame_events kf (input_path n) (output_path n) img) w))
      in Hstep.
    destruct (IH w1) as (w' & Hrun & Htr & Hout' & Hframe & Hso & Hen).
    { intros m. simpl. rewrite write_file_lookup_ne; [apply Hag|].
      intros E. by apply (input_output_disjoint m n). }
    { simpl. by rewrite write_file_is_dir. }
    { eapply Forall_impl; [exact Hall|]. intros m (? & ? & ?).
      simpl. by rewrite write_file_is_dir. }
    exists w'. split; [|split; [|split; [|split; [|split]]]].
    + simpl. unfold loop_body at 1. fold (input_path n) (output_path n).
      erewrite bind_ok; [|exact Hstep]. exact Hrun.
    + rewrite Htr. simpl. rewrite Himg. by rewrite <- app_assoc.
    + intros m img' Hm Himg'.
      destruct (decide (m ∈ names)) as [Hin|Hnin]; [by apply Hout'|].
      apply elem_of_cons in Hm as [->|Hm]; [|done].
      rewrite Hframe.
      * simpl. assert (img' = img) as -> by congruence.
        apply write_file_lookup_eq; [|done].
        by rewrite parent_ok_output.
      * intros m Hm E. apply output_path_inj in E. by subst.
    + intros q Hq. rewrite Hframe.
      * simpl. apply write_file_lookup_ne. intros E.
        apply (Hq n); [apply elem_of_cons; by left|done].
      * intros m Hm. apply Hq. apply elem_of_cons. by right.
    + by rewrite Hso.
    + by rewrite Hen.
Qed.

Lemma imwrite_calls_frame_events kf inp out img :
  imwrite_calls (frame_events kf inp out img) = [(out, transform kf img)].
Proof.
  unfold frame_events. rewrite !imwrite_calls_app.
  by rewrite imwrite_calls_swap_events.
Qed.

Lemma imwrite_calls_loop_events kf f names :
  imwrite_calls (loop_events kf f names) = omap (frame_write kf f) names.
Proof.
  unfold loop_events, frame_write.
  induction names as [|n names IH]; [done|].
  rewrite bind_cons, imwrite_calls_app, IH.
  destruct (frame_image f n) as [img|] eqn:E.
  - rewrite imwrite_calls_frame_events. simpl. by rewrite E.
  - simpl. by rewrite E.
Qed.

Lemma omap_frame_write_readable kf f names :
  Forall (λ n, is_Some (frame_image f n)) names →
  (omap (frame_write kf f) names).*1 = output_path <$> names.
Proof.
  unfold frame_write.
  induction 1 as [|n names [img Himg] _ IH]; [done|].
  simpl. rewrite Himg. simpl. f_equal. exact IH.
Qed.

Lemma os_makedirs_ok p w :
  (∀ c, fs w !! p ≠ Some (File c)) →
  ∃ f1, os_makedirs p w = (Ok tt, set_fs f1 (log (EvMakedirs p) w))
    ∧ is_dir p f1 = true
    ∧ (∀ q, q ≠ p → f1 !! q = fs w !! q)
    ∧ (f1 = fs w ∨ (fs w !! p = None ∧ f1 = <[p := Dir]> (fs w))).
Proof.
  intros Hp. unfold os_makedirs. simpl.
  destruct (fs w !! p) as [[|c]|] eqn:E.
  - exists (fs w). repeat split; auto. by apply is_dir_true.
  - by destruct (Hp c).
  - exists (<[p := Dir]> (fs w)). repeat split; auto.
    + apply is_dir_true, lookup_insert_eq.
    + intros q Hq. by rewrite lookup_insert_ne.
Qed.

Lemma kirk_path_not_dir_name v : kirk_path v ≠ "processed_frames".
Proof. unfold kirk_path. intros H. discriminate H. Qed.

Lemma process_all_frames_ok w kirk kf others :
  (∀ c, fs w !! "processed_frames" ≠ Some (File c)) →
  is_dir "unprocessed_frames" (fs w) = true →
  decoded (fs w) (kirk_path (drawn w)) = Some kirk →
  detect kirk = kf :: others →
  Forall (λ n, is_Some (frame_image (fs w) n)
               ∧ is_dir (output_path n) (fs w) = false)
         (frame_files_of (fs w)) →
  ∃ w', process_all_frames w = (Ok tt, w')
    ∧ trace w' = trace w
        ++ [EvMakedirs "processed_frames"; EvListdir "unprocessed_frames";
            EvRandint 0 2 (drawn w); EvImread (kirk_path (drawn w));
            EvDetect kirk]
        ++ loop_events kf (fs w) (frame_files_of (fs w))
    ∧ (∀ n img, n ∈ frame_files_of (fs w) → frame_image (fs w) n = Some img →
         fs w' !! output_path n = Some (File (Img (transform kf img))))
    ∧ (∀ q, q ≠ "processed_frames" →
         (∀ n, n ∈ frame_files_of (fs w) → q ≠ output_path n) →
         fs w' !! q = fs w !! q)
    ∧ is_dir "processed_frames" (fs w') = true
    ∧ stdout w' = stdout w ∧ entropy w' = tl (entropy w).
Proof.
  intros Hp Hu Hk Hd Hall.
  destruct (os_makedirs_ok "processed_frames" w Hp) as (f1 & Hmk & Hdir & Hsame & Hf1).
  assert (Hfiles : frame_files_of f1 = frame_files_of (fs w)).
  { destruct Hf1 as [->|[Hnone ->]]; [done|].
    by apply frame_files_of_insert. }
  set (W := mkWorld f1
              (trace w ++ [EvMakedirs "processed_frames";
                           EvListdir "unprocessed_frames";
                           EvRandint 0 2 (drawn w);
                           EvImread (kirk_path (drawn w)); EvDetect kirk])
              (stdout w) (sys_stdout w) (tl (entropy w))).
  destruct (for_each_frames kf (fs w) (frame_files_of (fs w)) W)
    as (w' & Hrun & Htr & Hout & Hframe & Hso & Hen).
  { intros n. simpl. apply Hsame. intros E.
    symmetry in E. discriminate E. }
  { done. }
  { apply Forall_forall. intros n Hn.
    rewrite Forall_forall in Hall. destruct (Hall n Hn) as [Hr Ho].
    apply elem_of_frame_files_of in Hn as (_ & Hname & _).
    repeat split; [done..|].
    simpl. unfold is_dir. rewrite Hsame; [exact Ho|].
    apply output_path_not_dir_name. }
  exists w'. split; [|split; [|split; [|split; [|split]]]].
  - unfold process_all_frames.
    erewrite bind_ok; [|exact Hmk].
    erewrite bind_ok.
    2:{ unfold os_listdir. simpl. rewrite Hsame by done.
        apply is_dir_true in Hu. rewrite Hu. reflexivity. }
    cbv zeta.
    erewrite bind_ok; [|reflexivity].
    erewrite bind_ok.
    2:{ unfold cv2_imread. simpl. fold (drawn w).
        rewrite (decoded_agree (fs w) f1)
          by (apply Hsame, kirk_path_not_dir_name).
        rewrite Hk. reflexivity. }
    cbv beta iota.
    erewrite bind_ok; [|reflexivity].
    rewrite Hd.
    change (filter (λ x : string, endswith ".png" x = true)
              (sorted (listdir_names "unprocessed_frames" f1)))
      with (frame_files_of f1).
    rewrite Hfiles. rewrite <- Hrun. unfold W, log, set_fs. simpl.
    rewrite <- !app_assoc. reflexivity.
  - rewrite Htr. unfold W. simpl. by rewrite <- app_assoc.
  - exact Hout.
  - intros q Hq Hqn. rewrite (Hframe q Hqn). simpl. by apply Hsame.
  - unfold is_dir. rewrite Hframe; [exact Hdir|].
    intros n _ E. symmetry in E. by apply output_path_not_dir_name in E.
  - done.
Qed.

(** How [process_all_frames] reaches its loop: the output directory
    exists, the listing is taken, the reference face is found. *)
Lemma process_all_frames_enters_loop w kirk kf others :
  (∀ c, fs w !! "processed_frames" ≠ Some (File c)) →
  is_dir "unprocessed_frames" (fs w) = true →
  decoded (fs w) (kirk_path (drawn w)) = Some kirk →
  detect kirk = kf :: others →
  ∃ f1,
    is_dir "processed_frames" f1 = true
    ∧ (∀ q, q ≠ "processed_frames" → f1 !! q = fs w !! q)
    ∧ process_all_frames w
      = for_each (frame_files_of (fs w)) (loop_body kf)
          (mkWorld f1
             (trace w ++ [EvMakedirs "processed_frames";
                          EvListdir "unprocessed_frames";
                          EvRandint 0 2 (drawn w);
                          EvImread (kirk_path (drawn w)); EvDetect kirk])
             (stdout w) (sys_stdout w) (tail (entropy w))).
Proof.
  intros Hp Hu Hk Hd.
  destruct (os_makedirs_ok "processed_frames" w Hp)
    as (f1 & Hmk & Hdir & Hsame & Hf1).
  assert (Hfiles : frame_files_of f1 = frame_files_of (fs w)).
  { destruct Hf1 as [->|[Hnone ->]]; [done|].
    by apply frame_files_of_insert. }
  exists f1. split; [done|]. split; [done|].
  unfold process_all_frames.
  erewrite bind_ok; [|exact Hmk].
  erewrite bind_ok.
  2:{ unfold os_listdir. simpl. rewrite Hsame by done.
      apply is_dir_true in Hu. rewrite Hu. reflexivity. }
  cbv zeta.
  erewrite bind_ok; [|reflexivity].
  erewrite bind_ok.
  2:{ unfold cv2_imread. simpl. fold (drawn w).
      rewrite (decoded_agree (fs w) f1)
          by (apply Hsame, kirk_path_not_dir_name).
      rewrite Hk. reflexivity. }
  cbv beta iota.
  erewrite bind_ok; [|reflexivity].
  rewrite Hd.
  change (filter (λ x : string, endswith ".png" x = true)
            (sorted (listdir_names "unprocessed_frames" f1)))
    with (frame_files_of f1).
  rewrite Hfiles. unfold log, set_fs. simpl.
  rewrite <- !app_assoc. reflexivity.
Qed.

(** The events of the loop when every frame decodes, whether or not
    the outputs can be written. *)
Lemma for_each_frames_trace kf f0 names : ∀ w,
  (∀ n, fs w !! input_path n = f0 !! input_path n) →
  Forall (λ n, is_Some (frame_image f0 n)) names →
  ∃ w', for_each names (loop_body kf) w = (Ok tt, w')
    ∧ trace w' = trace w ++ loop_events kf f0 names.
Proof.
  induction names as [|n names IH]; intros w Hag Hall.
  - exists w. simpl. by rewrite app_nil_r.
  - apply Forall_cons in Hall as [[img Himg] Hall].
    assert (Hread : decoded (fs w) (input_path n) = Some img).
    { rewrite (decoded_agree _ _ _ (Hag n)). exact Himg. }
    pose proof (kirkify_frame_readable (input_path n) (output_path n) kf w img Hread)
      as Hstep.
    set (w1 := set_fs (write_file (output_path n) (Img (transform kf img)) (fs w))
                 (log_all (frame_events kf (input_path n) (output_path n) img) w))
      in Hstep.
    destruct (IH w1) as (w' & Hrun & Htr); [|done|].
    { intros m. simpl. rewrite write_file_lookup_ne; [apply Hag|].
      intros E. by apply (input_output_disjoint m n). }
    exists w'. split.
    + simpl. unfold loop_body at 1. fold (input_path n) (output_path n).
      erewrite bind_ok; [|exact Hstep]. exact Hrun.
    + rewrite Htr. simpl. rewrite Himg. by rewrite <- app_assoc.
Qed.

End Pipeline.

(** ** The order of the frames *)

Section FrameOrder.
Context `{T : Tools}.
Implicit Types (w : World) (n m p q : string) (kf : Face).

(** Up to frame 9999 the zero-padded names ascend with the frame number. *)
Lemma frame_names_sorted_9999 : Sorted String.le (frame_name <$> seq 1 9999).
Proof. apply (bool_decide_unpack _). vm_compute. reflexivity. Qed.

Lemma frame_names_sorted N :
  (N ≤ 9999)%nat → StronglySorted String.le (frame_name <$> seq 1 N).
Proof.
  intros HN.
  pose proof (Sorted_StronglySorted _ _ frame_names_sorted_9999) as Hs.
  replace 9999%nat with (N + (9999 - N))%nat in Hs by lia.
  rewrite seq_app, fmap_app in Hs.
  by apply StronglySorted_app_1_l in Hs.
Qed.

(** When the [.png] entries of the directory are the frames 1 to [N],
    [N] below 10000, the loop runs over them by ascending number. *)
Lemma frame_files_of_numeric (f : FS) N :
  (N ≤ 9999)%nat →
  filter (λ n, endswith ".png" n = true) (listdir_names "unprocessed_frames" f)
    ≡ₚ frame_name <$> seq 1 N →
  frame_files_of f = frame_name <$> seq 1 N.
Proof.
  intros HN Hp. apply (StronglySorted_unique String.le).
  - apply frame_files_of_sorted.
  - by apply frame_names_sorted.
  - by rewrite frame_files_of_Permutation.
Qed.

(** From frame 10000 on the order of the names is no longer that of the
    numbers: in every directory that holds the frames 9999 and 10000,
    whatever else it holds, frame 10000 comes first in the loop. *)
Lemma frame_10000_precedes_9999 (f : FS) :
  frame_name 9999 ∈ frame_files_of f →
  frame_name 10000 ∈ frame_files_of f →
  ∃ l1 l2 l3,
    frame_files_of f
    = l1 ++ [frame_name 10000] ++ l2 ++ [frame_name 9999] ++ l3.
Proof.
  intros H9 H10. pose proof (frame_files_of_sorted f) as Hs.
  destruct (list_elem_of_split _ _ H10) as (l1 & l2 & E).
  rewrite E in H9, Hs |- *.
  apply elem_of_app in H9 as [H9|H9].
  - exfalso.
    assert (Hle : String.le (frame_name 9999) (frame_name 10000)).
    { eapply (StronglySorted_app_1_elem_of String.le); [exact Hs|exact H9|].
      apply elem_of_cons. by left. }
    vm_compute in Hle. exact Hle.
  - apply elem_of_cons in H9 as [H9|H9].
    + exfalso. vm_compute in H9. discriminate H9.
    + destruct (list_elem_of_split _ _ H9) as (l2a & l2b & ->).
      by exists l1, l2a, l2b.
Qed.

(** C1 (as amended): for an input sequence of N frames named by the
    extraction pattern, whatever N is, [process_all_frames] returns
    normally once the reference face is found and every frame decodes; it
    makes exactly N image writes, one per input frame and under the same
    file name in [processed_frames]; the writes come in ascending order
    of the file names as strings, which is the ascending order of the
    frame number whenever N is at most 9999; afterwards each output path
    holds the transformed frame, and no other path but the output
    directory has changed. *)
Theorem process_all_frames_one_output_per_frame w N kirk kf others :
  (∀ c, fs w !! "processed_frames" ≠ Some (File c)) →
  is_dir "unprocessed_frames" (fs w) = true →
  decoded (fs w) (kirk_path (drawn w)) = Some kirk →
  detect kirk = kf :: others →
  filter (λ n, endswith ".png" n = true)
         (listdir_names "unprocessed_frames" (fs w))
    ≡ₚ frame_name <$> seq 1 N →
  Forall (λ i, is_Some (frame_image (fs w) (frame_name i))
               ∧ is_dir (output_path (frame_name i)) (fs w) = false)
         (seq 1 N) →
  ∃ w' added names,
    process_all_frames w = (Ok tt, w')
    ∧ trace w' = trace w ++ added
    ∧ length (imwrite_calls added) = N
    ∧ (imwrite_calls added).*1
      ≡ₚ (λ i, output_path (frame_name i)) <$> seq 1 N
    ∧ names ≡ₚ frame_name <$> seq 1 N
    ∧ StronglySorted String.le names
    ∧ (imwrite_calls added).*1 = output_path <$> names
    ∧ imwrite_calls added = omap (frame_write kf (fs w)) names
    ∧ ((N ≤ 9999)%nat →
       names = frame_name <$> seq 1 N
       ∧ (imwrite_calls added).*1
         = (λ i, output_path (frame_name i)) <$> seq 1 N)
    ∧ (∀ i img, (1 ≤ i ≤ N)%nat →
         frame_image (fs w) (frame_name i) = Some img →
         fs w' !! output_path (frame_name i)
         = Some (File (Img (transform kf img))))
    ∧ (∀ q, q ≠ "processed_frames" →
         (∀ i, (1 ≤ i ≤ N)%nat → q ≠ output_path (frame_name i)) →
         fs w' !! q = fs w !! q).
Proof.
  intros Hp Hu Hk Hd Hperm Hall.
  assert (Hfiles : frame_files_of (fs w) ≡ₚ frame_name <$> seq 1 N).
  { by rewrite frame_files_of_Permutation. }
  assert (Hmem : ∀ n, n ∈ frame_files_of (fs w)
                      ↔ ∃ i, n = frame_name i ∧ (1 ≤ i ≤ N)%nat).
  { intros n. rewrite Hfiles, list_elem_of_fmap.
    split; intros (i & -> & Hi); exists i; (split; [done|]);
      [apply elem_of_seq in Hi|apply elem_of_seq]; lia. }
  assert (Hall' : Forall (λ n, is_Some (frame_image (fs w) n)
                               ∧ is_dir (output_path n) (fs w) = false)
                         (frame_files_of (fs w))).
  { apply Forall_forall. intros n (i & -> & Hi)%Hmem.
    rewrite Forall_forall in Hall. apply Hall, elem_of_seq. lia. }
  destruct (process_all_frames_ok w kirk kf others Hp Hu Hk Hd Hall')
    as (w' & Hrun & Htr & Hout & Hframe & _ & _ & _).
  eexists w', _, (frame_files_of (fs w)).
  split; [exact Hrun|]. split; [exact Htr|].
  assert (Hw : imwrite_calls
                 ([EvMakedirs "processed_frames"; EvListdir "unprocessed_frames";
                   EvRandint 0 2 (drawn w); EvImread (kirk_path (drawn w));
                   EvDetect kirk]
                  ++ loop_events kf (fs w) (frame_files_of (fs w)))
               = omap (frame_write kf (fs w)) (frame_files_of (fs w))).
  { rewrite imwrite_calls_app. simpl. apply imwrite_calls_loop_events. }
  assert (Hpaths : (omap (frame_write kf (fs w)) (frame_files_of (fs w))).*1
                   = output_path <$> frame_files_of (fs w)).
  { apply omap_frame_write_readable.
    eapply Forall_impl; [exact Hall'|]. by intros n [? _]. }
  rewrite Hw, Hpaths. split_and!.
  - rewrite <- (length_fmap fst), Hpaths, length_fmap, Hfiles, length_fmap.
    apply length_seq.
  - by rewrite Hfiles, <- list_fmap_compose.
  - exact Hfiles.
  - apply frame_files_of_sorted.
  - done.
  - done.
  - intros HN.
    rewrite (frame_files_of_numeric (fs w) N HN Hperm).
    split; [done|]. by rewrite <- list_fmap_compose.
  - intros i img Hi Himg. apply Hout; [|done].
    apply Hmem. by exists i.
  - intros q Hq Hqi. apply Hframe; [done|].
    intros n (i & -> & Hi)%Hmem. by apply Hqi.
Qed.

End FrameOrder.

(** ** Face Transform *)

Section FaceTransform.
Context `{T : Tools}.
Implicit Types (w : World) (p q : string) (kf : Face) (img : Image).

(** C2: on a frame that [imread] decodes to [img] and where detection
    returns k faces, [kirkify_frame] calls
    the swap capability exactly k times, once for each detected face and
    in detection order, every call with the one reference face it was
    given: each call works on the result of the call before, so every
    face is replaced, and the last result is what is written. This holds
    for every k, in particular for k at least 1. *)
Theorem kirkify_frame_swaps_each_face inp out kf w img k :
  decoded (fs w) inp = Some img →
  length (detect img) = k →
  ∃ w' added,
    kirkify_frame inp out kf w = (Ok tt, w')
    ∧ trace w' = trace w ++ added
    ∧ added = [EvImread inp; EvDetect img]
                ++ swap_events img (detect img) kf
                ++ [EvImwrite out (swap_all img (detect img) kf)]
    ∧ length (swap_calls added) = k
    ∧ (swap_calls added).*1.*2 = detect img
    ∧ Forall (λ c, c.2 = kf) (swap_calls added).
Proof.
  intros Hin Hk.
  rewrite (kirkify_frame_readable inp out kf w img Hin).
  eexists _, _. split; [reflexivity|]. split; [reflexivity|].
  split; [reflexivity|].
  unfold frame_events. rewrite !swap_calls_app. simpl. rewrite app_nil_r.
  destruct (swap_calls_swap_events img (detect img) kf) as [Hfaces Hrefs].
  repeat split; [|done..].
  rewrite <- Hk. rewrite <- Hfaces at 2. by rewrite !length_fmap.
Qed.

(** C3 (as amended): on a frame where detection returns no face,
    [kirkify_frame] makes no swap call and writes the image as [imread]
    decoded it, unmodified: the output file holds the decoded pixels
    (three channels of eight bits) of the input file, so that reading it
    back gives what reading the input gave (an image in that form being
    read as it is). It is the input file unchanged exactly when the
    input is stored in that form, and no other path of the store
    changes. *)
Theorem kirkify_frame_no_face_copies inp out kf w stored :
  fs w !! inp = Some (File (Img stored)) →
  detect (imread_color stored) = [] →
  ∃ w' added,
    kirkify_frame inp out kf w = (Ok tt, w')
    ∧ trace w' = trace w ++ added
    ∧ added = [EvImread inp; EvDetect (imread_color stored);
               EvImwrite out (imread_color stored)]
    ∧ swap_calls added = []
    ∧ fs w' = write_file out (Img (imread_color stored)) (fs w)
    ∧ (parent_ok out (fs w) = true → is_dir out (fs w) = false →
       fs w' !! out = Some (File (Img (imread_color stored)))
       ∧ (imread_color (imread_color stored) = imread_color stored →
          decoded (fs w') out = decoded (fs w) inp)
       ∧ (fs w' !! out = fs w !! inp ↔ imread_color stored = stored))
    ∧ (∀ q, q ≠ out → fs w' !! q = fs w !! q).
Proof.
  intros Hin Hd.
  assert (Hdec : decoded (fs w) inp = Some (imread_color stored)).
  { unfold decoded. by rewrite Hin. }
  rewrite (kirkify_frame_readable inp out kf w _ Hdec).
  unfold frame_events, transform. rewrite Hd. simpl.
  eexists _, _. split; [reflexivity|]. simpl.
  split; [reflexivity|]. split; [reflexivity|]. split; [reflexivity|].
  split; [reflexivity|]. split.
  - intros Hp Ho.
    pose proof (write_file_lookup_eq out (Img (imread_color stored)) (fs w) Hp Ho)
      as Hout.
    split; [exact Hout|]. split.
    + intros Hidem. rewrite Hdec. unfold decoded. by rewrite Hout, Hidem.
    + rewrite Hout, Hin. split; [by intros [= ->]|by intros ->].
  - intros q Hq. by apply write_file_lookup_ne.
Qed.

End FaceTransform.

(** ** What the steps of a run leave behind, whatever their outcome *)

Section Steps.
Context `{T : Tools}.
Implicit Types (w : World) (n m p q : string) (kf : Face) (e : event).

Lemma extends_and (P Q : event → Prop) w w' :
  extends P w w' → extends Q w w' → extends (λ e, P e ∧ Q e) w w'.
Proof.
  intros (a & Ea & Fa) (b & Eb & Fb). exists a. split; [done|].
  rewrite Ea in Eb. apply app_inv_head in Eb as <-.
  rewrite Forall_forall in Fa, Fb |- *. auto.
Qed.

Lemma kirkify_frame_uses_reference inp out kf :
  respects (extends (uses_reference kf)) (kirkify_frame inp out kf).
Proof. unfold kirkify_frame. respects_tac. Qed.

Lemma kirkify_frame_same_entropy inp out kf :
  respects same_entropy (kirkify_frame inp out kf).
Proof. unfold kirkify_frame. respects_tac. Qed.

Lemma kirkify_frame_grows inp out kf :
  respects grows (kirkify_frame inp out kf).
Proof. unfold kirkify_frame. respects_tac. Qed.

Lemma kirkify_frame_pipeline_event inp out kf :
  respects (extends pipeline_event) (kirkify_frame inp out kf).
Proof. unfold kirkify_frame. respects_tac. Qed.

Lemma kirkify_loop_uses_reference kf names :
  respects (extends (uses_reference kf)) (for_each names (loop_body kf)).
Proof. unfold loop_body. respects_tac. apply kirkify_frame_uses_reference. Qed.

Lemma kirkify_loop_same_entropy kf names :
  respects same_entropy (for_each names (loop_body kf)).
Proof. unfold loop_body. respects_tac. apply kirkify_frame_same_entropy. Qed.

Lemma process_all_frames_grows : respects grows process_all_frames.
Proof.
  unfold process_all_frames. respects_tac. apply kirkify_frame_grows.
Qed.

Lemma process_all_frames_pipeline_event :
  respects (extends pipeline_event) process_all_frames.
Proof.
  unfold process_all_frames. respects_tac. apply kirkify_frame_pipeline_event.
Qed.

Lemma drawn_range w : 0 ≤ drawn w ≤ 2.
Proof.
  unfold drawn. pose proof (Z.mod_pos_bound (hd 0 (entropy w)) (2 - 0 + 1)).
  lia.
Qed.

(** The four ways [process_all_frames] can go: it fails before the draw;
    the drawn pool image cannot be read; no face is found on it; or the
    reference face is found and the loop over the frames is entered. *)
Lemma process_all_frames_cases w :
  ∃ added,
    trace (process_all_frames w).2 = trace w ++ added
    ∧ ((Forall no_selection added
        ∧ entropy (process_all_frames w).2 = entropy w
        ∧ aborted (process_all_frames w).1)
       ∨ (entropy (process_all_frames w).2 = tail (entropy w)
          ∧ ((added = [EvMakedirs "processed_frames";
                       EvListdir "unprocessed_frames";
                       EvRandint 0 2 (drawn w); EvImread (kirk_path (drawn w))]
              ∧ (process_all_frames w).1 = Raise AttributeError)
             ∨ (∃ kirk,
                  added = [EvMakedirs "processed_frames";
                           EvListdir "unprocessed_frames";
                           EvRandint 0 2 (drawn w);
                           EvImread (kirk_path (drawn w)); EvDetect kirk]
                  ∧ detect kirk = []
                  ∧ (process_all_frames w).1 = Raise IndexError)
             ∨ (∃ kirk kf others post,
                  added = [EvMakedirs "processed_frames";
                           EvListdir "unprocessed_frames"]
                          ++ [EvRandint 0 2 (drawn w);
                              EvImread (kirk_path (drawn w)); EvDetect kirk]
                          ++ post
                  ∧ detect kirk = kf :: others
                  ∧ Forall (uses_reference kf) post)))).
Proof.
  unfold process_all_frames, bind.
  destruct (os_makedirs "processed_frames" w) as [[[]|x|c] w1] eqn:E1.
  2,3: unfold os_makedirs in E1; simpl in E1;
       destruct (fs w !! "processed_frames") as [[|?]|]; simplify_eq;
       exists [EvMakedirs "processed_frames"]; simpl;
       (split; [done|]); left; repeat split; repeat constructor.
  assert (H1 : trace w1 = trace w ++ [EvMakedirs "processed_frames"]
               ∧ entropy w1 = entropy w).
  { unfold os_makedirs in E1. simpl in E1.
    destruct (fs w !! "processed_frames") as [[|?]|]; by simplify_eq. }
  destruct H1 as [Ht1 He1].
  unfold os_listdir. simpl.
  destruct (fs w1 !! "unprocessed_frames") as [[|?]|]; simpl.
  2,3: exists [EvMakedirs "processed_frames"; EvListdir "unprocessed_frames"];
       rewrite Ht1, <- app_assoc; (split; [done|]); left;
       repeat split; try done; repeat constructor.
  assert (Hv : 0 + hd 0 (entropy w1) `mod` (2 - 0 + 1) = drawn w).
  { unfold drawn. by rewrite He1. }
  unfold randint, cv2_imread, faceanalysis_get, raise. simpl. rewrite !Hv.
  destruct (decoded (fs w1) (kirk_path (drawn w))) as [kirk|] eqn:Ek; simpl.
  2: eexists; rewrite Ht1, <- !app_assoc; (split; [reflexivity|]);
     right; rewrite He1; (split; [done|]); by left.
  destruct (detect kirk) as [|kf others] eqn:Ed; simpl.
  { eexists. rewrite Ht1, <- !app_assoc. split; [reflexivity|].
    right. rewrite He1. split; [done|]. right. left. by exists kirk. }
  match goal with
  | |- context [for_each ?l ?b ?W] =>
      set (W0 := W); set (body := b); set (files := l)
  end.
  destruct (kirkify_loop_uses_reference kf files W0
            : extends (uses_reference kf) W0 (for_each files body W0).2)
    as (post & Hpost & Fpost).
  pose proof (kirkify_loop_same_entropy kf files W0
              : same_entropy W0 (for_each files body W0).2) as Hent.
  unfold same_entropy in Hent.
  assert (HtW : trace W0
                = trace w ++ [EvMakedirs "processed_frames";
                              EvListdir "unprocessed_frames";
                              EvRandint 0 2 (drawn w);
                              EvImread (kirk_path (drawn w)); EvDetect kirk]).
  { unfold W0. simpl. rewrite Ht1, <- !app_assoc. done. }
  assert (HeW : entropy W0 = tail (entropy w)).
  { unfold W0. simpl. by rewrite He1. }
  exists ([EvMakedirs "processed_frames"; EvListdir "unprocessed_frames";
           EvRandint 0 2 (drawn w); EvImread (kirk_path (drawn w));
           EvDetect kirk] ++ post).
  rewrite Hpost, HtW, <- app_assoc. split; [done|].
  right. rewrite Hent, HeW. split; [done|]. right. right.
  by exists kirk, kf, others, post.
Qed.

End Steps.

(** ** The reference face *)

Section Reference.
Context `{T : Tools}.
Implicit Types (w : World) (n m p q : string) (kf : Face) (e : event).

(** C9: when detection on the drawn reference image returns no face,
    [process_all_frames] raises [IndexError], which nobody catches; by
    then the directory [processed_frames] exists, and no frame has been
    read, swapped or written. *)
Theorem process_all_frames_faceless_reference w kirk :
  (∀ c, fs w !! "processed_frames" ≠ Some (File c)) →
  is_dir "unprocessed_frames" (fs w) = true →
  decoded (fs w) (kirk_path (drawn w)) = Some kirk →
  detect kirk = [] →
  ∃ w' added,
    process_all_frames w = (Raise IndexError, w')
    ∧ exit_status (process_all_frames w).1 = 1
    ∧ trace w' = trace w ++ added
    ∧ added = [EvMakedirs "processed_frames"; EvListdir "unprocessed_frames";
               EvRandint 0 2 (drawn w); EvImread (kirk_path (drawn w));
               EvDetect kirk]
    ∧ swap_calls added = []
    ∧ imwrite_calls added = []
    ∧ is_dir "processed_frames" (fs w') = true
    ∧ (∀ q, q ≠ "processed_frames" → fs w' !! q = fs w !! q).
Proof.
  intros Hp Hu Hk Hd.
  destruct (os_makedirs_ok "processed_frames" w Hp) as (f1 & Hmk & Hdir & Hsame & _).
  assert (Hrun : process_all_frames w
                 = (Raise IndexError,
                    mkWorld f1
                      (trace w ++ [EvMakedirs "processed_frames";
                                   EvListdir "unprocessed_frames";
                                   EvRandint 0 2 (drawn w);
                                   EvImread (kirk_path (drawn w));
                                   EvDetect kirk])
                      (stdout w) (sys_stdout w) (tail (entropy w)))).
  { unfold process_all_frames.
    erewrite bind_ok; [|exact Hmk].
    erewrite bind_ok.
    2:{ unfold os_listdir. simpl. rewrite Hsame by done.
        apply is_dir_true in Hu. rewrite Hu. reflexivity. }
    cbv zeta.
    erewrite bind_ok; [|reflexivity].
    erewrite bind_ok.
    2:{ unfold cv2_imread. simpl. fold (drawn w).
        rewrite (decoded_agree (fs w) f1)
          by (apply Hsame, kirk_path_not_dir_name).
        rewrite Hk. reflexivity. }
    cbv beta iota.
    erewrite bind_ok; [|reflexivity].
    rewrite Hd. unfold raise, log. simpl. by rewrite <- !app_assoc. }
  eexists _, _. split; [exact Hrun|]. rewrite Hrun. simpl.
  repeat split; done.
Qed.

(** Conversely, a normal return of [process_all_frames] means that a
    face was detected on the drawn reference image. *)
Lemma process_all_frames_ok_has_reference w w' :
  process_all_frames w = (Ok tt, w') →
  ∃ kirk kf others, detect kirk = kf :: others
    ∧ EvDetect kirk ∈ trace w'.
Proof.
  intros Hrun. destruct (process_all_frames_cases w) as (added & Htr & Hc).
  rewrite Hrun in Htr, Hc. simpl in *.
  destruct Hc as [(_ & _ & [])|(_ & [[_ ?]|[(? & _ & _ & ?)|Hc]])]; [done..|].
  destruct Hc as (kirk & kf & others & post & -> & Hd & _).
  exists kirk, kf, others. split; [done|]. rewrite Htr.
  set_solver.
Qed.

End Reference.

(** ** Computations that never end the process *)

Section NeverExits.
Context `{T : Tools}.
Implicit Types (w : World) (p : string).

Lemma never_exits_ret {A} (a : A) : never_exits (ret a).
Proof. by intros w c. Qed.

Lemma never_exits_raise {A} x : never_exits (@raise _ A x).
Proof. by intros w c. Qed.

Lemma never_exits_bind {A B} (m : M A) (k : A → M B) :
  never_exits m → (∀ a, never_exits (k a)) → never_exits (bind m k).
Proof.
  intros Hm Hk w c. unfold bind. specialize (Hm w).
  destruct (m w) as [[a|x|c'] w1]; simpl in *; [apply Hk|done|].
  by destruct (Hm c').
Qed.

Lemma never_exits_for_each {A} (xs : list A) (body : A → M unit) :
  (∀ x, never_exits (body x)) → never_exits (for_each xs body).
Proof.
  intros Hb. induction xs as [|x xs IH]; simpl.
  - apply never_exits_ret.
  - apply never_exits_bind; [apply Hb | intros _; exact IH].
Qed.

Lemma never_exits_for_fold {A B} (xs : list A) (acc : B) (body : B → A → M B) :
  (∀ b x, never_exits (body b x)) → never_exits (for_fold xs acc body).
Proof.
  intros Hb. revert acc. induction xs as [|x xs IH]; intros acc; simpl.
  - apply never_exits_ret.
  - apply never_exits_bind; [apply Hb | intros b; apply IH].
Qed.

Ltac prim_never_exits :=
  intros; intros ?w ?c;
  unfold print, path_exists, os_makedirs, os_listdir, os_remove,
    shutil_rmtree, subprocess_run, cv2_imread, cv2_imwrite,
    faceanalysis_get, swapper_get, randint,
    initialize_faceanalysis_and_swapper, get_video_fps;
  simpl; repeat case_match; simpl; done.

Lemma never_exits_print s : never_exits (print s).
Proof. prim_never_exits. Qed.

Lemma never_exits_path_exists p : never_exits (path_exists p).
Proof. prim_never_exits. Qed.

Lemma never_exits_os_makedirs p : never_exits (os_makedirs p).
Proof. prim_never_exits. Qed.

Lemma never_exits_os_listdir p : never_exits (os_listdir p).
Proof. prim_never_exits. Qed.

Lemma never_exits_os_remove p : never_exits (os_remove p).
Proof. prim_never_exits. Qed.

Lemma never_exits_shutil_rmtree p : never_exits (shutil_rmtree p).
Proof. prim_never_exits. Qed.

Lemma never_exits_subprocess_run cmd : never_exits (subprocess_run cmd).
Proof. prim_never_exits. Qed.

Lemma never_exits_cv2_imread p : never_exits (cv2_imread p).
Proof. prim_never_exits. Qed.

Lemma never_exits_cv2_imwrite p img : never_exits (cv2_imwrite p img).
Proof. prim_never_exits. Qed.

Lemma never_exits_faceanalysis_get img : never_exits (faceanalysis_get img).
Proof. prim_never_exits. Qed.

Lemma never_exits_swapper_get res face kf : never_exits (swapper_get res face kf).
Proof. prim_never_exits. Qed.

Lemma never_exits_randint lo hi : never_exits (randint lo hi).
Proof. prim_never_exits. Qed.

Lemma never_exits_initialize : never_exits initialize_faceanalysis_and_swapper.
Proof. prim_never_exits. Qed.

Lemma never_exits_get_video_fps p : never_exits (get_video_fps p).
Proof. prim_never_exits. Qed.

End NeverExits.

Create HintDb never_exits.

#[export] Hint Resolve
  never_exits_print never_exits_path_exists never_exits_os_makedirs
  never_exits_os_listdir never_exits_os_remove never_exits_shutil_rmtree
  never_exits_subprocess_run never_exits_cv2_imread never_exits_cv2_imwrite
  never_exits_faceanalysis_get never_exits_swapper_get never_exits_randint
  never_exits_initialize never_exits_get_video_fps : never_exits.

Ltac never_exits_step :=
  lazymatch goal with
  | |- never_exits (bind _ _) => apply never_exits_bind; [|intros ?]
  | |- never_exits (ret _) => apply never_exits_ret
  | |- never_exits (raise _) => apply never_exits_raise
  | |- never_exits (for_each _ _) => apply never_exits_for_each; intros ?
  | |- never_exits (for_fold _ _ _) => apply never_exits_for_fold; intros ? ?
  | |- never_exits (match ?x with _ => _ end) => destruct x
  | |- never_exits _ => solve [eauto with never_exits]
  end.

Ltac never_exits_tac := repeat (cbv zeta; never_exits_step).

Section StepsOfARun.
Context `{T : Tools}.
Implicit Types (w : World) (p : string).

Lemma kirkify_frame_never_exits inp out kf :
  never_exits (kirkify_frame inp out kf).
Proof. unfold kirkify_frame. never_exits_tac. Qed.

Lemma process_all_frames_never_exits : never_exits process_all_frames.
Proof.
  unfold process_all_frames. never_exits_tac. apply kirkify_frame_never_exits.
Qed.

Lemma pipeline_event_silent e : pipeline_event e → silent e.
Proof. by destruct e. Qed.

Lemma pipeline_event_not_cleanup e : pipeline_event e → not_cleanup e.
Proof. by destruct e. Qed.

Lemma silent_not_cleanup e : silent e → not_cleanup e.
Proof. by destruct e. Qed.

Lemma process_all_frames_calm : respects calm process_all_frames.
Proof.
  apply respects_and.
  - intros w. eapply extends_weaken; [apply pipeline_event_silent|].
    apply process_all_frames_pipeline_event.
  - apply process_all_frames_grows.
Qed.

Lemma initialize_calm : respects calm initialize_faceanalysis_and_swapper.
Proof. apply respects_and; respects_tac. Qed.

Lemma print_calm s : respects calm (print s).
Proof. apply respects_and; respects_tac. Qed.

Lemma get_video_fps_calm p : respects calm (get_video_fps p).
Proof. apply respects_and; respects_tac. Qed.

End StepsOfARun.

(** ** The steps of a conversion, up to cleanup *)

Section Conversion.
Context `{T : Tools}.
Implicit Types (w : World) (p d : string) (e : event).

Lemma run_calls_app (t1 t2 : list event) :
  run_calls (t1 ++ t2) = run_calls t1 ++ run_calls t2.
Proof. apply omap_app. Qed.

Lemma run_calls_silent (t : list event) : Forall silent t → run_calls t = [].
Proof.
  induction 1 as [|e t He _ IH]; [done|].
  destruct e; try done; exact IH.
Qed.

Lemma grows_is_dirs w w1 dirs :
  grows w w1 →
  Forall (λ d, is_dir d (fs w) = true) dirs →
  Forall (λ d, is_dir d (fs w1) = true) dirs.
Proof.
  intros Hg Hd. eapply Forall_impl; [exact Hd|].
  intros d Hd'. by apply (Hg d).
Qed.

Lemma progress_refl w0 : progress w0 [] [] w0.
Proof.
  exists []. rewrite app_nil_r. split_and!; done.
Qed.

Lemma progress_calm w0 runs dirs w w1 :
  progress w0 runs dirs w → calm w w1 → progress w0 runs dirs w1.
Proof.
  intros (added & Ht & Fc & Hr & Hg & Hd) [(a & Ha & Fa) Hg1].
  exists (added ++ a). rewrite Ha, Ht, <- app_assoc. split_and!.
  - done.
  - apply Forall_app. split; [done|].
    eapply Forall_impl; [exact Fa|]. apply silent_not_cleanup.
  - rewrite run_calls_app, (run_calls_silent a Fa), app_nil_r. exact Hr.
  - by etrans.
  - by eapply grows_is_dirs.
Qed.

Lemma progress_weaken_dirs w0 runs dirs dirs' w :
  progress w0 runs dirs w → dirs' ⊆ dirs → progress w0 runs dirs' w.
Proof.
  intros (added & Ht & Fc & Hr & Hg & Hd) Hsub.
  exists added. split_and!; try done.
  rewrite Forall_forall in Hd |- *. intros d Hin. apply Hd, Hsub, Hin.
Qed.

(** A step that runs no tool and removes nothing keeps the progress. *)
Lemma hoare_calm {A} w0 runs dirs (m : M A) :
  respects calm m → never_exits m →
  hoare (progress w0 runs dirs) m
        (λ r w, progress w0 runs dirs w ∧ ∀ c, r ≠ SysExit c).
Proof.
  intros Hm Hn w Hp. split.
  - eapply progress_calm; [exact Hp | apply Hm].
  - apply Hn.
Qed.

Lemma os_makedirs_calm d : respects calm (os_makedirs d).
Proof. apply respects_and; respects_tac. Qed.

Lemma os_makedirs_progress w0 runs dirs d :
  hoare (progress w0 runs dirs) (os_makedirs d)
        (λ r w, match r with
                | Ok _ => progress w0 runs (d :: dirs) w
                | Raise x => x = FileExistsError d ∧ progress w0 runs dirs w
                | SysExit _ => False
                end).
Proof.
  intros w Hp.
  pose proof (progress_calm _ _ _ _ _ Hp (os_makedirs_calm d w)) as Hp1.
  revert Hp1. unfold os_makedirs. simpl.
  destruct (fs w !! d) as [[|c]|] eqn:E; simpl; intros Hp1.
  - destruct Hp1 as (added & Ht & Fc & Hr & Hg & Hd).
    exists added. split_and!; try done.
    constructor; [|done]. simpl. by apply is_dir_true.
  - done.
  - destruct Hp1 as (added & Ht & Fc & Hr & Hg & Hd).
    exists added. split_and!; try done.
    constructor; [|done]. simpl. apply is_dir_true, lookup_insert_eq.
Qed.

Lemma subprocess_run_progress w0 runs dirs cmd :
  hoare (progress w0 runs dirs) (subprocess_run cmd)
        (λ r w, match r with
                | Ok _ => progress w0 (runs ++ [(cmd, 0)]) dirs w
                | Raise x =>
                    ∃ code, code ≠ 0 ∧ x = CalledProcessError code cmd
                      ∧ progress w0 (runs ++ [(cmd, code)]) dirs w
                | SysExit _ => False
                end).
Proof.
  intros w (added & Ht & Fc & Hr & Hg & Hd). unfold subprocess_run.
  destruct (execute cmd (fs w)) as [code written] eqn:E.
  assert (Hp : progress w0 (runs ++ [(cmd, code)]) dirs
                 (set_fs (write_files written (fs w)) (log (EvRun cmd code) w))).
  { exists (added ++ [EvRun cmd code]). simpl. rewrite Ht, <- app_assoc.
    assert (Hg1 : grows w (set_fs (write_files written (fs w))
                                  (log (EvRun cmd code) w))).
    { by eapply grows_write_files. }
    split_and!.
    - done.
    - apply Forall_app. split; [done|]. by repeat constructor.
    - rewrite run_calls_app, Hr. done.
    - by etrans.
    - exact (grows_is_dirs _ _ _ Hg1 Hd). }
  case_bool_decide as Hc; simpl.
  - by subst code.
  - by exists code.
Qed.

Lemma print_returns s : always_returns (print s).
Proof. intros w. unfold print. destruct (sys_stdout w); by exists tt. Qed.

Lemma initialize_returns : always_returns initialize_faceanalysis_and_swapper.
Proof.
  intros w. unfold initialize_faceanalysis_and_swapper. simpl.
  destruct (sys_stdout w); by exists tt.
Qed.

Lemma get_video_fps_returns p : always_returns (get_video_fps p).
Proof. intros w. by eexists. Qed.

(** Sequencing after a step that always returns and is calm. *)
Lemma hoare_bind_returns {A B} w0 runs dirs (m : M A) (k : A → M B)
    (Q : outcome B → World → Prop) :
  respects calm m → always_returns m →
  (∀ a, hoare (progress w0 runs dirs) (k a) Q) →
  hoare (progress w0 runs dirs) (bind m k) Q.
Proof.
  intros Hm Hr Hk w Hp. unfold bind.
  pose proof (Hm w) as Hc. destruct (Hr w) as [a Ha].
  destruct (m w) as [r w1]. simpl in *. subst r.
  apply Hk. by eapply progress_calm.
Qed.

(** Sequencing after a calm step that may raise. *)
Lemma hoare_bind_calm {A B} w0 runs dirs (m : M A) (k : A → M B)
    (Q : outcome B → World → Prop) :
  respects calm m → never_exits m →
  (∀ x w, progress w0 runs dirs w → Q (Raise x) w) →
  (∀ a, hoare (progress w0 runs dirs) (k a) Q) →
  hoare (progress w0 runs dirs) (bind m k) Q.
Proof.
  intros Hm Hn Hx Hk w Hp. unfold bind.
  pose proof (Hm w) as Hc. pose proof (Hn w) as Hne.
  destruct (m w) as [[a|x|c] w1]; simpl in *.
  - apply Hk. by eapply progress_calm.
  - apply Hx. by eapply progress_calm.
  - by destruct (Hne c).
Qed.

Lemma extract_frames_progress w0 video_path :
  hoare (progress w0 [] []) (extract_frames video_path)
    (λ r w,
       match r with
       | Ok _ =>
           progress w0 [(extract_frames_cmd video_path, 0)]
                    ["unprocessed_frames"] w
       | Raise x =>
           (x = FileExistsError "unprocessed_frames" ∧ progress w0 [] [] w)
           ∨ (∃ code, code ≠ 0
                ∧ x = CalledProcessError code (extract_frames_cmd video_path)
                ∧ progress w0 [(extract_frames_cmd video_path, code)]
                           ["unprocessed_frames"] w)
       | SysExit _ => False
       end).
Proof.
  unfold extract_frames.
  eapply hoare_bind; [apply os_makedirs_progress| | |].
  - intros x w Hx. by left.
  - done.
  - intros _ w Hp.
    pose proof (subprocess_run_progress w0 [] ["unprocessed_frames"]
                  (extract_frames_cmd video_path) w Hp) as Hs.
    destruct (subprocess_run (extract_frames_cmd video_path) w) as [[[]|x|c] w1];
      simpl in *; [done| |done].
    by right.
Qed.

Lemma extract_audio_progress w0 video_path :
  hoare (progress w0 [(extract_frames_cmd video_path, 0)] ["unprocessed_frames"])
    (extract_audio video_path)
    (λ r w,
       match r with
       | Ok audio_path =>
           audio_path = "audio.aac"
           ∧ progress w0 [(extract_frames_cmd video_path, 0);
                          (extract_audio_cmd video_path, 0)]
                      ["unprocessed_frames"] w
       | Raise x =>
           ∃ code, code ≠ 0
             ∧ x = CalledProcessError code (extract_audio_cmd video_path)
             ∧ progress w0 [(extract_frames_cmd video_path, 0);
                            (extract_audio_cmd video_path, code)]
                        ["unprocessed_frames"] w
       | SysExit _ => False
       end).
Proof.
  unfold extract_audio. intros w Hp.
  pose proof (subprocess_run_progress w0 _ _ (extract_audio_cmd video_path) w Hp)
    as Hs.
  unfold bind.
  destruct (subprocess_run (extract_audio_cmd video_path) w) as [[[]|x|c] w1];
    simpl in *; done.
Qed.

Lemma reconstruct_video_progress w0 runs fps audio_path output :
  hoare (progress w0 runs ["unprocessed_frames"])
    (reconstruct_video fps audio_path output)
    (λ r w,
       match r with
       | Ok _ =>
           progress w0 (runs ++ [(reconstruct_video_cmd fps audio_path output, 0)])
                    ["processed_frames"; "unprocessed_frames"] w
       | Raise x =>
           (x = FileExistsError "processed_frames"
            ∧ progress w0 runs ["unprocessed_frames"] w)
           ∨ (∃ code, code ≠ 0
                ∧ x = CalledProcessError code
                        (reconstruct_video_cmd fps audio_path output)
                ∧ progress w0
                    (runs ++ [(reconstruct_video_cmd fps audio_path output, code)])
                    ["processed_frames"; "unprocessed_frames"] w)
       | SysExit _ => False
       end).
Proof.
  unfold reconstruct_video.
  eapply hoare_bind; [apply os_makedirs_progress| | |].
  - intros x w Hx. by left.
  - done.
  - intros _ w Hp.
    pose proof (subprocess_run_progress w0 runs _
                  (reconstruct_video_cmd fps audio_path output) w Hp) as Hs.
    destruct (subprocess_run (reconstruct_video_cmd fps audio_path output) w)
      as [[[]|x|c] w1]; simpl in *; [done| |done].
    by right.
Qed.

(** The steps before cleanup: on a normal return the three tool calls
    were made once each, with status 0, and both frame directories
    exist; on an exception the run stopped at one of the abort points;
    in either case nothing was removed. *)
Lemma conversion_steps_spec w0 TARGET_PATH OUTPUT_PATH :
  hoare (progress w0 [] []) (conversion_steps TARGET_PATH OUTPUT_PATH)
        (conversion_post w0 TARGET_PATH OUTPUT_PATH).
Proof.
  unfold conversion_steps.
  apply hoare_bind_returns; [apply initialize_calm|apply initialize_returns|].
  intros _.
  apply hoare_bind_returns; [apply print_calm|apply print_returns|].
  intros _.
  eapply hoare_bind; [apply extract_frames_progress| | |].
  { intros x w [[-> Hp]|(code & Hc & -> & Hp)]; simpl.
    - exists [], []. split_and!; [done| |by left]. by left.
    - eexists _, _. split_and!; [exact Hp| |right; set_solver].
      right. left. by exists code. }
  { done. }
  intros []. cbv beta iota.
  apply hoare_bind_returns; [apply print_calm|apply print_returns|].
  intros _.
  eapply hoare_bind; [apply extract_audio_progress| | |].
  { intros x w (code & Hc & -> & Hp). simpl.
    eexists _, _. split_and!; [exact Hp| |right; set_solver].
    right. right. left. by exists code. }
  { done. }
  intros audio_path. cbv beta iota. apply hoare_pure. intros ->.
  apply hoare_bind_returns; [apply print_calm|apply print_returns|].
  intros _.
  apply hoare_bind_calm;
    [apply process_all_frames_calm|apply process_all_frames_never_exits| |].
  { intros x w Hp. simpl.
    eexists _, _. split_and!; [exact Hp| |right; set_solver].
    do 3 right. by left. }
  intros _.
  apply hoare_bind_returns; [apply print_calm|apply print_returns|].
  intros _.
  apply hoare_bind_returns;
    [apply get_video_fps_calm|apply get_video_fps_returns|].
  intros fps.
  eapply hoare_bind; [apply reconstruct_video_progress| | |].
  { intros x w [[-> Hp]|(code & Hc & -> & Hp)]; simpl.
    - eexists _, _. split_and!; [exact Hp| |right; set_solver].
      do 3 right. by left.
    - eexists _, _. split_and!; [exact Hp| |right; set_solver].
      do 4 right. by exists fps, code. }
  { done. }
  intros []. cbv beta iota. apply hoare_ret. intros w Hp. simpl.
  split; [done|]. by exists fps.
Qed.

End Conversion.

(** ** The modes of [main] *)

Section Modes.
Context `{T : Tools}.
Implicit Types (w : World) (p : string) (argv : list string).

Lemma main_init prog rest w :
  main (prog :: "init" :: rest) w
  = bind (suppress_output initialize_faceanalysis_and_swapper)
      (λ _, bind (print "initialized!!") (λ _, sys_exit 0)) w.
Proof.
  unfold main.
  rewrite (bool_decide_eq_true_2 (1 < _)%nat) by (simpl; lia).
  by rewrite bool_decide_eq_true_2.
Qed.

Lemma main_usage argv w :
  argv !! 1%nat ≠ Some "init" → length argv ≠ 3%nat →
  main argv w = bind (print usage) (λ _, sys_exit 1) w.
Proof.
  intros Hi Hl. unfold main.
  rewrite (bool_decide_eq_false_2 (argv !! 1%nat = Some "init")) by done.
  rewrite andb_false_r.
  by rewrite (bool_decide_eq_true_2 (length argv ≠ 3%nat)).
Qed.

Lemma main_with_paths prog TARGET_PATH OUTPUT_PATH w :
  TARGET_PATH ≠ "init" →
  main [prog; TARGET_PATH; OUTPUT_PATH] w
  = if bool_decide (is_Some (fs w !! TARGET_PATH))
    then bind (conversion_steps TARGET_PATH OUTPUT_PATH) (finish OUTPUT_PATH) w
    else bind (print "ERROR: target path not real") (λ _, sys_exit 1) w.
Proof.
  intros Hi. unfold main.
  rewrite (bool_decide_eq_false_2 (_ !! 1%nat = Some "init"))
    by (simpl; congruence).
  rewrite andb_false_r.
  rewrite (bool_decide_eq_false_2 (_ ≠ 3%nat)) by (simpl; lia).
  cbv zeta. unfold bind at 1, path_exists. simpl.
  by destruct (bool_decide (is_Some (fs w !! TARGET_PATH))).
Qed.

Lemma argv_of_length_3 argv :
  length argv = 3%nat →
  argv = [argv !!! 0%nat; argv !!! 1%nat; argv !!! 2%nat].
Proof.
  destruct argv as [|a [|b [|c [|d l]]]]; simpl; intros; (done || lia).
Qed.

(** C8: in initialization mode the program loads the detection and swap
    capability, writes nothing to the store, prints the fixed
    confirmation, and ends with status 0. *)
Theorem init_mode_prints_and_exits_0 prog w :
  sys_stdout w = Console →
  run [prog; "init"] w
  = (0, mkWorld (fs w) (trace w ++ [EvLoad])
                (stdout w ++ ["initialized!!"]) Console (entropy w)).
Proof.
  intros Hc. unfold run. rewrite main_init.
  unfold bind, suppress_output, initialize_faceanalysis_and_swapper, print,
    sys_exit, log. simpl. by rewrite Hc.
Qed.

(** C10: whenever the first argument is [init], whatever follows it, the
    program takes initialization mode and ends with status 0, not 1: the
    model is loaded and nothing else is called, the store is untouched,
    and what is printed is the confirmation, not the usage line of the
    argument-count check. *)
Theorem init_mode_whatever_follows prog rest w :
  run (prog :: "init" :: rest) w
  = (0, mkWorld (fs w) (trace w ++ [EvLoad])
                (match sys_stdout w with
                 | Console => stdout w ++ ["initialized!!"]
                 | DevNull => stdout w
                 end)
                (sys_stdout w) (entropy w))
  ∧ (run (prog :: "init" :: rest) w).1 ≠ 1.
Proof.
  assert (Hrun : run (prog :: "init" :: rest) w
    = (0, mkWorld (fs w) (trace w ++ [EvLoad])
                (match sys_stdout w with
                 | Console => stdout w ++ ["initialized!!"]
                 | DevNull => stdout w
                 end)
                (sys_stdout w) (entropy w))).
  { unfold run. rewrite main_init.
    unfold bind, suppress_output, initialize_faceanalysis_and_swapper, print,
      sys_exit, log. simpl. by destruct (sys_stdout w). }
  rewrite Hrun. split; done.
Qed.

(** C5 (as amended): when the first argument is not [init], and the
    number of arguments is wrong or the input path does not exist, the
    program prints the usage line or the error line and ends with status
    1; nothing else happens: the store, the trace of outside calls and
    the entropy source are as before, so no directory or file is made. *)
Theorem usage_error_exits_1 argv w :
  argv !! 1%nat ≠ Some "init" →
  length argv ≠ 3%nat ∨ fs w !! (argv !!! 1%nat) = None →
  sys_stdout w = Console →
  ∃ msg,
    run argv w
    = (1, mkWorld (fs w) (trace w) (stdout w ++ [msg]) Console (entropy w))
    ∧ (msg = usage ∨ msg = "ERROR: target path not real").
Proof.
  intros Hi Hbad Hc.
  destruct (decide (length argv = 3%nat)) as [Hl|Hl].
  - destruct Hbad as [?|Hmiss]; [done|].
    rewrite (argv_of_length_3 argv Hl) in Hi |- *. simpl in Hi, Hmiss.
    exists "ERROR: target path not real". split; [|by right].
    unfold run. rewrite main_with_paths by congruence.
    change ([argv !!! 0%nat; argv !!! 1%nat; argv !!! 2%nat] !!! 1%nat)
      with (argv !!! 1%nat) in Hmiss.
    rewrite bool_decide_eq_false_2.
    + unfold bind, print, sys_exit. by rewrite Hc.
    + rewrite Hmiss. by intros [? ?].
  - exists usage. split; [|by left].
    unfold run. rewrite main_usage by done.
    unfold bind, print, sys_exit. by rewrite Hc.
Qed.

End Modes.

(** ** Failure and cleanup *)

Section Cleanup.
Context `{T : Tools}.
Implicit Types (w : World) (p q d : string) (argv : list string) (f : FS).

Lemma remove_tree_lookup d q f :
  is_dir d f = true →
  remove_tree d f !! q = if under d q then None else f !! q.
Proof.
  intros Hd. unfold remove_tree. apply is_dir_true in Hd. rewrite Hd.
  destruct (under d q) eqn:U.
  - apply map_lookup_filter_None. right. intros x _. simpl. congruence.
  - destruct (f !! q) as [x|] eqn:E.
    + by apply map_lookup_filter_Some.
    + apply map_lookup_filter_None. by left.
Qed.

Lemma print_leaves_store s w :
  fs (print s w).2 = fs w ∧ trace (print s w).2 = trace w
  ∧ (print s w).1 = Ok tt.
Proof. unfold print. by destruct (sys_stdout w). Qed.

(** [cleanup] on a world where both frame directories exist: they go
    with all they contain, the audio file goes if it is there, and every
    other path is left as it was. *)
Lemma cleanup_removes w :
  is_dir "unprocessed_frames" (fs w) = true →
  is_dir "processed_frames" (fs w) = true →
  (∀ q, intermediate q = false →
        fs (cleanup "audio.aac" w).2 !! q = fs w !! q)
  ∧ (∀ q, under "unprocessed_frames" q || under "processed_frames" q = true →
          fs (cleanup "audio.aac" w).2 !! q = None)
  ∧ ((cleanup "audio.aac" w).1 = Ok tt →
     fs (cleanup "audio.aac" w).2 !! "audio.aac" = None)
  ∧ ∃ removed,
      trace (cleanup "audio.aac" w).2
      = trace w ++ [EvRmtree "unprocessed_frames"; EvRmtree "processed_frames"]
                ++ removed
      ∧ (removed = [] ∨ removed = [EvRemove "audio.aac"]).
Proof.
  intros Hu Hp.
  set (f1 := remove_tree "unprocessed_frames" (fs w)).
  set (f2 := remove_tree "processed_frames" f1).
  assert (Hp1 : is_dir "processed_frames" f1 = true).
  { unfold is_dir, f1. rewrite remove_tree_lookup by done. exact Hp. }
  assert (Hf2 : ∀ q, f2 !! q
                     = if under "unprocessed_frames" q || under "processed_frames" q
                       then None else fs w !! q).
  { intros q. unfold f2. rewrite remove_tree_lookup by done.
    unfold f1. rewrite remove_tree_lookup by done.
    by destruct (under "unprocessed_frames" q), (under "processed_frames" q). }
  assert (Hrun : cleanup "audio.aac" w
    = match f2 !! "audio.aac" with
      | Some (File _) =>
          (Ok tt, mkWorld (delete "audio.aac" f2)
                    (trace w ++ [EvRmtree "unprocessed_frames";
                                 EvRmtree "processed_frames";
                                 EvRemove "audio.aac"])
                    (stdout w) (sys_stdout w) (entropy w))
      | Some Dir =>
          (Raise (IsADirectoryError "audio.aac"),
           mkWorld f2
                    (trace w ++ [EvRmtree "unprocessed_frames";
                                 EvRmtree "processed_frames";
                                 EvRemove "audio.aac"])
                    (stdout w) (sys_stdout w) (entropy w))
      | None =>
          (Ok tt, mkWorld f2
                    (trace w ++ [EvRmtree "unprocessed_frames";
                                 EvRmtree "processed_frames"])
                    (stdout w) (sys_stdout w) (entropy w))
      end).
  { unfold cleanup, bind, shutil_rmtree, path_exists, os_remove, ret, log,
      set_fs. simpl. fold f1. fold f2.
    destruct (f2 !! "audio.aac") as [[|c]|] eqn:E; simpl;
      rewrite ?E, <- ?app_assoc; simpl; reflexivity. }
  rewrite Hrun. split_and!.
  - intros q Hq. unfold intermediate in Hq.
    apply orb_false_iff in Hq as [Hq Ha]. apply String.eqb_neq in Ha.
    destruct (f2 !! "audio.aac") as [[|c]|]; simpl;
      rewrite ?lookup_delete_ne by done; by rewrite Hf2, Hq.
  - intros q Hq.
    destruct (f2 !! "audio.aac") as [[|c]|]; simpl.
    + by rewrite Hf2, Hq.
    + destruct (decide ("audio.aac" = q)) as [<-|Hne].
      * apply lookup_delete_eq.
      * rewrite lookup_delete_ne by done. by rewrite Hf2, Hq.
    + by rewrite Hf2, Hq.
  - destruct (f2 !! "audio.aac") as [[|c]|] eqn:E; simpl; [done| |done].
    intros _. apply lookup_delete_eq.
  - destruct (f2 !! "audio.aac") as [[|c]|]; simpl.
    + exists [EvRemove "audio.aac"]. auto.
    + exists [EvRemove "audio.aac"]. auto.
    + exists []. auto.
Qed.

Lemma main_Ok_inv argv w w' :
  main argv w = (Ok tt, w') →
  ∃ prog TARGET_PATH OUTPUT_PATH,
    argv = [prog; TARGET_PATH; OUTPUT_PATH]
    ∧ TARGET_PATH ≠ "init"
    ∧ is_Some (fs w !! TARGET_PATH)
    ∧ bind (conversion_steps TARGET_PATH OUTPUT_PATH) (finish OUTPUT_PATH) w
      = (Ok tt, w').
Proof.
  intros Hm.
  destruct (decide (argv !! 1%nat = Some "init")) as [Hi|Hi].
  { destruct argv as [|prog [|b rest]]; simpl in Hi; try done.
    injection Hi as ->. rewrite main_init in Hm.
    unfold bind, suppress_output, initialize_faceanalysis_and_swapper, print,
      sys_exit in Hm. simpl in Hm.
    by destruct (sys_stdout w). }
  destruct (decide (length argv = 3%nat)) as [Hl|Hl].
  2:{ rewrite main_usage in Hm by done.
      unfold bind, print, sys_exit in Hm. by destruct (sys_stdout w). }
  rewrite (argv_of_length_3 argv Hl) in Hi, Hm. simpl in Hi.
  rewrite main_with_paths in Hm by congruence.
  case_bool_decide as He.
  2:{ unfold bind, print, sys_exit in Hm. by destruct (sys_stdout w). }
  eexists _, _, _. split; [by apply argv_of_length_3|].
  split; [congruence|]. by split.
Qed.

End Cleanup.

Section Aborts.
Context `{T : Tools}.
Implicit Types (w : World) (p q d : string) (argv : list string).

(** C6: when a step of a conversion raises (extraction, frame
    processing or reassembly), or the external tool ends with a
    non-zero status, the run aborts with that exception and the process
    status is 1; no tool command is run twice and none after the
    failure; cleanup is not reached, so no removal is in the trace and
    every path that was there is still there, the frame directory
    included once it was made. *)
Theorem conversion_failure_aborts prog TARGET_PATH OUTPUT_PATH w r w1 added :
  TARGET_PATH ≠ "init" →
  is_Some (fs w !! TARGET_PATH) →
  conversion_steps TARGET_PATH OUTPUT_PATH w = (r, w1) →
  trace w1 = trace w ++ added →
  aborted r ∨ Exists (λ c, c.2 ≠ 0) (run_calls added) →
  ∃ x,
    r = Raise x
    ∧ main [prog; TARGET_PATH; OUTPUT_PATH] w = (Raise x, w1)
    ∧ (run [prog; TARGET_PATH; OUTPUT_PATH] w).1 = 1
    ∧ Forall not_cleanup added
    ∧ abort_point TARGET_PATH OUTPUT_PATH x (run_calls added)
    ∧ grows w w1
    ∧ (x = FileExistsError "unprocessed_frames"
       ∨ is_dir "unprocessed_frames" (fs w1) = true).
Proof.
  intros Hi He Hrun Htr Hfail.
  pose proof (conversion_steps_spec w TARGET_PATH OUTPUT_PATH w (progress_refl w))
    as Hpost.
  rewrite Hrun in Hpost. simpl in Hpost.
  destruct r as [a|x|c]; [|clear Hfail|done].
  - exfalso. destruct Hpost as [_ (fps & added' & Ht & _ & Hr & _)].
    rewrite Htr in Ht. apply app_inv_head in Ht as <-.
    destruct Hfail as [[]|Hex]. rewrite Hr in Hex.
    apply Exists_exists in Hex as (c & Hc & Hne).
    repeat (apply elem_of_cons in Hc as [->|Hc]; [done|]).
    by apply elem_of_nil in Hc.
  - destruct Hpost as (runs & dirs & (added' & Ht & Fc & Hr & Hg & Hd) & Hab & Hdir).
    rewrite Htr in Ht. apply app_inv_head in Ht as <-.
    assert (Hmain : main [prog; TARGET_PATH; OUTPUT_PATH] w = (Raise x, w1)).
    { rewrite main_with_paths by done.
      rewrite bool_decide_eq_true_2 by done.
      by apply bind_raise. }
    exists x. split_and!; try done.
    + unfold run. by rewrite Hmain.
    + by rewrite Hr.
    + destruct Hdir as [?|Hin]; [by left|right].
      rewrite Forall_forall in Hd. by apply Hd.
Qed.

(** C7: after a successful conversion run the two frame directories,
    with all they contain, and the extracted audio file are gone; every
    other path is as the steps before cleanup left it; and the only
    removals of the whole run are those of cleanup. *)
Theorem successful_run_removes_intermediates argv w w' :
  main argv w = (Ok tt, w') →
  ∃ w1 added removed,
    conversion_steps (argv !!! 1%nat) (argv !!! 2%nat) w = (Ok "audio.aac", w1)
    ∧ trace w1 = trace w ++ added
    ∧ Forall not_cleanup added
    ∧ trace w' = trace w1
                 ++ [EvRmtree "unprocessed_frames"; EvRmtree "processed_frames"]
                 ++ removed
    ∧ (removed = [] ∨ removed = [EvRemove "audio.aac"])
    ∧ (∀ q, intermediate q = true → fs w' !! q = None)
    ∧ (∀ q, intermediate q = false → fs w' !! q = fs w1 !! q).
Proof.
  intros Hm.
  destruct (main_Ok_inv argv w w' Hm)
    as (prog & TARGET_PATH & OUTPUT_PATH & -> & Hi & He & Hb).
  change ([prog; TARGET_PATH; OUTPUT_PATH] !!! 1%nat) with TARGET_PATH.
  change ([prog; TARGET_PATH; OUTPUT_PATH] !!! 2%nat) with OUTPUT_PATH.
  apply bind_inv_ok in Hb as (a & w1 & Hsteps & Hfin).
  pose proof (conversion_steps_spec w TARGET_PATH OUTPUT_PATH w (progress_refl w))
    as Hpost.
  rewrite Hsteps in Hpost. simpl in Hpost.
  destruct Hpost as [-> (fps & added & Ht & Fc & Hr & Hg & Hd)].
  apply Forall_cons in Hd as [Hp Hd]. apply Forall_cons in Hd as [Hu _].
  unfold finish in Hfin.
  apply bind_inv_ok in Hfin as ([] & w2 & Hpr & Hfin).
  apply bind_inv_ok in Hfin as ([] & w3 & Hcl & Hpr').
  destruct (print_leaves_store "Cleaning up..." w1) as (Hf2 & Ht2 & _).
  rewrite Hpr in Hf2, Ht2. simpl in Hf2, Ht2.
  destruct (print_leaves_store ("Done! Output saved to " +:+ OUTPUT_PATH) w3)
    as (Hf3 & Ht3 & _).
  rewrite Hpr' in Hf3, Ht3. simpl in Hf3, Ht3.
  rewrite <- Hf2 in Hu, Hp.
  destruct (cleanup_removes w2 Hu Hp) as (Hkeep & Hgone & Haudio & removed & Htc & Hrm).
  rewrite Hcl in Hkeep, Hgone, Haudio, Htc. simpl in *.
  exists w1, added, removed. split_and!; try done.
  - by rewrite Ht3, Htc, Ht2.
  - intros q Hq. rewrite Hf3. unfold intermediate in Hq.
    apply orb_true_iff in Hq as [Hq|Hq]; [by apply Hgone|].
    apply String.eqb_eq in Hq as ->. by apply Haudio.
  - intros q Hq. rewrite Hf3, <- Hf2. by apply Hkeep.
Qed.

End Aborts.

(** ** One reference face for the whole run *)

Section Selection.
Context `{T : Tools}.
Implicit Types (w : World) (p q d : string) (argv : list string) (e : event).

#[local] Instance quiet_preorder : PreOrder quiet.
Proof.
  split.
  - intros w. split; reflexivity.
  - intros w1 w2 w3 [? ?] [? ?]. split; etrans; eauto.
Qed.

Ltac quiet_tac := apply respects_and; respects_tac.

Lemma initialize_quiet : respects quiet initialize_faceanalysis_and_swapper.
Proof. quiet_tac. Qed.

Lemma print_quiet s : respects quiet (print s).
Proof. quiet_tac. Qed.

Lemma extract_frames_quiet p : respects quiet (extract_frames p).
Proof. unfold extract_frames. quiet_tac. Qed.

Lemma extract_audio_quiet p : respects quiet (extract_audio p).
Proof. unfold extract_audio. quiet_tac. Qed.

Lemma get_video_fps_quiet p : respects quiet (get_video_fps p).
Proof. quiet_tac. Qed.

Lemma reconstruct_video_quiet fps a o : respects quiet (reconstruct_video fps a o).
Proof. unfold reconstruct_video. quiet_tac. Qed.

Lemma cleanup_quiet a : respects quiet (cleanup a).
Proof. unfold cleanup. quiet_tac. Qed.

Lemma no_selection_uses_reference kf e : no_selection e → uses_reference kf e.
Proof. by destruct e. Qed.

Lemma quiet_trans w0 w w1 : quiet w0 w → quiet w w1 → quiet w0 w1.
Proof. intros. by etrans. Qed.

Lemma after_selection_quiet w0 w w1 :
  after_selection w0 w → quiet w w1 → after_selection w0 w1.
Proof.
  intros (added & kirk & kf & Ht & (pre & post & -> & Fpre & Hk & Fpost) & He)
         [(a & Ha & Fa) He1].
  exists ((pre ++ [EvRandint 0 2 (drawn w0); EvImread (kirk_path (drawn w0));
                   EvDetect kirk] ++ post) ++ a), kirk, kf.
  split_and!.
  - by rewrite Ha, Ht, <- app_assoc.
  - exists pre, (post ++ a). split_and!; try done.
    + by rewrite <- !app_assoc.
    + apply Forall_app. split; [done|].
      eapply Forall_impl; [exact Fa|]. apply no_selection_uses_reference.
  - unfold same_entropy in He1. by rewrite He1.
Qed.

Lemma process_all_frames_selection w0 :
  hoare (quiet w0) process_all_frames (selection_post w0).
Proof.
  intros w [(a0 & Ht0 & F0) He0]. unfold same_entropy in He0.
  assert (Hdr : drawn w = drawn w0) by (unfold drawn; by rewrite He0).
  destruct (process_all_frames_cases w) as (added & Htr & Hc).
  rewrite Hdr in Hc.
  destruct (process_all_frames w) as [r w']. simpl in *.
  destruct Hc as [(Fa & He & Hab)|(He & [[-> ->]|[(kirk & -> & Hd & ->)|Hc]])].
  - assert (Hq : quiet w0 w').
    { split.
      - exists (a0 ++ added). rewrite Htr, Ht0, <- app_assoc.
        split; [done|]. by apply Forall_app.
      - unfold same_entropy. by rewrite He. }
    destruct r; [done|by left..].
  - right. left. split; [done|].
    exists (a0 ++ [EvMakedirs "processed_frames"; EvListdir "unprocessed_frames";
                   EvRandint 0 2 (drawn w0); EvImread (kirk_path (drawn w0))]).
    split_and!.
    + by rewrite Htr, Ht0, <- app_assoc.
    + exists (a0 ++ [EvMakedirs "processed_frames"; EvListdir "unprocessed_frames"]),
        [EvImread (kirk_path (drawn w0))].
      split_and!.
      * by rewrite <- !app_assoc.
      * apply Forall_app. split; [done|]. by repeat constructor.
      * by repeat constructor.
    + by rewrite He, He0.
  - right. left. split; [done|].
    exists (a0 ++ [EvMakedirs "processed_frames"; EvListdir "unprocessed_frames";
                   EvRandint 0 2 (drawn w0); EvImread (kirk_path (drawn w0));
                   EvDetect kirk]).
    split_and!.
    + by rewrite Htr, Ht0, <- app_assoc.
    + exists (a0 ++ [EvMakedirs "processed_frames"; EvListdir "unprocessed_frames"]),
        [EvImread (kirk_path (drawn w0)); EvDetect kirk].
      split_and!.
      * by rewrite <- !app_assoc.
      * apply Forall_app. split; [done|]. by repeat constructor.
      * by repeat constructor.
    + by rewrite He, He0.
  - destruct Hc as (kirk & kf & others & post & -> & Hd & Fpost).
    assert (Has : after_selection w0 w').
    { exists (a0 ++ [EvMakedirs "processed_frames"; EvListdir "unprocessed_frames"]
                 ++ [EvRandint 0 2 (drawn w0); EvImread (kirk_path (drawn w0));
                     EvDetect kirk] ++ post), kirk, kf.
      split_and!.
      - by rewrite Htr, Ht0, <- app_assoc.
      - exists (a0 ++ [EvMakedirs "processed_frames";
                       EvListdir "unprocessed_frames"]), post.
        split_and!; try done.
        + by rewrite <- !app_assoc.
        + apply Forall_app. split; [done|]. by repeat constructor.
        + by rewrite Hd.
      - by rewrite He, He0. }
    destruct r; [done|by right; right..].
Qed.

Lemma conversion_steps_selection w0 TARGET_PATH OUTPUT_PATH :
  hoare (quiet w0) (conversion_steps TARGET_PATH OUTPUT_PATH) (selection_post w0).
Proof.
  unfold conversion_steps.
  assert (Hab : ∀ (r : outcome string) w, aborted r → quiet w0 w →
                  selection_post w0 r w).
  { intros [|x|c] w Hr Hq; [done|by left..]. }
  assert (Hab' : ∀ (r : outcome string) w, aborted r → after_selection w0 w →
                   selection_post w0 r w).
  { intros [|x|c] w Hr Hq; [done|by right; right..]. }
  eapply hoare_bind_stable;
    [apply initialize_quiet|apply quiet_trans|by intros; apply Hab..|intros _].
  eapply hoare_bind_stable;
    [apply print_quiet|apply quiet_trans|by intros; apply Hab..|intros _].
  eapply hoare_bind_stable;
    [apply extract_frames_quiet|apply quiet_trans|by intros; apply Hab..|intros _].
  eapply hoare_bind_stable;
    [apply print_quiet|apply quiet_trans|by intros; apply Hab..|intros _].
  eapply hoare_bind_stable;
    [apply extract_audio_quiet|apply quiet_trans|by intros; apply Hab..|intros a].
  eapply hoare_bind_stable;
    [apply print_quiet|apply quiet_trans|by intros; apply Hab..|intros _].
  eapply hoare_bind; [apply process_all_frames_selection|done|done|].
  intros []. cbv beta iota. change (selection_post w0 (Ok ())) with (after_selection w0).
  eapply hoare_bind_stable;
    [apply print_quiet|apply after_selection_quiet|by intros; apply Hab'..|intros _].
  eapply hoare_bind_stable;
    [apply get_video_fps_quiet|apply after_selection_quiet
    |by intros; apply Hab'..|intros fps].
  eapply hoare_bind_stable;
    [apply reconstruct_video_quiet|apply after_selection_quiet
    |by intros; apply Hab'..|intros _].
  by apply hoare_ret.
Qed.

Lemma finish_selection w0 OUTPUT_PATH audio_path :
  hoare (after_selection w0) (finish OUTPUT_PATH audio_path)
        (λ r w, after_selection w0 w).
Proof.
  unfold finish.
  eapply hoare_bind_stable;
    [apply print_quiet|apply after_selection_quiet|done..|intros _].
  eapply hoare_bind_stable;
    [apply cleanup_quiet|apply after_selection_quiet|done..|intros _].
  eapply hoare_respects; [apply print_quiet|apply after_selection_quiet].
Qed.

Lemma randint_calls_app (t1 t2 : list event) :
  randint_calls (t1 ++ t2) = randint_calls t1 ++ randint_calls t2.
Proof. apply omap_app. Qed.

Lemma no_selection_calls (l : list event) :
  Forall no_selection l → randint_calls l = [] ∧ swap_calls l = [].
Proof.
  induction 1 as [|e l He _ [IH1 IH2]]; [done|].
  destruct e; simpl in *; done.
Qed.

Lemma uses_reference_calls kf (l : list event) :
  Forall (uses_reference kf) l →
  randint_calls l = [] ∧ Forall (λ c, c.2 = kf) (swap_calls l).
Proof.
  induction 1 as [|e l He _ [IH1 IH2]]; [by split|].
  destruct e; simpl in *; try done.
  split; [done|]. by constructor.
Qed.

Lemma one_selection_at_most_one_draw w0 {A} (r : outcome A) w :
  one_selection w0 r w → at_most_one_draw w0 w.
Proof.
  intros [[_ [(added & Ht & Fa) _]]
         |[[_ (added & Ht & (pre & post & -> & Fpre & Fpost) & _)]
          |(added & kirk & kf & Ht & (pre & post & -> & Fpre & _ & Fpost) & _)]].
  - exists added. split; [done|]. left. by apply no_selection_calls.
  - eexists. split; [exact Ht|]. right.
    destruct (no_selection_calls _ Fpre) as [Hr1 Hs1].
    destruct (no_selection_calls _ Fpost) as [Hr2 Hs2].
    rewrite randint_calls_app, swap_calls_app. simpl.
    rewrite Hr1, Hr2, Hs1, Hs2. split; [done|].
    intros c1 c2 Hc1. by apply elem_of_nil in Hc1.
  - eexists. split; [exact Ht|]. right.
    destruct (no_selection_calls _ Fpre) as [Hr1 Hs1].
    destruct (uses_reference_calls _ _ Fpost) as [Hr2 Hs2].
    rewrite randint_calls_app, swap_calls_app. simpl.
    rewrite Hr1, Hr2, Hs1. split; [done|].
    simpl. rewrite Forall_forall in Hs2.
    intros c1 c2 Hc1 Hc2. by rewrite (Hs2 c1 Hc1), (Hs2 c2 Hc2).
Qed.

(** Every run of [main], whatever its arguments and its outcome, is in
    one of the three situations of [one_selection]. *)
Lemma main_one_selection argv w :
  one_selection w (main argv w).1 (main argv w).2.
Proof.
  destruct (decide (argv !! 1%nat = Some "init")) as [Hi|Hi].
  { destruct argv as [|prog [|b rest]]; simpl in Hi; try done.
    injection Hi as ->. rewrite main_init.
    left. split.
    - unfold bind, suppress_output, initialize_faceanalysis_and_swapper,
        print, sys_exit. simpl. by destruct (sys_stdout w).
    - split.
      + apply extends_one with EvLoad; [|done].
        unfold bind, suppress_output, initialize_faceanalysis_and_swapper,
          print, sys_exit. simpl. by destruct (sys_stdout w).
      + unfold same_entropy, bind, suppress_output,
          initialize_faceanalysis_and_swapper, print, sys_exit. simpl.
        by destruct (sys_stdout w). }
  destruct (decide (length argv = 3%nat)) as [Hl|Hl].
  2:{ rewrite main_usage by done. left.
      unfold bind, print, sys_exit.
      destruct (sys_stdout w); simpl; (split; [done|]);
        (split; [by apply extends_same|done]). }
  rewrite (argv_of_length_3 argv Hl) in Hi |- *. simpl in Hi.
  rewrite main_with_paths by congruence.
  case_bool_decide as He.
  2:{ left. unfold bind, print, sys_exit.
      destruct (sys_stdout w); simpl; (split; [done|]);
        (split; [by apply extends_same|done]). }
  assert (Hh : hoare (quiet w)
                 (bind (conversion_steps (argv !!! 1%nat) (argv !!! 2%nat))
                       (finish (argv !!! 2%nat)))
                 (one_selection w)).
  { eapply hoare_bind; [apply conversion_steps_selection|done|done|].
    intros a. eapply hoare_conseq; [apply finish_selection|done|].
    intros r w1 Has. by right; right. }
  apply Hh. reflexivity.
Qed.

Lemma kirk_path_pool : kirk_path <$> randint_outcomes 0 2 = pool.
Proof. vm_compute. reflexivity. Qed.

Lemma pool_NoDup : NoDup pool.
Proof. apply (bool_decide_unpack _). vm_compute. reflexivity. Qed.

Lemma selected_block (k : nat) (i : Z) :
  0 ≤ i < 3 → selected (Z.of_nat (3 * k) + i) = kirk_path i.
Proof.
  intros Hi. unfold selected. f_equal.
  replace (Z.of_nat (3 * k) + i) with (i + Z.of_nat k * 3) by lia.
  rewrite Z.mod_add by lia. rewrite Z.mod_small by lia. lia.
Qed.

(** Of any [3 k] consecutive numbers of the entropy source, exactly [k]
    select each candidate of the pool. *)
Lemma selected_equidistributed (k : nat) p :
  p ∈ pool →
  length (filter (λ raw, selected raw = p) (seqZ 0 (Z.of_nat (3 * k)))) = k.
Proof.
  intros Hp. induction k as [|k IH]; [done|].
  replace (Z.of_nat (3 * S k)) with (Z.of_nat (3 * k) + 3) by lia.
  rewrite seqZ_app by lia. rewrite filter_app, length_app, IH.
  replace (seqZ (0 + Z.of_nat (3 * k)) 3)
    with [Z.of_nat (3 * k) + 0; Z.of_nat (3 * k) + 1; Z.of_nat (3 * k) + 2].
  2:{ rewrite !seqZ_cons by lia. rewrite seqZ_nil by lia.
      repeat (f_equal; try lia). }
  rewrite !filter_cons, filter_nil, !selected_block by lia.
  unfold pool in Hp.
  apply elem_of_cons in Hp as [-> | Hp];
    [|apply elem_of_cons in Hp as [-> | Hp];
      [|apply elem_of_cons in Hp as [-> | Hp];
        [|by apply elem_of_nil in Hp]]];
    repeat case_decide;
    repeat match goal with
           | H : kirk_path _ = _ |- _ => vm_compute in H; try discriminate H
           | H : kirk_path _ ≠ _ |- _ =>
               try (exfalso; apply H; vm_compute; reflexivity); clear H
           end;
    simpl; lia.
Qed.

(** C4 (as amended): a conversion run that reaches the frame pipeline
    and finds a face on the candidate it draws selects exactly one
    reference face, at pipeline start: [process_all_frames] makes one
    draw, [randint(0, 2)], before reading any frame, reads the candidate
    the draw names and takes the first face detected on it; nothing is
    drawn again, and that same face is what every swap of every frame
    uses, whatever happens in the loop. When every frame decodes the loop
    events are those of [loop_events] with that face. The draw is
    uniform over the pool: the three outcomes of [randint(0, 2)] name
    the three candidates one to one, and of any [3 k] consecutive numbers
    of the entropy source exactly [k] select each candidate. For every
    run of [main], whatever its arguments and outcome: at most one draw
    is made, all swaps use one reference face, and a run that returns
    normally has made the selection. *)
Theorem one_reference_face_per_run w kirk kf others :
  (∀ c, fs w !! "processed_frames" ≠ Some (File c)) →
  is_dir "unprocessed_frames" (fs w) = true →
  decoded (fs w) (kirk_path (drawn w)) = Some kirk →
  detect kirk = kf :: others →
  (∃ post,
     trace (process_all_frames w).2
     = trace w
         ++ [EvMakedirs "processed_frames"; EvListdir "unprocessed_frames";
             EvRandint 0 2 (drawn w); EvImread (kirk_path (drawn w));
             EvDetect kirk]
         ++ post
     ∧ Forall (uses_reference kf) post
     ∧ randint_calls
         ([EvMakedirs "processed_frames"; EvListdir "unprocessed_frames";
           EvRandint 0 2 (drawn w); EvImread (kirk_path (drawn w));
           EvDetect kirk] ++ post)
       = [(0, 2, drawn w)]
     ∧ Forall (λ c, c.2 = kf) (swap_calls post)
     ∧ entropy (process_all_frames w).2 = tail (entropy w)
     ∧ (Forall (λ n, is_Some (frame_image (fs w) n)) (frame_files_of (fs w)) →
        (process_all_frames w).1 = Ok tt
        ∧ post = loop_events kf (fs w) (frame_files_of (fs w))))
  ∧ kirk_path (drawn w) = selected (hd 0 (entropy w))
  ∧ drawn w ∈ randint_outcomes 0 2
  ∧ kirk_path (drawn w) ∈ pool
  ∧ kirk_path <$> randint_outcomes 0 2 = pool
  ∧ NoDup pool
  ∧ (∀ (k : nat) p, p ∈ pool →
       length (filter (λ raw, selected raw = p) (seqZ 0 (Z.of_nat (3 * k))))
       = k)
  ∧ (∀ argv w0,
       one_selection w0 (main argv w0).1 (main argv w0).2
       ∧ at_most_one_draw w0 (main argv w0).2
       ∧ ((main argv w0).1 = Ok tt → after_selection w0 (main argv w0).2)).
Proof.
  intros Hp Hu Hk Hd.
  destruct (process_all_frames_enters_loop w kirk kf others Hp Hu Hk Hd)
    as (f1 & Hdir & Hsame & Hrun).
  set (W := mkWorld f1
              (trace w ++ [EvMakedirs "processed_frames";
                           EvListdir "unprocessed_frames";
                           EvRandint 0 2 (drawn w);
                           EvImread (kirk_path (drawn w)); EvDetect kirk])
              (stdout w) (sys_stdout w) (tail (entropy w))) in Hrun.
  assert (Hin : drawn w ∈ randint_outcomes 0 2).
  { pose proof (drawn_range w) as Hr.
    assert (drawn w = 0 ∨ drawn w = 1 ∨ drawn w = 2) as [-> | [-> | ->]] by lia;
      vm_compute; repeat constructor. }
  split_and!.
  - destruct (kirkify_loop_uses_reference kf (frame_files_of (fs w)) W)
      as (post & Hpost & Fpost).
    pose proof (kirkify_loop_same_entropy kf (frame_files_of (fs w)) W) as Hent.
    unfold same_entropy in Hent.
    exists post. rewrite Hrun, Hpost, Hent.
    destruct (uses_reference_calls _ _ Fpost) as [Hr Hs].
    split_and!.
    + unfold W. simpl. by rewrite <- app_assoc.
    + done.
    + rewrite randint_calls_app, Hr. reflexivity.
    + done.
    + done.
    + intros Hall.
      destruct (for_each_frames_trace kf (fs w) (frame_files_of (fs w)) W)
        as (w' & Hloop & Htr); [|done|].
      { intros n. simpl. apply Hsame. intros E. symmetry in E. discriminate E. }
      rewrite Hloop in Hpost |- *. simpl in *. split; [done|].
      rewrite Htr in Hpost. by apply app_inv_head in Hpost.
  - reflexivity.
  - exact Hin.
  - rewrite <- kirk_path_pool. by apply list_elem_of_fmap_2.
  - apply kirk_path_pool.
  - apply pool_NoDup.
  - apply selected_equidistributed.
  - intros argv w0. pose proof (main_one_selection argv w0) as Hone.
    split_and!.
    + exact Hone.
    + by eapply one_selection_at_most_one_draw.
    + intros Hok. rewrite Hok in Hone.
      destruct Hone as [[Ha _]|[[Ha _]|Has]]; [destruct Ha..|exact Has].
Qed.

End Selection.

(** * The theorems at work on the small instance *)

Section Witnesses.
#[local] Existing Instance toy_tools.

Abbreviation w_frames := (toy_world toy_fs_frames).

(** C1 at two extracted frames, the reference drawn from [kirk_1.jpg]. *)
Lemma process_all_frames_one_output_per_frame_witness :
  ∃ w' added names,
    process_all_frames w_frames = (Ok tt, w')
    ∧ trace w' = trace w_frames ++ added
    ∧ length (imwrite_calls added) = 2%nat
    ∧ (imwrite_calls added).*1
      ≡ₚ (λ i, output_path (frame_name i)) <$> seq 1 2
    ∧ names ≡ₚ frame_name <$> seq 1 2
    ∧ StronglySorted String.le names
    ∧ (imwrite_calls added).*1 = output_path <$> names
    ∧ imwrite_calls added = omap (frame_write 8%nat (fs w_frames)) names
    ∧ ((2 ≤ 9999)%nat →
       names = frame_name <$> seq 1 2
       ∧ (imwrite_calls added).*1
         = (λ i, output_path (frame_name i)) <$> seq 1 2)
    ∧ (∀ i img, (1 ≤ i ≤ 2)%nat →
         frame_image (fs w_frames) (frame_name i) = Some img →
         fs w' !! output_path (frame_name i)
         = Some (File (Img (transform 8%nat img))))
    ∧ (∀ q, q ≠ "processed_frames" →
         (∀ i, (1 ≤ i ≤ 2)%nat → q ≠ output_path (frame_name i)) →
         fs w' !! q = fs w_frames !! q).
Proof.
  apply (process_all_frames_one_output_per_frame
           w_frames 2 [8%nat] 8%nat []).
  - intros c H. vm_compute in H. discriminate H.
  - vm_compute. reflexivity.
  - vm_compute. reflexivity.
  - reflexivity.
  - vm_compute. reflexivity.
  - repeat (constructor;
            [split; [vm_compute; eexists; reflexivity
                    |vm_compute; reflexivity]|]).
    constructor.
Defined.

(** C2 at the first frame, which shows the faces 1 and 2. *)
Lemma kirkify_frame_swaps_each_face_witness :
  ∃ w' added,
    kirkify_frame (T := toy_tools) "unprocessed_frames/frame_0001.png"
                  "processed_frames/frame_0001.png" 8%nat w_frames
    = (Ok tt, w')
    ∧ trace w' = trace w_frames ++ added
    ∧ added = [EvImread "unprocessed_frames/frame_0001.png";
               EvDetect [1; 0; 2]%nat]
                ++ swap_events [1; 0; 2]%nat (detect [1; 0; 2]%nat) 8%nat
                ++ [EvImwrite "processed_frames/frame_0001.png"
                      (swap_all [1; 0; 2]%nat (detect [1; 0; 2]%nat) 8%nat)]
    ∧ length (swap_calls added) = 2%nat
    ∧ (swap_calls added).*1.*2 = detect [1; 0; 2]%nat
    ∧ Forall (λ c, c.2 = 8%nat) (swap_calls added).
Proof.
  apply (kirkify_frame_swaps_each_face (T := toy_tools)
           "unprocessed_frames/frame_0001.png"
           "processed_frames/frame_0001.png" 8%nat w_frames [1; 0; 2]%nat 2).
  - vm_compute. reflexivity.
  - vm_compute. reflexivity.
Defined.

(** C3 at the second frame, which shows no face and is stored with
    three channels of eight bits. *)
Lemma kirkify_frame_no_face_copies_witness :
  ∃ w' added,
    kirkify_frame (T := toy_tools)
      "unprocessed_frames/frame_0002.png" "copy.png" 8%nat w_frames
    = (Ok tt, w')
    ∧ trace w' = trace w_frames ++ added
    ∧ added = [EvImread "unprocessed_frames/frame_0002.png";
               EvDetect (imread_color [0%nat]);
               EvImwrite "copy.png" (imread_color [0%nat])]
    ∧ swap_calls added = []
    ∧ fs w' = write_file "copy.png" (Img (imread_color [0%nat])) (fs w_frames)
    ∧ (parent_ok "copy.png" (fs w_frames) = true →
       is_dir "copy.png" (fs w_frames) = false →
       fs w' !! "copy.png" = Some (File (Img (imread_color [0%nat])))
       ∧ (imread_color (imread_color [0%nat]) = imread_color [0%nat] →
          decoded (fs w') "copy.png"
          = decoded (fs w_frames) "unprocessed_frames/frame_0002.png")
       ∧ (fs w' !! "copy.png"
          = fs w_frames !! "unprocessed_frames/frame_0002.png"
          ↔ imread_color [0%nat] = [0%nat]))
    ∧ (∀ q, q ≠ "copy.png" → fs w' !! q = fs w_frames !! q).
Proof.
  apply (kirkify_frame_no_face_copies (T := toy_tools)
           "unprocessed_frames/frame_0002.png" "copy.png" 8%nat
           w_frames [0%nat]).
  - vm_compute. reflexivity.
  - vm_compute. reflexivity.
Defined.

(** C5 at an input path that does not exist. *)
Lemma usage_error_exits_1_witness :
  ∃ msg,
    run ["kirkifier_video.py"; "missing.mp4"; "out.mp4"] (toy_world toy_fs)
    = (1, mkWorld toy_fs [] ([] ++ [msg]) Console [4])
    ∧ (msg = usage ∨ msg = "ERROR: target path not real").
Proof.
  apply (usage_error_exits_1
           ["kirkifier_video.py"; "missing.mp4"; "out.mp4"] (toy_world toy_fs)).
  - intros H. vm_compute in H. discriminate H.
  - right. vm_compute. reflexivity.
  - reflexivity.
Defined.

(** C5 as stated fails: [init] followed by two more arguments is a wrong
    number of arguments for either mode, yet the program loads the model,
    prints the confirmation and ends with status 0. *)
Lemma wrong_argument_count_exits_0 :
  length ["kirkifier_video.py"; "init"; "a"; "b"] ≠ 3%nat
  ∧ run ["kirkifier_video.py"; "init"; "a"; "b"] (toy_world toy_fs)
    = (0, mkWorld toy_fs [EvLoad] ["initialized!!"] Console [4])
  ∧ (run ["kirkifier_video.py"; "init"; "a"; "b"] (toy_world toy_fs)).1 ≠ 1.
Proof.
  assert (Hrun : run ["kirkifier_video.py"; "init"; "a"; "b"] (toy_world toy_fs)
                 = (0, mkWorld toy_fs [EvLoad] ["initialized!!"] Console [4])).
  { unfold run. rewrite main_init. reflexivity. }
  split_and!.
  - simpl. lia.
  - exact Hrun.
  - rewrite Hrun. simpl. discriminate.
Qed.

(** C1 as stated fails: from frame 10000 on the names sort before those
    of the four-digit frames, so frame 10000 is written before frame
    9999. *)
Lemma frame_10000_written_before_9999 :
  (process_all_frames (toy_world toy_fs_long)).1 = Ok tt
  ∧ (imwrite_calls (trace (process_all_frames (toy_world toy_fs_long)).2)).*1
    = [output_path (frame_name 10000); output_path (frame_name 9999)]
  ∧ (imwrite_calls (trace (process_all_frames (toy_world toy_fs_long)).2)).*1
    ≠ (λ i, output_path (frame_name i)) <$> [9999; 10000]%nat.
Proof.
  split_and!.
  - vm_compute. reflexivity.
  - vm_compute. reflexivity.
  - vm_compute. discriminate.
Qed.

(** C3 as stated fails: a frame stored with a transparent region shows
    no face, no swap is made, and yet the file written is not the file
    read, since [imread] has dropped the transparency. *)
Lemma transparent_frame_not_copied_unchanged :
  (kirkify_frame (T := toy_tools) (input_path "frame_0001.png")
     (output_path "frame_0001.png") 8%nat (toy_world toy_fs_alpha)).1 = Ok tt
  ∧ (detect <$> decoded toy_fs_alpha (input_path "frame_0001.png")) = Some []
  ∧ swap_calls
      (trace (kirkify_frame (T := toy_tools) (input_path "frame_0001.png")
                (output_path "frame_0001.png") 8%nat
                (toy_world toy_fs_alpha)).2) = []
  ∧ toy_fs_alpha !! input_path "frame_0001.png"
    = Some (File (Img [100; 0]%nat))
  ∧ fs (kirkify_frame (T := toy_tools) (input_path "frame_0001.png")
          (output_path "frame_0001.png") 8%nat (toy_world toy_fs_alpha)).2
      !! output_path "frame_0001.png"
    = Some (File (Img [0; 0]%nat))
  ∧ fs (kirkify_frame (T := toy_tools) (input_path "frame_0001.png")
          (output_path "frame_0001.png") 8%nat (toy_world toy_fs_alpha)).2
      !! output_path "frame_0001.png"
    ≠ toy_fs_alpha !! input_path "frame_0001.png".
Proof.
  split_and!.
  - vm_compute. reflexivity.
  - vm_compute. reflexivity.
  - vm_compute. reflexivity.
  - vm_compute. reflexivity.
  - vm_compute. reflexivity.
  - vm_compute. discriminate.
Qed.

Abbreviation w_silent := (toy_world toy_fs_silent).

(** C4 as stated fails: a conversion run on a video without an audio
    stream loads the models and extracts the frames, then aborts on the
    audio step; it never reaches the frame pipeline, draws no number and
    selects no reference face. *)
Lemma silent_video_run_selects_no_reference :
  (main ["kirkifier_video.py"; "in.mp4"; "out.mp4"] w_silent).1
  = Raise (CalledProcessError 1 (extract_audio_cmd "in.mp4"))
  ∧ run_calls
      (trace (main ["kirkifier_video.py"; "in.mp4"; "out.mp4"] w_silent).2)
    = [(extract_frames_cmd "in.mp4", 0); (extract_audio_cmd "in.mp4", 1)]
  ∧ randint_calls
      (trace (main ["kirkifier_video.py"; "in.mp4"; "out.mp4"] w_silent).2)
    = []
  ∧ swap_calls
      (trace (main ["kirkifier_video.py"; "in.mp4"; "out.mp4"] w_silent).2)
    = []
  ∧ entropy (main ["kirkifier_video.py"; "in.mp4"; "out.mp4"] w_silent).2
    = entropy w_silent.
Proof.
  split_and!; vm_compute; reflexivity.
Qed.

(** C4 at two extracted frames: the source yields 4, so the draw is 1
    and the reference is the face 8 shown on [kirk_1.jpg]. *)
Lemma one_reference_face_per_run_witness :
  (∃ post,
     trace (process_all_frames w_frames).2
     = trace w_frames
         ++ [EvMakedirs "processed_frames"; EvListdir "unprocessed_frames";
             EvRandint 0 2 (drawn w_frames);
             EvImread (kirk_path (drawn w_frames)); EvDetect [8%nat]]
         ++ post
     ∧ Forall (uses_reference 8%nat) post
     ∧ randint_calls
         ([EvMakedirs "processed_frames"; EvListdir "unprocessed_frames";
           EvRandint 0 2 (drawn w_frames);
           EvImread (kirk_path (drawn w_frames)); EvDetect [8%nat]] ++ post)
       = [(0, 2, drawn w_frames)]
     ∧ Forall (λ c, c.2 = 8%nat) (swap_calls post)
     ∧ entropy (process_all_frames w_frames).2 = tail (entropy w_frames)
     ∧ (Forall (λ n, is_Some (frame_image (fs w_frames) n))
               (frame_files_of (fs w_frames)) →
        (process_all_frames w_frames).1 = Ok tt
        ∧ post = loop_events 8%nat (fs w_frames)
                   (frame_files_of (fs w_frames))))
  ∧ kirk_path (drawn w_frames) = selected (hd 0 (entropy w_frames))
  ∧ drawn w_frames ∈ randint_outcomes 0 2
  ∧ kirk_path (drawn w_frames) ∈ pool
  ∧ kirk_path <$> randint_outcomes 0 2 = pool
  ∧ NoDup pool
  ∧ (∀ (k : nat) p, p ∈ pool →
       length (filter (λ raw, selected raw = p) (seqZ 0 (Z.of_nat (3 * k))))
       = k)
  ∧ (∀ argv w0,
       one_selection w0 (main argv w0).1 (main argv w0).2
       ∧ at_most_one_draw w0 (main argv w0).2
       ∧ ((main argv w0).1 = Ok tt → after_selection w0 (main argv w0).2)).
Proof.
  apply (one_reference_face_per_run w_frames [8%nat] 8%nat []).
  - intros c H. vm_compute in H. discriminate H.
  - vm_compute. reflexivity.
  - vm_compute. reflexivity.
  - reflexivity.
Defined.

(** C6 at a video without an audio stream: the second tool call fails. *)
Lemma conversion_failure_aborts_witness :
  ∃ x,
    (conversion_steps "in.mp4" "out.mp4" w_silent).1 = Raise x
    ∧ main ["kirkifier_video.py"; "in.mp4"; "out.mp4"] w_silent
      = (Raise x, (conversion_steps "in.mp4" "out.mp4" w_silent).2)
    ∧ (run ["kirkifier_video.py"; "in.mp4"; "out.mp4"] w_silent).1 = 1
    ∧ Forall not_cleanup
             (trace (conversion_steps "in.mp4" "out.mp4" w_silent).2)
    ∧ abort_point "in.mp4" "out.mp4" x
        (run_calls (trace (conversion_steps "in.mp4" "out.mp4" w_silent).2))
    ∧ grows w_silent (conversion_steps "in.mp4" "out.mp4" w_silent).2
    ∧ (x = FileExistsError "unprocessed_frames"
       ∨ is_dir "unprocessed_frames"
           (fs (conversion_steps "in.mp4" "out.mp4" w_silent).2) = true).
Proof.
  apply (conversion_failure_aborts
           "kirkifier_video.py" "in.mp4" "out.mp4" w_silent).
  - intros H. discriminate H.
  - vm_compute. eexists. reflexivity.
  - apply surjective_pairing.
  - reflexivity.
  - left. vm_compute. exact I.
Defined.

(** C7 at a complete run on the video with sound. *)
Lemma successful_run_removes_intermediates_witness :
  ∃ w1 added removed,
    conversion_steps "in.mp4" "out.mp4" (toy_world toy_fs)
    = (Ok "audio.aac", w1)
    ∧ trace w1 = trace (toy_world toy_fs) ++ added
    ∧ Forall not_cleanup added
    ∧ trace (main ["kirkifier_video.py"; "in.mp4"; "out.mp4"]
                  (toy_world toy_fs)).2
      = trace w1
          ++ [EvRmtree "unprocessed_frames"; EvRmtree "processed_frames"]
          ++ removed
    ∧ (removed = [] ∨ removed = [EvRemove "audio.aac"])
    ∧ (∀ q, intermediate q = true →
         fs (main ["kirkifier_video.py"; "in.mp4"; "out.mp4"]
                  (toy_world toy_fs)).2 !! q = None)
    ∧ (∀ q, intermediate q = false →
         fs (main ["kirkifier_video.py"; "in.mp4"; "out.mp4"]
                  (toy_world toy_fs)).2 !! q = fs w1 !! q).
Proof.
  apply (successful_run_removes_intermediates
           ["kirkifier_video.py"; "in.mp4"; "out.mp4"] (toy_world toy_fs)).
  apply pair_of_fst. vm_compute. reflexivity.
Defined.

(** C8 on the console. *)
Lemma init_mode_prints_and_exits_0_witness :
  run ["kirkifier_video.py"; "init"] (toy_world toy_fs)
  = (0, mkWorld toy_fs ([] ++ [EvLoad]) ([] ++ ["initialized!!"]) Console [4]).
Proof.
  apply (init_mode_prints_and_exits_0 "kirkifier_video.py" (toy_world toy_fs)).
  reflexivity.
Defined.

Abbreviation w_faceless := (toy_world toy_fs_faceless).

(** C9 at a pool whose drawn image shows no face. *)
Lemma process_all_frames_faceless_reference_witness :
  ∃ w' added,
    process_all_frames w_faceless = (Raise IndexError, w')
    ∧ exit_status (process_all_frames w_faceless).1 = 1
    ∧ trace w' = trace w_faceless ++ added
    ∧ added = [EvMakedirs "processed_frames"; EvListdir "unprocessed_frames";
               EvRandint 0 2 (drawn w_faceless);
               EvImread (kirk_path (drawn w_faceless)); EvDetect [0%nat]]
    ∧ swap_calls added = []
    ∧ imwrite_calls added = []
    ∧ is_dir "processed_frames" (fs w') = true
    ∧ (∀ q, q ≠ "processed_frames" → fs w' !! q = fs w_faceless !! q).
Proof.
  apply (process_all_frames_faceless_reference w_faceless [0%nat]).
  - intros c H. vm_compute in H. discriminate H.
  - vm_compute. reflexivity.
  - vm_compute. reflexivity.
  - vm_compute. reflexivity.
Defined.

End Witnesses.

(** * Further properties of the script *)

(** ** [cleanup] on any world *)

Section CleanupAnywhere.
Context `{T : Tools}.
Implicit Types (w : World) (p q d a : string) (f : FS).

Lemma remove_tree_lookup_any d q f :
  remove_tree d f !! q = if is_dir d f && under d q then None else f !! q.
Proof.
  destruct (is_dir d f) eqn:Hd; simpl.
  - by apply remove_tree_lookup.
  - unfold remove_tree. unfold is_dir in Hd.
    by destruct (f !! d) as [[|c]|].
Qed.

Lemma remove_tree_is_dir_self d f : is_dir d (remove_tree d f) = false.
Proof.
  unfold is_dir at 1. rewrite remove_tree_lookup_any.
  destruct (is_dir d f) eqn:Hd; simpl.
  - unfold under. by rewrite String.eqb_refl.
  - exact Hd.
Qed.

Lemma cleanup_unfold a w :
  cleanup a w
  = match without_frame_directories (fs w) !! a with
    | Some (File _) =>
        (Ok tt, mkWorld (delete a (without_frame_directories (fs w)))
                  (trace w ++ [EvRmtree "unprocessed_frames";
                               EvRmtree "processed_frames"; EvRemove a])
                  (stdout w) (sys_stdout w) (entropy w))
    | Some Dir =>
        (Raise (IsADirectoryError a),
         mkWorld (without_frame_directories (fs w))
                  (trace w ++ [EvRmtree "unprocessed_frames";
                               EvRmtree "processed_frames"; EvRemove a])
                  (stdout w) (sys_stdout w) (entropy w))
    | None =>
        (Ok tt, mkWorld (without_frame_directories (fs w))
                  (trace w ++ [EvRmtree "unprocessed_frames";
                               EvRmtree "processed_frames"])
                  (stdout w) (sys_stdout w) (entropy w))
    end.
Proof.
  unfold cleanup, bind, shutil_rmtree, path_exists, os_remove, ret, log,
    set_fs, without_frame_directories. simpl.
  destruct (remove_tree "processed_frames"
              (remove_tree "unprocessed_frames" (fs w)) !! a)
    as [[|c]|] eqn:E; simpl; rewrite ?E, <- ?app_assoc; simpl; reflexivity.
Qed.

Lemma without_frame_directories_lookup f q :
  without_frame_directories f !! q
  = if (is_dir "unprocessed_frames" f && under "unprocessed_frames" q)
       || (is_dir "processed_frames" f && under "processed_frames" q)
    then None else f !! q.
Proof.
  unfold without_frame_directories. rewrite !remove_tree_lookup_any.
  assert (Hp : is_dir "processed_frames" (remove_tree "unprocessed_frames" f)
               = is_dir "processed_frames" f).
  { unfold is_dir. rewrite remove_tree_lookup_any.
    replace (under "unprocessed_frames" "processed_frames") with false
      by reflexivity.
    by rewrite andb_false_r. }
  rewrite Hp.
  destruct (is_dir "unprocessed_frames" f && under "unprocessed_frames" q),
           (is_dir "processed_frames" f && under "processed_frames" q); done.
Qed.

(** X1: whatever the world and whatever the audio path it is given,
    [cleanup] changes no path other than the two frame directories, what
    lies below them, and the audio path. *)
Theorem cleanup_touches_intermediates_only a w q :
  under "unprocessed_frames" q = false →
  under "processed_frames" q = false →
  q ≠ a →
  fs (cleanup a w).2 !! q = fs w !! q.
Proof.
  intros Hu Hp Ha. rewrite cleanup_unfold.
  assert (Hq : without_frame_directories (fs w) !! q = fs w !! q).
  { rewrite without_frame_directories_lookup, Hu, Hp.
    by rewrite !andb_false_r. }
  destruct (without_frame_directories (fs w) !! a) as [[|c]|]; simpl;
    rewrite ?lookup_delete_ne by done; exact Hq.
Qed.

(** X2: when there is nothing to clean (no frame directory, no audio
    file), [cleanup] returns normally and leaves the store as it is; it
    calls [rmtree] twice and [os.remove] not at all. *)
Theorem cleanup_nothing_to_do a w :
  is_dir "unprocessed_frames" (fs w) = false →
  is_dir "processed_frames" (fs w) = false →
  fs w !! a = None →
  cleanup a w
  = (Ok tt, mkWorld (fs w)
              (trace w ++ [EvRmtree "unprocessed_frames";
                           EvRmtree "processed_frames"])
              (stdout w) (sys_stdout w) (entropy w)).
Proof.
  intros Hu Hp Ha. rewrite cleanup_unfold.
  assert (Hf : without_frame_directories (fs w) = fs w).
  { apply map_eq. intros q.
    by rewrite without_frame_directories_lookup, Hu, Hp. }
  by rewrite Hf, Ha.
Qed.

(** X3: [cleanup] is idempotent: after a call that returned normally, a
    second call returns normally too and leaves the store unchanged. *)
Theorem cleanup_twice a w w1 :
  cleanup a w = (Ok tt, w1) →
  (cleanup a w1).1 = Ok tt ∧ fs (cleanup a w1).2 = fs w1.
Proof.
  intros Hc.
  assert (Hu : is_dir "unprocessed_frames" (fs w1) = false
               ∧ is_dir "processed_frames" (fs w1) = false
               ∧ fs w1 !! a = None).
  { rewrite cleanup_unfold in Hc.
    assert (Hdu : ∀ d, (d = "unprocessed_frames" ∨ d = "processed_frames") →
                   is_dir d (without_frame_directories (fs w)) = false).
    { intros d Hd. unfold is_dir.
      rewrite without_frame_directories_lookup.
      destruct (is_dir "unprocessed_frames" (fs w)) eqn:E1,
               (is_dir "processed_frames" (fs w)) eqn:E2;
        destruct Hd as [-> | ->]; simpl; try reflexivity;
        fold (is_dir "unprocessed_frames" (fs w));
        fold (is_dir "processed_frames" (fs w)); by rewrite ?E1, ?E2. }
    destruct (without_frame_directories (fs w) !! a) as [[|c]|] eqn:Ea;
      simplify_eq; simpl.
    - split_and!.
      + unfold is_dir. destruct (decide (a = "unprocessed_frames")) as [->|Hn].
        * by rewrite lookup_delete_eq.
        * rewrite lookup_delete_ne by done. apply Hdu. by left.
      + unfold is_dir. destruct (decide (a = "processed_frames")) as [->|Hn].
        * by rewrite lookup_delete_eq.
        * rewrite lookup_delete_ne by done. apply Hdu. by right.
      + apply lookup_delete_eq.
    - split_and!; [apply Hdu; by left|apply Hdu; by right|exact Ea]. }
  destruct Hu as (Hu & Hp & Ha).
  by rewrite (cleanup_nothing_to_do a w1 Hu Hp Ha).
Qed.

(** X4: when a directory sits at the audio path, outside the frame
    directories, [cleanup] raises [IsADirectoryError], and it does so
    after the frame directories are gone: the directory at the audio
    path stays, the frame directories do not. *)
Theorem cleanup_audio_directory a w :
  is_dir a (fs w) = true →
  under "unprocessed_frames" a = false →
  under "processed_frames" a = false →
  (cleanup a w).1 = Raise (IsADirectoryError a)
  ∧ is_dir a (fs (cleanup a w).2) = true
  ∧ is_dir "unprocessed_frames" (fs (cleanup a w).2) = false
  ∧ is_dir "processed_frames" (fs (cleanup a w).2) = false.
Proof.
  intros Ha Hu Hp. rewrite cleanup_unfold.
  assert (Hq : without_frame_directories (fs w) !! a = Some Dir).
  { rewrite without_frame_directories_lookup, Hu, Hp, !andb_false_r. simpl.
    by apply is_dir_true. }
  rewrite Hq. simpl. split_and!; [done|by apply is_dir_true|..].
  - unfold is_dir. rewrite without_frame_directories_lookup.
    destruct (is_dir "unprocessed_frames" (fs w)) eqn:E1; simpl; [done|].
    destruct (is_dir "processed_frames" (fs w)); simpl; exact E1.
  - unfold is_dir. rewrite without_frame_directories_lookup.
    destruct (is_dir "processed_frames" (fs w)) eqn:E2; simpl.
    + by rewrite orb_true_r.
    + rewrite andb_false_r. simpl. exact E2.
Qed.

(** X5: [rmtree] is called with [ignore_errors=True]: a regular file
    that sits where a frame directory is expected is not removed by
    [cleanup]. *)
Theorem cleanup_spares_regular_file a w d c :
  d = "unprocessed_frames" ∨ d = "processed_frames" →
  fs w !! d = Some (File c) →
  a ≠ d →
  fs (cleanup a w).2 !! d = Some (File c).
Proof.
  intros Hd Hf Ha. rewrite cleanup_unfold.
  assert (Hq : without_frame_directories (fs w) !! d = Some (File c)).
  { rewrite without_frame_directories_lookup.
    assert (Hnd : is_dir d (fs w) = false) by (unfold is_dir; by rewrite Hf).
    destruct Hd as [-> | ->]; rewrite Hnd; simpl.
    - replace (under "processed_frames" "unprocessed_frames") with false
        by reflexivity.
      by rewrite andb_false_r.
    - replace (under "unprocessed_frames" "processed_frames") with false
        by reflexivity.
      by rewrite andb_false_r. }
  destruct (without_frame_directories (fs w) !! a) as [[|c']|]; simpl;
    rewrite ?lookup_delete_ne by done; exact Hq.
Qed.

End CleanupAnywhere.

(** ** The frame pipeline at its edges *)

Section PipelineEdges.
Context `{T : Tools}.
Implicit Types (w : World) (n p q d : string) (f : FS) (kf : Face).

(** X6: a frame that is missing or cannot be decoded makes
    [kirkify_frame] raise [AttributeError] right after the read: nothing
    is detected, swapped or written, and the store is unchanged. *)
Theorem kirkify_frame_undecodable inp out kf w :
  (∀ img, fs w !! inp ≠ Some (File (Img img))) →
  ∃ w',
    kirkify_frame inp out kf w = (Raise AttributeError, w')
    ∧ trace w' = trace w ++ [EvImread inp]
    ∧ fs w' = fs w.
Proof.
  intros Hin%decoded_None.
  rewrite (kirkify_frame_unreadable inp out kf w Hin).
  by eexists.
Qed.

#[local] Instance outside_unchanged_preorder : PreOrder outside_unchanged.
Proof.
  split.
  - by intros w q.
  - intros w1 w2 w3 H12 H23 q Hq. rewrite (H23 q Hq). by apply H12.
Qed.

Lemma outside_same w w' : fs w' = fs w → outside_unchanged w w'.
Proof. intros E q _. by rewrite E. Qed.

Lemma under_ne d p q : under d p = true → under d q = false → p ≠ q.
Proof. intros Hp Hq ->. congruence. Qed.

Lemma outside_os_makedirs p :
  under "processed_frames" p = true →
  respects outside_unchanged (os_makedirs p).
Proof.
  intros Hp w. unfold os_makedirs. simpl.
  destruct (fs w !! p) as [[|c]|]; simpl; try by apply outside_same.
  intros q Hq. simpl. apply lookup_insert_ne. by eapply under_ne.
Qed.

Lemma outside_cv2_imwrite p img :
  under "processed_frames" p = true →
  respects outside_unchanged (cv2_imwrite p img).
Proof.
  intros Hp w q Hq. simpl. apply write_file_lookup_ne. by eapply under_ne.
Qed.

Lemma outside_os_listdir p : respects outside_unchanged (os_listdir p).
Proof.
  intros w. unfold os_listdir. simpl.
  destruct (fs w !! p) as [[|c]|]; by apply outside_same.
Qed.

Lemma outside_cv2_imread p : respects outside_unchanged (cv2_imread p).
Proof.
  intros w. unfold cv2_imread. simpl.
  destruct (fs w !! p) as [[|[i|b]]|]; by apply outside_same.
Qed.

Lemma outside_randint lo hi : respects outside_unchanged (randint lo hi).
Proof. intros w. by apply outside_same. Qed.

Lemma outside_faceanalysis_get img :
  respects outside_unchanged (faceanalysis_get img).
Proof. intros w. by apply outside_same. Qed.

Lemma outside_swapper_get res face kf :
  respects outside_unchanged (swapper_get res face kf).
Proof. intros w. by apply outside_same. Qed.

Lemma under_processed_frames n :
  under "processed_frames" ("processed_frames/" +:+ n) = true.
Proof. vm_compute. by destruct n. Qed.

Lemma outside_kirkify_frame inp n kf :
  respects outside_unchanged (kirkify_frame inp ("processed_frames/" +:+ n) kf).
Proof.
  unfold kirkify_frame.
  apply respects_bind; [apply _|apply outside_cv2_imread|intros [img|]].
  2:{ apply respects_raise, _. }
  apply respects_bind; [apply _|apply outside_faceanalysis_get|intros faces].
  destruct faces as [|face faces].
  - apply outside_cv2_imwrite, under_processed_frames.
  - cbv zeta. apply respects_bind; [apply _| |intros res].
    + apply respects_for_fold; [apply _|]. intros b x.
      apply outside_swapper_get.
    + apply outside_cv2_imwrite, under_processed_frames.
Qed.

(** X7: whatever its outcome, [process_all_frames] changes nothing
    outside the directory [processed_frames]: the extracted frames, the
    pool of reference images and every other file are as before. *)
Theorem process_all_frames_touches_outputs_only w q :
  under "processed_frames" q = false →
  fs (process_all_frames w).2 !! q = fs w !! q.
Proof.
  revert q. change (outside_unchanged w (process_all_frames w).2).
  revert w. change (respects outside_unchanged process_all_frames).
  unfold process_all_frames.
  apply respects_bind; [apply _|by apply outside_os_makedirs|intros _].
  apply respects_bind; [apply _|apply outside_os_listdir|intros names].
  cbv zeta.
  apply respects_bind; [apply _|apply outside_randint|intros v].
  apply respects_bind; [apply _|apply outside_cv2_imread|intros [kirk|]].
  2:{ apply respects_raise, _. }
  apply respects_bind; [apply _|apply outside_faceanalysis_get|intros faces].
  destruct faces as [|kf others]; [apply respects_raise, _|].
  apply respects_for_each; [apply _|]. intros n.
  apply outside_kirkify_frame.
Qed.

(** X8: for a directory of any size, [process_all_frames] writes one
    output for each entry of [unprocessed_frames] whose name ends in
    [.png], under the same name, in ascending order of the names as
    strings; entries with other names are skipped. *)
Theorem process_all_frames_in_name_order w kirk kf others :
  (∀ c, fs w !! "processed_frames" ≠ Some (File c)) →
  is_dir "unprocessed_frames" (fs w) = true →
  decoded (fs w) (kirk_path (drawn w)) = Some kirk →
  detect kirk = kf :: others →
  Forall (λ n, is_Some (frame_image (fs w) n)
               ∧ is_dir (output_path n) (fs w) = false)
         (frame_files_of (fs w)) →
  ∃ w' added,
    process_all_frames w = (Ok tt, w')
    ∧ trace w' = trace w ++ added
    ∧ (imwrite_calls added).*1 = output_path <$> frame_files_of (fs w)
    ∧ StronglySorted String.le (frame_files_of (fs w))
    ∧ (∀ n, n ∈ frame_files_of (fs w)
            ↔ endswith ".png" n = true ∧ is_name n = true
              ∧ is_Some (fs w !! input_path n)).
Proof.
  intros Hp Hu Hk Hd Hall.
  destruct (process_all_frames_ok w kirk kf others Hp Hu Hk Hd Hall)
    as (w' & Hrun & Htr & _).
  eexists w', _. split; [exact Hrun|]. split; [exact Htr|].
  split_and!.
  - rewrite imwrite_calls_app. simpl. rewrite imwrite_calls_loop_events.
    apply omap_frame_write_readable.
    eapply Forall_impl; [exact Hall|]. by intros n [? _].
  - apply frame_files_of_sorted.
  - apply elem_of_frame_files_of.
Qed.

(** X9: without the directory [unprocessed_frames], [process_all_frames]
    raises [FileNotFoundError]; by then it has made [processed_frames],
    and it has drawn no random number and read no image. *)
Theorem process_all_frames_without_input_directory w :
  (∀ c, fs w !! "processed_frames" ≠ Some (File c)) →
  fs w !! "unprocessed_frames" = None →
  ∃ w',
    process_all_frames w = (Raise (FileNotFoundError "unprocessed_frames"), w')
    ∧ trace w' = trace w ++ [EvMakedirs "processed_frames";
                             EvListdir "unprocessed_frames"]
    ∧ is_dir "processed_frames" (fs w') = true
    ∧ entropy w' = entropy w
    ∧ (∀ q, q ≠ "processed_frames" → fs w' !! q = fs w !! q).
Proof.
  intros Hp Hu.
  destruct (os_makedirs_ok "processed_frames" w Hp) as (f1 & Hmk & Hdir & Hsame & _).
  eexists. split.
  - unfold process_all_frames.
    erewrite bind_ok; [|exact Hmk].
    apply bind_raise. unfold os_listdir. simpl.
    rewrite Hsame by done. rewrite Hu. reflexivity.
  - simpl. by rewrite <- app_assoc.
Qed.

(** X10: when the drawn image of the pool is missing or cannot be
    decoded, [process_all_frames] raises [AttributeError] before any
    frame is read; the random number is spent. *)
Theorem process_all_frames_unreadable_reference w :
  (∀ c, fs w !! "processed_frames" ≠ Some (File c)) →
  is_dir "unprocessed_frames" (fs w) = true →
  (∀ img, fs w !! kirk_path (drawn w) ≠ Some (File (Img img))) →
  ∃ w',
    process_all_frames w = (Raise AttributeError, w')
    ∧ trace w' = trace w ++ [EvMakedirs "processed_frames";
                             EvListdir "unprocessed_frames";
                             EvRandint 0 2 (drawn w);
                             EvImread (kirk_path (drawn w))]
    ∧ entropy w' = tail (entropy w)
    ∧ (∀ q, q ≠ "processed_frames" → fs w' !! q = fs w !! q).
Proof.
  intros Hp Hu Hk%decoded_None.
  destruct (os_makedirs_ok "processed_frames" w Hp) as (f1 & Hmk & Hdir & Hsame & _).
  assert (Hk1 : decoded f1 (kirk_path (drawn w))
                = decoded (fs w) (kirk_path (drawn w))).
  { apply decoded_agree, Hsame, kirk_path_not_dir_name. }
  eexists. split.
  - unfold process_all_frames.
    erewrite bind_ok; [|exact Hmk].
    erewrite bind_ok.
    2:{ unfold os_listdir. simpl. rewrite Hsame by done.
        apply is_dir_true in Hu. rewrite Hu. reflexivity. }
    cbv zeta.
    erewrite bind_ok; [|reflexivity].
    unfold bind, cv2_imread, raise. simpl. fold (drawn w).
    rewrite Hk1, Hk. reflexivity.
  - simpl. rewrite <- !app_assoc. by split_and!.
Qed.

Lemma for_each_app {A} (l1 l2 : list A) (body : A → M unit) w :
  for_each (l1 ++ l2) body w
  = bind (for_each l1 body) (λ _, for_each l2 body) w.
Proof.
  revert w. induction l1 as [|x l1 IH]; intros w; [done|].
  simpl. unfold bind.
  destruct (body x w) as [[[]|e|c] w1]; [|done..].
  rewrite IH. reflexivity.
Qed.

(** X11: a frame that cannot be decoded stops the pipeline with
    [AttributeError]: the frames whose names sort before it have been
    written, it and the frames after it have not. *)
Theorem process_all_frames_stops_at_undecodable_frame
    w kirk kf others good bad rest :
  (∀ c, fs w !! "processed_frames" ≠ Some (File c)) →
  is_dir "unprocessed_frames" (fs w) = true →
  decoded (fs w) (kirk_path (drawn w)) = Some kirk →
  detect kirk = kf :: others →
  frame_files_of (fs w) = good ++ bad :: rest →
  Forall (λ n, is_Some (frame_image (fs w) n)
               ∧ is_dir (output_path n) (fs w) = false) good →
  frame_image (fs w) bad = None →
  ∃ w' added,
    process_all_frames w = (Raise AttributeError, w')
    ∧ trace w' = trace w ++ added
    ∧ (imwrite_calls added).*1 = output_path <$> good
    ∧ (∀ n img, n ∈ good → frame_image (fs w) n = Some img →
         fs w' !! output_path n = Some (File (Img (transform kf img))))
    ∧ (∀ n, n ∉ good → fs w' !! output_path n = fs w !! output_path n).
Proof.
  intros Hp Hu Hk Hd Hfiles Hgood Hbad.
  destruct (process_all_frames_enters_loop w kirk kf others Hp Hu Hk Hd)
    as (f1 & Hdir & Hsame & Hrun).
  rewrite Hfiles in Hrun.
  set (W := mkWorld f1
              (trace w ++ [EvMakedirs "processed_frames";
                           EvListdir "unprocessed_frames";
                           EvRandint 0 2 (drawn w);
                           EvImread (kirk_path (drawn w)); EvDetect kirk])
              (stdout w) (sys_stdout w) (tail (entropy w))) in Hrun.
  destruct (for_each_frames kf (fs w) good W)
    as (w1 & Hloop & Htr & Hout & Hframe & _ & _).
  { intros n. simpl. apply Hsame. intros E. symmetry in E. discriminate E. }
  { done. }
  { apply Forall_forall. intros n Hn.
    rewrite Forall_forall in Hgood. destruct (Hgood n Hn) as [Hr Ho].
    assert (Hin : n ∈ frame_files_of (fs w)).
    { rewrite Hfiles. apply elem_of_app. by left. }
    apply elem_of_frame_files_of in Hin as (_ & Hname & _).
    split_and!; [done..|].
    simpl. unfold is_dir. rewrite Hsame; [exact Ho|].
    apply output_path_not_dir_name. }
  assert (Hunread : decoded (fs w1) (input_path bad) = None).
  { rewrite (decoded_agree (fs w) (fs w1)); [exact Hbad|].
    rewrite Hframe.
    - simpl. apply Hsame. intros E. discriminate E.
    - intros n _ E. by apply (input_output_disjoint bad n). }
  rewrite for_each_app in Hrun.
  erewrite bind_ok in Hrun; [|exact Hloop].
  simpl in Hrun. unfold loop_body at 1 in Hrun.
  fold (input_path bad) (output_path bad) in Hrun.
  erewrite bind_raise in Hrun;
    [|exact (kirkify_frame_unreadable _ _ kf w1 Hunread)].
  eexists _, _. split; [exact Hrun|]. simpl. rewrite Htr. unfold W. simpl.
  rewrite <- !app_assoc. split; [reflexivity|].
  split_and!.
  - rewrite !imwrite_calls_app. simpl.
    rewrite imwrite_calls_loop_events, app_nil_r.
    apply omap_frame_write_readable.
    eapply Forall_impl; [exact Hgood|]. by intros n [? _].
  - exact Hout.
  - intros n Hn. rewrite Hframe.
    + simpl. apply Hsame. apply output_path_not_dir_name.
    + intros m Hm E. apply output_path_inj in E. by subst.
Qed.

End PipelineEdges.

(** ** The tool steps and the console *)

Section Console.
Context `{T : Tools}.
Implicit Types (w : World) (n p q d : string) (argv : list string).

Lemma for_each_print_muted msgs w :
  sys_stdout w = DevNull → for_each msgs print w = (Ok tt, w).
Proof.
  intros Hm. induction msgs as [|s msgs IH]; [done|].
  simpl. unfold bind, print at 1. rewrite Hm. exact IH.
Qed.

#[local] Instance muted_preorder : PreOrder muted.
Proof.
  split.
  - by intros w.
  - intros w1 w2 w3 H12 H23 Hm. destruct (H12 Hm) as [Hs Hm2].
    destruct (H23 Hm2) as [Hs3 Hm3]. split; congruence.
Qed.

Ltac prim_muted :=
  intros; intros ?w;
  unfold print, path_exists, os_makedirs, os_listdir, os_remove,
    shutil_rmtree, subprocess_run, cv2_imread, cv2_imwrite,
    faceanalysis_get, swapper_get, randint,
    initialize_faceanalysis_and_swapper, get_video_fps, muted;
  simpl; intros Hm; rewrite ?Hm; repeat case_match; simpl; by rewrite ?Hm.

Lemma muted_print s : respects muted (print s).
Proof. prim_muted. Qed.

Lemma muted_path_exists p : respects muted (path_exists p).
Proof. prim_muted. Qed.

Lemma muted_os_makedirs p : respects muted (os_makedirs p).
Proof. prim_muted. Qed.

Lemma muted_os_listdir p : respects muted (os_listdir p).
Proof. prim_muted. Qed.

Lemma muted_os_remove p : respects muted (os_remove p).
Proof. prim_muted. Qed.

Lemma muted_shutil_rmtree p : respects muted (shutil_rmtree p).
Proof. prim_muted. Qed.

Lemma muted_subprocess_run cmd : respects muted (subprocess_run cmd).
Proof. prim_muted. Qed.

Lemma muted_cv2_imread p : respects muted (cv2_imread p).
Proof. prim_muted. Qed.

Lemma muted_cv2_imwrite p img : respects muted (cv2_imwrite p img).
Proof. prim_muted. Qed.

Lemma muted_faceanalysis_get img : respects muted (faceanalysis_get img).
Proof. prim_muted. Qed.

Lemma muted_swapper_get res face kf : respects muted (swapper_get res face kf).
Proof. prim_muted. Qed.

Lemma muted_randint lo hi : respects muted (randint lo hi).
Proof. prim_muted. Qed.

Lemma muted_initialize : respects muted initialize_faceanalysis_and_swapper.
Proof. prim_muted. Qed.

Lemma muted_get_video_fps p : respects muted (get_video_fps p).
Proof. prim_muted. Qed.

#[local] Hint Resolve
  muted_print muted_path_exists muted_os_makedirs muted_os_listdir
  muted_os_remove muted_shutil_rmtree muted_subprocess_run
  muted_cv2_imread muted_cv2_imwrite muted_faceanalysis_get
  muted_swapper_get muted_randint muted_initialize
  muted_get_video_fps : respects.

(** Every step of a conversion reaches the console through
    [sys.stdout] only. *)
Lemma muted_conversion_steps t o : respects muted (conversion_steps t o).
Proof.
  unfold conversion_steps, extract_frames, extract_audio, process_all_frames,
    kirkify_frame, reconstruct_video.
  respects_tac.
Qed.

(** X12: a [with suppress_output()] block runs with [sys.stdout] bound
    to the null device, and [sys.stdout] is bound again as before when
    the block is left, whether the block returns, raises or exits; the
    outcome, the store, the calls made and the entropy spent are those of
    the block. Whatever a block writes through [sys.stdout] does not
    reach the console. For the one block the script wraps, the model
    loader of init mode: the models are loaded and none of the lines of
    the loader is shown. *)
Theorem suppress_output_silences {A} (body : M A) w :
  (suppress_output body w).1 = (body (mute w)).1
  ∧ sys_stdout (suppress_output body w).2 = sys_stdout w
  ∧ fs (suppress_output body w).2 = fs (body (mute w)).2
  ∧ trace (suppress_output body w).2 = trace (body (mute w)).2
  ∧ entropy (suppress_output body w).2 = entropy (body (mute w)).2
  ∧ (respects muted body → stdout (suppress_output body w).2 = stdout w)
  ∧ respects muted initialize_faceanalysis_and_swapper
  ∧ suppress_output initialize_faceanalysis_and_swapper w
    = (Ok tt, log EvLoad w).
Proof.
  unfold suppress_output. fold (mute w).
  split_and!.
  - by destruct (body (mute w)).
  - by destruct (body (mute w)).
  - by destruct (body (mute w)).
  - by destruct (body (mute w)).
  - by destruct (body (mute w)).
  - intros Hb. destruct (Hb (mute w) eq_refl) as [Hs _].
    by destruct (body (mute w)).
  - apply muted_initialize.
  - reflexivity.
Qed.

(** X13: a regular file called [unprocessed_frames] stops a conversion
    at its first step: [FileExistsError] is raised before any tool call,
    the process status is 1, and the store is unchanged. *)
Theorem conversion_blocked_by_regular_file prog TARGET_PATH OUTPUT_PATH w c :
  TARGET_PATH ≠ "init" →
  is_Some (fs w !! TARGET_PATH) →
  fs w !! "unprocessed_frames" = Some (File c) →
  ∃ w',
    main [prog; TARGET_PATH; OUTPUT_PATH] w
    = (Raise (FileExistsError "unprocessed_frames"), w')
    ∧ (run [prog; TARGET_PATH; OUTPUT_PATH] w).1 = 1
    ∧ trace w' = trace w ++ [EvLoad; EvMakedirs "unprocessed_frames"]
    ∧ fs w' = fs w.
Proof.
  intros Hi He Hf.
  assert (Hm : ∃ w', main [prog; TARGET_PATH; OUTPUT_PATH] w
                     = (Raise (FileExistsError "unprocessed_frames"), w')
                     ∧ trace w' = trace w ++ [EvLoad; EvMakedirs "unprocessed_frames"]
                     ∧ fs w' = fs w).
  { rewrite main_with_paths by done.
    rewrite bool_decide_eq_true_2 by done.
    unfold conversion_steps, extract_frames, bind,
      initialize_faceanalysis_and_swapper, print, os_makedirs, log. simpl.
    destruct (sys_stdout w); simpl; rewrite Hf; eexists;
      (split; [reflexivity|]); simpl; by rewrite <- app_assoc. }
  destruct Hm as (w' & Hm & Ht & Hfs).
  exists w'. split_and!; try done.
  unfold run. by rewrite Hm.
Qed.

(** X14: a regular file called [processed_frames] makes
    [reconstruct_video] raise [FileExistsError] without calling the
    tool. *)
Theorem reconstruct_video_blocked_by_regular_file fps a o w c :
  fs w !! "processed_frames" = Some (File c) →
  reconstruct_video fps a o w
  = (Raise (FileExistsError "processed_frames"),
     log (EvMakedirs "processed_frames") w).
Proof.
  intros Hf. unfold reconstruct_video.
  apply bind_raise. unfold os_makedirs. simpl. by rewrite Hf.
Qed.

Lemma extract_frames_grows p : respects grows (extract_frames p).
Proof. unfold extract_frames. respects_tac. Qed.

(** X15: [extract_frames] does not empty the directory it extracts to
    ([exist_ok=True]): every entry that [unprocessed_frames] had before,
    for instance frames left by an earlier run, is still listed after. *)
Theorem extract_frames_keeps_entries video_path w n :
  n ∈ listdir_names "unprocessed_frames" (fs w) →
  n ∈ listdir_names "unprocessed_frames" (fs (extract_frames video_path w).2).
Proof.
  rewrite !elem_of_listdir_names. intros [Hn Hs]. split; [done|].
  by apply (extract_frames_grows video_path w).
Qed.

Lemma conversion_steps_never_exits t o : never_exits (conversion_steps t o).
Proof.
  unfold conversion_steps, extract_frames, extract_audio, reconstruct_video.
  never_exits_tac. apply process_all_frames_never_exits.
Qed.

Lemma finish_never_exits o a : never_exits (finish o a).
Proof. unfold finish, cleanup. never_exits_tac. Qed.

(** X16: the process status is always 0 or 1, whatever the arguments
    and the state of the working directory. *)
Theorem run_status_0_or_1 argv w : (run argv w).1 = 0 ∨ (run argv w).1 = 1.
Proof.
  unfold run.
  destruct (decide (argv !! 1%nat = Some "init")) as [Hi|Hi].
  { destruct argv as [|prog [|b rest]]; simpl in Hi; try done.
    injection Hi as ->. rewrite main_init. left.
    unfold bind, suppress_output, initialize_faceanalysis_and_swapper, print,
      sys_exit. simpl. by destruct (sys_stdout w). }
  destruct (decide (length argv = 3%nat)) as [Hl|Hl].
  2:{ rewrite main_usage by done. right.
      unfold bind, print, sys_exit. by destruct (sys_stdout w). }
  rewrite (argv_of_length_3 argv Hl) in Hi |- *. simpl in Hi.
  rewrite main_with_paths by congruence.
  case_bool_decide as He.
  2:{ right. unfold bind, print, sys_exit. by destruct (sys_stdout w). }
  pose proof (never_exits_bind _ _
                (conversion_steps_never_exits (argv !!! 1%nat) (argv !!! 2%nat))
                (finish_never_exits (argv !!! 2%nat)) w) as Hne.
  destruct (bind (conversion_steps (argv !!! 1%nat) (argv !!! 2%nat))
                 (finish (argv !!! 2%nat)) w) as [[[]|x|c] w'];
    simpl in *; [by left|by right|by destruct (Hne c)].
Qed.

End Console.

(** ** What a conversion prints *)

Section ProgressLines.
Context `{T : Tools}.
Implicit Types (w : World) (n p q d : string) (argv : list string).

#[local] Instance same_output_preorder : PreOrder same_output.
Proof.
  split.
  - by intros w.
  - intros w1 w2 w3 [? ?] [? ?]. split; congruence.
Qed.

Ltac prim_same_output :=
  intros; intros ?w;
  unfold path_exists, os_makedirs, os_listdir, os_remove,
    shutil_rmtree, subprocess_run, cv2_imread, cv2_imwrite,
    faceanalysis_get, swapper_get, randint, get_video_fps, same_output;
  simpl; repeat case_match; simpl; done.

Lemma same_output_path_exists p : respects same_output (path_exists p).
Proof. prim_same_output. Qed.

Lemma same_output_os_makedirs p : respects same_output (os_makedirs p).
Proof. prim_same_output. Qed.

Lemma same_output_os_listdir p : respects same_output (os_listdir p).
Proof. prim_same_output. Qed.

Lemma same_output_os_remove p : respects same_output (os_remove p).
Proof. prim_same_output. Qed.

Lemma same_output_shutil_rmtree p : respects same_output (shutil_rmtree p).
Proof. prim_same_output. Qed.

Lemma same_output_subprocess_run cmd : respects same_output (subprocess_run cmd).
Proof. prim_same_output. Qed.

Lemma same_output_cv2_imread p : respects same_output (cv2_imread p).
Proof. prim_same_output. Qed.

Lemma same_output_cv2_imwrite p img : respects same_output (cv2_imwrite p img).
Proof. prim_same_output. Qed.

Lemma same_output_faceanalysis_get img :
  respects same_output (faceanalysis_get img).
Proof. prim_same_output. Qed.

Lemma same_output_swapper_get res face kf :
  respects same_output (swapper_get res face kf).
Proof. prim_same_output. Qed.

Lemma same_output_randint lo hi : respects same_output (randint lo hi).
Proof. prim_same_output. Qed.

Lemma same_output_get_video_fps p : respects same_output (get_video_fps p).
Proof. prim_same_output. Qed.

#[local] Hint Resolve
  same_output_path_exists same_output_os_makedirs same_output_os_listdir
  same_output_os_remove same_output_shutil_rmtree same_output_subprocess_run
  same_output_cv2_imread same_output_cv2_imwrite same_output_faceanalysis_get
  same_output_swapper_get same_output_randint
  same_output_get_video_fps : respects.

Lemma same_output_extract_frames p : respects same_output (extract_frames p).
Proof. unfold extract_frames. respects_tac. Qed.

Lemma same_output_extract_audio p : respects same_output (extract_audio p).
Proof. unfold extract_audio. respects_tac. Qed.

Lemma same_output_reconstruct_video fps a o :
  respects same_output (reconstruct_video fps a o).
Proof. unfold reconstruct_video. respects_tac. Qed.

Lemma same_output_cleanup a : respects same_output (cleanup a).
Proof. unfold cleanup. respects_tac. Qed.

Lemma same_output_process_all_frames : respects same_output process_all_frames.
Proof. unfold process_all_frames, kirkify_frame. respects_tac. Qed.

Lemma printed_same_output w0 o k w w1 :
  printed w0 o k w → same_output w w1 → printed w0 o k w1.
Proof. intros [Hs Hc] [Hs1 Hc1]. split; congruence. Qed.

(** Printing the next progress line. *)
Lemma hoare_print_line {B} w0 o k s (m : M B) (Q : outcome B → World → Prop) :
  progress_lines o !! k = Some s →
  hoare (printed w0 o (S k)) m Q →
  hoare (printed w0 o k) (bind (print s) (λ _, m)) Q.
Proof.
  intros Hk Hm w [Hs Hc]. unfold bind, print. rewrite Hc.
  apply Hm. split; [|done].
  rewrite (take_S_r _ _ _ Hk), !app_assoc, <- (app_assoc (stdout w0)), <- Hs.
  reflexivity.
Qed.

(** In a conversion the loader runs outside [suppress_output]: its
    lines are the first the console shows. *)
Lemma initialize_shows w0 o :
  hoare (console w0) initialize_faceanalysis_and_swapper
        (λ r w, r = Ok tt ∧ printed w0 o 0 w).
Proof.
  intros w [Hs Hc]. unfold initialize_faceanalysis_and_swapper. simpl.
  rewrite Hc. simpl. split; [done|]. split; [|done].
  by rewrite Hs, app_nil_r.
Qed.

Lemma shows_abort {A} w0 o k j (r : outcome A) w :
  aborted r → printed w0 o j w → shows w0 o k r w.
Proof. intros Hr Hp. exists j. split; [done|by left]. Qed.

Lemma conversion_steps_shows w0 t o :
  hoare (console w0) (conversion_steps t o) (shows w0 o 4).
Proof.
  unfold conversion_steps.
  eapply hoare_bind;
    [apply (initialize_shows w0 o)
    |by intros x w [? _]|by intros c w [? _]|intros []].
  apply hoare_pure. intros _.
  eapply hoare_print_line; [reflexivity|].
  eapply hoare_bind_stable;
    [apply same_output_extract_frames|apply printed_same_output
    |by intros; eapply shows_abort..|intros _].
  eapply hoare_print_line; [reflexivity|].
  eapply hoare_bind_stable;
    [apply same_output_extract_audio|apply printed_same_output
    |by intros; eapply shows_abort..|intros a].
  eapply hoare_print_line; [reflexivity|].
  eapply hoare_bind_stable;
    [apply same_output_process_all_frames|apply printed_same_output
    |by intros; eapply shows_abort..|intros _].
  eapply hoare_print_line; [reflexivity|].
  eapply hoare_bind_stable;
    [apply same_output_get_video_fps|apply printed_same_output
    |by intros; eapply shows_abort..|intros fps].
  eapply hoare_bind_stable;
    [apply same_output_reconstruct_video|apply printed_same_output
    |by intros; eapply shows_abort..|intros _].
  apply hoare_ret. intros w Hp. exists 4%nat. split; [done|by right].
Qed.

Lemma finish_shows w0 o a :
  hoare (printed w0 o 4) (finish o a) (shows w0 o 6).
Proof.
  unfold finish.
  eapply hoare_print_line; [reflexivity|].
  eapply hoare_bind_stable;
    [apply same_output_cleanup|apply printed_same_output
    |by intros; eapply shows_abort..|intros _].
  intros w [Hs Hc]. unfold print. rewrite Hc. simpl.
  exists 6%nat. split; [|by right]. split; [|done]. simpl.
  rewrite Hs. by rewrite <- !app_assoc.
Qed.


End ProgressLines.

(** ** Outputs of an earlier run *)

Section StaleOutputs.
Context `{T : Tools}.
Implicit Types (w : World) (n m p q : string) (kf : Face).

(** X18: [process_all_frames] does not empty [processed_frames]
    ([exist_ok=True]): an output left there by an earlier run under a
    name that is not among the current frames is still there, unchanged,
    after a run that returned normally. *)
Theorem process_all_frames_keeps_stale_outputs w kirk kf others m :
  (∀ c, fs w !! "processed_frames" ≠ Some (File c)) →
  is_dir "unprocessed_frames" (fs w) = true →
  decoded (fs w) (kirk_path (drawn w)) = Some kirk →
  detect kirk = kf :: others →
  Forall (λ n, is_Some (frame_image (fs w) n)
               ∧ is_dir (output_path n) (fs w) = false)
         (frame_files_of (fs w)) →
  m ∉ frame_files_of (fs w) →
  (process_all_frames w).1 = Ok tt
  ∧ fs (process_all_frames w).2 !! output_path m = fs w !! output_path m.
Proof.
  intros Hp Hu Hk Hd Hall Hm.
  destruct (process_all_frames_ok w kirk kf others Hp Hu Hk Hd Hall)
    as (w' & Hrun & _ & _ & Hframe & _).
  rewrite Hrun. simpl. split; [done|].
  apply Hframe.
  - apply output_path_not_dir_name.
  - intros n Hn E. apply output_path_inj in E. by subst.
Qed.

End StaleOutputs.

(** ** The further properties on the small instance *)

Section FurtherWitnesses.
#[local] Existing Instance toy_tools.

Lemma cleanup_touches_intermediates_only_witness :
  fs (cleanup "audio.aac" (toy_world toy_fs_frames)).2 !! "in.mp4"
  = fs (toy_world toy_fs_frames) !! "in.mp4".
Proof.
  apply (cleanup_touches_intermediates_only
           "audio.aac" (toy_world toy_fs_frames) "in.mp4").
  - reflexivity.
  - reflexivity.
  - intros H. discriminate H.
Defined.

Lemma cleanup_nothing_to_do_witness :
  cleanup "audio.aac" (toy_world toy_fs)
  = (Ok tt, mkWorld (fs (toy_world toy_fs))
              (trace (toy_world toy_fs)
                 ++ [EvRmtree "unprocessed_frames"; EvRmtree "processed_frames"])
              (stdout (toy_world toy_fs)) (sys_stdout (toy_world toy_fs))
              (entropy (toy_world toy_fs))).
Proof.
  apply (cleanup_nothing_to_do "audio.aac" (toy_world toy_fs)).
  - vm_compute. reflexivity.
  - vm_compute. reflexivity.
  - vm_compute. reflexivity.
Defined.

Lemma cleanup_twice_witness :
  (cleanup "audio.aac" (cleanup "audio.aac" (toy_world toy_fs_frames)).2).1
  = Ok tt
  ∧ fs (cleanup "audio.aac" (cleanup "audio.aac" (toy_world toy_fs_frames)).2).2
    = fs (cleanup "audio.aac" (toy_world toy_fs_frames)).2.
Proof.
  apply (cleanup_twice "audio.aac" (toy_world toy_fs_frames)).
  apply pair_of_fst. vm_compute. reflexivity.
Defined.

Lemma cleanup_audio_directory_witness :
  (cleanup "audio.aac" (toy_world toy_fs_audio_dir)).1
  = Raise (IsADirectoryError "audio.aac")
  ∧ is_dir "audio.aac" (fs (cleanup "audio.aac" (toy_world toy_fs_audio_dir)).2)
    = true
  ∧ is_dir "unprocessed_frames"
      (fs (cleanup "audio.aac" (toy_world toy_fs_audio_dir)).2) = false
  ∧ is_dir "processed_frames"
      (fs (cleanup "audio.aac" (toy_world toy_fs_audio_dir)).2) = false.
Proof.
  apply (cleanup_audio_directory "audio.aac" (toy_world toy_fs_audio_dir)).
  - vm_compute. reflexivity.
  - reflexivity.
  - reflexivity.
Defined.

Lemma cleanup_spares_regular_file_witness :
  fs (cleanup "audio.aac" (toy_world toy_fs_blocked)).2 !! "unprocessed_frames"
  = Some (File (Raw "x")).
Proof.
  apply (cleanup_spares_regular_file "audio.aac" (toy_world toy_fs_blocked)).
  - by left.
  - vm_compute. reflexivity.
  - intros H. discriminate H.
Defined.

Lemma kirkify_frame_undecodable_witness :
  ∃ w',
    kirkify_frame (T := toy_tools) "unprocessed_frames/frame_0007.png"
      "processed_frames/frame_0007.png" 8%nat (toy_world toy_fs_frames)
    = (Raise AttributeError, w')
    ∧ trace w' = trace (toy_world toy_fs_frames)
                 ++ [EvImread "unprocessed_frames/frame_0007.png"]
    ∧ fs w' = fs (toy_world toy_fs_frames).
Proof.
  apply (kirkify_frame_undecodable (T := toy_tools)).
  intros img H. vm_compute in H. discriminate H.
Defined.

Lemma process_all_frames_touches_outputs_only_witness :
  fs (process_all_frames (toy_world toy_fs_frames)).2
    !! "unprocessed_frames/frame_0001.png"
  = fs (toy_world toy_fs_frames) !! "unprocessed_frames/frame_0001.png".
Proof.
  apply (process_all_frames_touches_outputs_only (toy_world toy_fs_frames)).
  reflexivity.
Defined.

Lemma process_all_frames_in_name_order_witness :
  ∃ w' added,
    process_all_frames (toy_world toy_fs_mixed) = (Ok tt, w')
    ∧ trace w' = trace (toy_world toy_fs_mixed) ++ added
    ∧ (imwrite_calls added).*1
      = output_path <$> frame_files_of (fs (toy_world toy_fs_mixed))
    ∧ StronglySorted String.le (frame_files_of (fs (toy_world toy_fs_mixed)))
    ∧ (∀ n, n ∈ frame_files_of (fs (toy_world toy_fs_mixed))
            ↔ endswith ".png" n = true ∧ is_name n = true
              ∧ is_Some (fs (toy_world toy_fs_mixed) !! input_path n)).
Proof.
  apply (process_all_frames_in_name_order
           (toy_world toy_fs_mixed) [8%nat] 8%nat []).
  - intros c H. vm_compute in H. discriminate H.
  - vm_compute. reflexivity.
  - vm_compute. reflexivity.
  - reflexivity.
  - replace (frame_files_of (fs (toy_world toy_fs_mixed)))
      with ["frame_0001.png"; "frame_0002.png"] by (vm_compute; reflexivity).
    repeat (constructor;
            [split; [vm_compute; eexists; reflexivity
                    |vm_compute; reflexivity]|]).
    constructor.
Defined.

Lemma process_all_frames_without_input_directory_witness :
  ∃ w',
    process_all_frames (toy_world toy_fs)
    = (Raise (FileNotFoundError "unprocessed_frames"), w')
    ∧ trace w' = trace (toy_world toy_fs)
                 ++ [EvMakedirs "processed_frames";
                     EvListdir "unprocessed_frames"]
    ∧ is_dir "processed_frames" (fs w') = true
    ∧ entropy w' = entropy (toy_world toy_fs)
    ∧ (∀ q, q ≠ "processed_frames" → fs w' !! q = fs (toy_world toy_fs) !! q).
Proof.
  apply (process_all_frames_without_input_directory (toy_world toy_fs)).
  - intros c H. vm_compute in H. discriminate H.
  - vm_compute. reflexivity.
Defined.

Lemma process_all_frames_unreadable_reference_witness :
  ∃ w',
    process_all_frames (toy_world toy_fs_poolless) = (Raise AttributeError, w')
    ∧ trace w' = trace (toy_world toy_fs_poolless)
                 ++ [EvMakedirs "processed_frames";
                     EvListdir "unprocessed_frames";
                     EvRandint 0 2 (drawn (toy_world toy_fs_poolless));
                     EvImread (kirk_path (drawn (toy_world toy_fs_poolless)))]
    ∧ entropy w' = tail (entropy (toy_world toy_fs_poolless))
    ∧ (∀ q, q ≠ "processed_frames" →
         fs w' !! q = fs (toy_world toy_fs_poolless) !! q).
Proof.
  apply (process_all_frames_unreadable_reference (toy_world toy_fs_poolless)).
  - intros c H. vm_compute in H. discriminate H.
  - vm_compute. reflexivity.
  - intros img H. vm_compute in H. discriminate H.
Defined.

Lemma process_all_frames_stops_at_undecodable_frame_witness :
  ∃ w' added,
    process_all_frames (toy_world toy_fs_broken) = (Raise AttributeError, w')
    ∧ trace w' = trace (toy_world toy_fs_broken) ++ added
    ∧ (imwrite_calls added).*1 = output_path <$> ["frame_0001.png"]
    ∧ (∀ n img, n ∈ ["frame_0001.png"] →
         frame_image (fs (toy_world toy_fs_broken)) n = Some img →
         fs w' !! output_path n = Some (File (Img (transform 8%nat img))))
    ∧ (∀ n, n ∉ ["frame_0001.png"] →
         fs w' !! output_path n
         = fs (toy_world toy_fs_broken) !! output_path n).
Proof.
  apply (process_all_frames_stops_at_undecodable_frame
           (toy_world toy_fs_broken) [8%nat] 8%nat []
           ["frame_0001.png"] "frame_0002.png" ["frame_0003.png"]).
  - intros c H. vm_compute in H. discriminate H.
  - vm_compute. reflexivity.
  - vm_compute. reflexivity.
  - reflexivity.
  - vm_compute. reflexivity.
  - constructor; [|constructor].
    split; [vm_compute; eexists; reflexivity|vm_compute; reflexivity].
  - vm_compute. reflexivity.
Defined.

(** X12 at the loader block of init mode. *)
Lemma suppress_output_silences_witness :
  (suppress_output initialize_faceanalysis_and_swapper (toy_world toy_fs)).1
  = (initialize_faceanalysis_and_swapper (mute (toy_world toy_fs))).1
  ∧ sys_stdout
      (suppress_output initialize_faceanalysis_and_swapper (toy_world toy_fs)).2
    = Console
  ∧ stdout
      (suppress_output initialize_faceanalysis_and_swapper (toy_world toy_fs)).2
    = []
  ∧ suppress_output initialize_faceanalysis_and_swapper (toy_world toy_fs)
    = (Ok tt, log EvLoad (toy_world toy_fs)).
Proof.
  destruct (suppress_output_silences
              (initialize_faceanalysis_and_swapper (T := toy_tools))
              (toy_world toy_fs))
    as (Ho & Hs & _ & _ & _ & Hq & Hm & Hl).
  split_and!; [exact Ho|exact Hs|exact (Hq Hm)|exact Hl].
Defined.

Lemma conversion_blocked_by_regular_file_witness :
  ∃ w',
    main ["kirkifier_video.py"; "in.mp4"; "out.mp4"] (toy_world toy_fs_blocked)
    = (Raise (FileExistsError "unprocessed_frames"), w')
    ∧ (run ["kirkifier_video.py"; "in.mp4"; "out.mp4"]
           (toy_world toy_fs_blocked)).1 = 1
    ∧ trace w' = trace (toy_world toy_fs_blocked)
                 ++ [EvLoad; EvMakedirs "unprocessed_frames"]
    ∧ fs w' = fs (toy_world toy_fs_blocked).
Proof.
  apply (conversion_blocked_by_regular_file
           "kirkifier_video.py" "in.mp4" "out.mp4" (toy_world toy_fs_blocked)
           (Raw "x")).
  - intros H. discriminate H.
  - vm_compute. eexists. reflexivity.
  - vm_compute. reflexivity.
Defined.

Lemma reconstruct_video_blocked_by_regular_file_witness :
  reconstruct_video (T := toy_tools) 25%nat "audio.aac" "out.mp4"
    (toy_world toy_fs_blocked_output)
  = (Raise (FileExistsError "processed_frames"),
     log (EvMakedirs "processed_frames") (toy_world toy_fs_blocked_output)).
Proof.
  apply (reconstruct_video_blocked_by_regular_file (T := toy_tools)
           25%nat "audio.aac" "out.mp4" (toy_world toy_fs_blocked_output)
           (Raw "x")).
  vm_compute. reflexivity.
Defined.

Lemma extract_frames_keeps_entries_witness :
  "notes.txt"
  ∈ listdir_names "unprocessed_frames"
      (fs (extract_frames "in.mp4" (toy_world toy_fs_mixed)).2).
Proof.
  apply (extract_frames_keeps_entries "in.mp4" (toy_world toy_fs_mixed)).
  apply elem_of_listdir_names. split; [reflexivity|].
  vm_compute. eexists. reflexivity.
Defined.


Lemma process_all_frames_keeps_stale_outputs_witness :
  (process_all_frames (toy_world toy_fs_stale)).1 = Ok tt
  ∧ fs (process_all_frames (toy_world toy_fs_stale)).2
      !! output_path "frame_0009.png"
    = fs (toy_world toy_fs_stale) !! output_path "frame_0009.png".
Proof.
  apply (process_all_frames_keeps_stale_outputs
           (toy_world toy_fs_stale) [8%nat] 8%nat [] "frame_0009.png").
  - intros c H. vm_compute in H. discriminate H.
  - vm_compute. reflexivity.
  - vm_compute. reflexivity.
  - reflexivity.
  - replace (frame_files_of (fs (toy_world toy_fs_stale)))
      with ["frame_0001.png"; "frame_0002.png"] by (vm_compute; reflexivity).
    repeat (constructor;
            [split; [vm_compute; eexists; reflexivity
                    |vm_compute; reflexivity]|]).
    constructor.
  - replace (frame_files_of (fs (toy_world toy_fs_stale)))
      with ["frame_0001.png"; "frame_0002.png"] by (vm_compute; reflexivity).
    intros H. apply elem_of_cons in H as [H|H]; [discriminate H|].
    apply elem_of_cons in H as [H|H]; [discriminate H|].
    by apply elem_of_nil in H.
Defined.

End FurtherWitnesses.
